(** * The submit / poll / retry / address-rotation engine of [app.py]

    A shallow embedding of the job engine of [src/app.py] and the
    properties of its specification.

    Python text is modelled by [string]: a sequence of characters with
    code points below 256.  Case folding, whitespace and slicing are the
    ones Python's [str] has on that range.  The three Persian literals of
    the source are only passed through; they are kept as opaque byte
    strings. *)

From Stdlib Require Import String Ascii List ZArith NArith Lia Bool Arith.
From Stdlib Require Import DecimalString Permutation.
Import ListNotations.
Set Warnings "-register-all".
Local Open Scope string_scope.
Local Open Scope list_scope.

(** ** Python [str] operations *)

Module PyStr.

(** [str.lower] on one character: [A-Z], and the Latin-1 capitals
    [U+00C0 .. U+00DE] without the multiplication sign [U+00D7]. *)
Definition lower_char (c : ascii) : ascii :=
  let n := nat_of_ascii c in
  if (((65 <=? n) && (n <=? 90))
      || ((192 <=? n) && (n <=? 222) && negb (n =? 215)))%nat
  then ascii_of_nat (n + 32) else c.

Fixpoint lower (s : string) : string :=
  match s with
  | EmptyString => EmptyString
  | String c r => String (lower_char c) (lower r)
  end.

(** [s.startswith(p)] *)
Fixpoint startswith (s p : string) {struct p} : bool :=
  match p, s with
  | EmptyString, _ => true
  | String a p', String b s' => Ascii.eqb a b && startswith s' p'
  | String _ _, EmptyString => false
  end.

(** [kw in s] for two strings. *)
Fixpoint contains (kw s : string) : bool :=
  startswith s kw ||
  match s with
  | EmptyString => false
  | String _ r => contains kw r
  end.

(** [s[:n]] *)
Fixpoint take (n : nat) (s : string) : string :=
  match n, s with
  | S k, String c r => String c (take k r)
  | _, _ => EmptyString
  end.

(** [s[n:]] *)
Fixpoint drop (n : nat) (s : string) : string :=
  match n, s with
  | S k, String _ r => drop k r
  | _, _ => s
  end.

(** [str.isspace] on one character. *)
Definition is_space (c : ascii) : bool :=
  let n := nat_of_ascii c in
  (((9 <=? n) && (n <=? 13)) || ((28 <=? n) && (n <=? 32))
   || (n =? 133) || (n =? 160))%nat.

Fixpoint lstrip (s : string) : string :=
  match s with
  | String c r => if is_space c then lstrip r else s
  | EmptyString => EmptyString
  end.

(** Drops trailing whitespace: a character is kept when it is not
    whitespace or when something is kept after it. *)
Fixpoint rstrip (s : string) : string :=
  match s with
  | EmptyString => EmptyString
  | String c r =>
      match rstrip r with
      | EmptyString => if is_space c then EmptyString else String c EmptyString
      | kept => String c kept
      end
  end.

(** [s.strip()] *)
Definition strip (s : string) : string := rstrip (lstrip s).

Definition newline : ascii := ascii_of_nat 10.

(** [s.split('\n')]: never empty, the empty text gives one empty piece. *)
Fixpoint split_lines (s : string) : list string :=
  match s with
  | EmptyString => [EmptyString]
  | String c r =>
      if Ascii.eqb c newline then EmptyString :: split_lines r
      else match split_lines r with
           | first :: others => String c first :: others
           | [] => [String c EmptyString]
           end
  end.

Definition nonempty (s : string) : bool :=
  match s with EmptyString => false | _ => true end.

End PyStr.

(** ** The error classifier

    The source writes the same test four times, at lines 127, 138, 185
    and 205: [any(kw in text.lower() for kw in [...])]. *)

Definition RESOURCE_KEYWORDS : list string :=
  ["cuda"; "gpu"; "quota"; "capacity"; "load"; "queue full";
   "too many requests"; "rate limit"].

Definition has_resource_keyword (text : string) : bool :=
  let text_lower := PyStr.lower text in
  existsb (fun kw => PyStr.contains kw text_lower) RESOURCE_KEYWORDS.

Inductive category := ResourceExhausted | Other.

Definition classify (text : string) : category :=
  if has_resource_keyword text then ResourceExhausted else Other.

(** A keyword of the fixed set occurs in the text at some offset, as the
    code tests it: after both are folded by [str.lower]. *)
Definition same_ignoring_case (a b : string) : Prop :=
  PyStr.lower a = PyStr.lower b.

Definition spec_resource_exhausted (text : string) : Prop :=
  exists kw before found after,
    In kw RESOURCE_KEYWORDS /\
    text = (before ++ found ++ after)%string /\
    same_ignoring_case found kw.

(** The classifier in the words of the specification, written without
    the code's [str.lower]: a capital is one of [A-Z] or of the Latin-1
    capitals, its small letter stands 32 code points after it, and two
    characters are the same letter when they are equal or one is the
    small letter of the other. *)
Definition is_capital (c : ascii) : bool :=
  let n := nat_of_ascii c in
  (((65 <=? n) && (n <=? 90))
   || ((192 <=? n) && (n <=? 222) && negb (n =? 215)))%nat.

Definition same_letter (a b : ascii) : Prop :=
  a = b
  \/ (is_capital a = true /\ nat_of_ascii b = nat_of_ascii a + 32)
  \/ (is_capital b = true /\ nat_of_ascii a = nat_of_ascii b + 32).

Fixpoint equal_ignoring_case (a b : string) : Prop :=
  match a, b with
  | EmptyString, EmptyString => True
  | String x a', String y b' => same_letter x y /\ equal_ignoring_case a' b'
  | _, _ => False
  end.

(** Some keyword of the fixed set occurs in the text at some offset,
    letter case ignored. *)
Definition spec_keyword_occurs (text : string) : Prop :=
  exists kw before found after,
    In kw RESOURCE_KEYWORDS /\
    text = (before ++ found ++ after)%string /\
    equal_ignoring_case found kw.

(** A space or a small letter [a-z]: the characters of the keywords. *)
Definition is_plain (c : ascii) : bool :=
  let n := nat_of_ascii c in
  ((n =? 32) || ((97 <=? n) && (n <=? 122)))%nat.

(** The item of a dict with string keys, if the key is there. *)
Fixpoint dict_lookup {V} (d : list (string * V)) (key : string) : option V :=
  match d with
  | [] => None
  | (k, v) :: rest => if String.eqb k key then Some v else dict_lookup rest key
  end.

(** ** Python values

    The values [json.loads] produces and the payloads the engine sends.
    [JFloat m e] is the finite float [m * 2^e].  A [JObj] lists the items of
    a dict in insertion order, every key once. *)

Inductive json :=
| JNull
| JBool (b : bool)
| JInt (z : Z)
| JFloat (m e : Z)
| JStr (s : string)
| JArr (items : list json)
| JObj (fields : list (string * json)).

Module Py.

(** [bool(v)] *)
Definition truthy (v : json) : bool :=
  match v with
  | JNull => false
  | JBool b => b
  | JInt z => negb (z =? 0)%Z
  | JFloat m _ => negb (m =? 0)%Z
  | JStr s => PyStr.nonempty s
  | JArr items => match items with [] => false | _ => true end
  | JObj fields => match fields with [] => false | _ => true end
  end.

(** [bool], [int] and [float] compare by value: [m * 2^e]. *)
Definition number (v : json) : option (Z * Z) :=
  match v with
  | JBool b => Some (if b then 1%Z else 0%Z, 0%Z)
  | JInt z => Some (z, 0%Z)
  | JFloat m e => Some (m, e)
  | _ => None
  end.

Definition number_eqb (a b : Z * Z) : bool :=
  let '(m1, e1) := a in
  let '(m2, e2) := b in
  let e := Z.min e1 e2 in
  (m1 * 2 ^ (e1 - e) =? m2 * 2 ^ (e2 - e))%Z.

(** [a == b] *)
Fixpoint eqb (a b : json) : bool :=
  match a, b with
  | JNull, JNull => true
  | JStr s, JStr t => String.eqb s t
  | JArr xs, JArr ys =>
      (fix all2 (xs ys : list json) : bool :=
         match xs, ys with
         | [], [] => true
         | x :: xs', y :: ys' => eqb x y && all2 xs' ys'
         | _, _ => false
         end) xs ys
  | JObj fs, JObj gs =>
      (length fs =? length gs)%nat &&
      (fix sub (fs : list (string * json)) : bool :=
         match fs with
         | [] => true
         | (k, v) :: fs' =>
             match dict_lookup gs k with
             | Some w => eqb v w && sub fs'
             | None => false
             end
         end) fs
  | _, _ =>
      match number a, number b with
      | Some x, Some y => number_eqb x y
      | _, _ => false
      end
  end.

End Py.

(** ** Exceptions

    The classes the engine raises or meets.  [Timeout] and
    [RequestException] are the ones of [requests.exceptions]; the source
    catches [Timeout] first, so [RequestException] stands for every other
    member of that family and carries its [str()].  [ConnectionError] is the
    builtin one, which is what the unqualified name means in the source. *)

Inductive exn :=
| GPUQuotaError (message : string)
| ValueError (message : string)
| ConnectionError (message : string)
| Timeout
| RequestException (detail : string)
| AttributeError
| TypeError
| KeyError
| IndexError
| NameError (name : string).

(** ** What a run prints and does

    One constructor per [print] of the source, with the values it
    interpolates. *)

Inductive printed :=
| DebugUsingSourceIp (source_ip base_url : string)
| DebugDefaultNetwork (base_url : string)
| WarningCouldNotDecode (event_str : string)
| DebugCompleted (service_name : string)
| DebugGenerating (service_name : string)
| WarningPollTimedOut (service_name : string)
| ErrorUnhandledPolling (service_name : string) (e : exn)
| WarningNoAddresses
| InfoAttemptingWith (current_source_ip : option string) (remaining : nat)
| InfoTranslating (attempt : Z) (current_source_ip : option string)
| InfoTranslated (prompt_start : json)
| InfoCreating (attempt : Z) (current_source_ip : option string)
| SuccessImage (final_image_url : string)
| QuotaErrorWithIp (current_source_ip : option string) (message : string)
| ErrorGeneral (current_source_ip : option string) (attempt : Z) (e : exn)
| InfoAllRetriesFailed (current_source_ip : option string)
| ErrorAllFailed
| CriticalErrorInEndpoint (e : exn).

Inductive event :=
| Post (url : string) (body : json) (source_address : option string)
| Get (url : string) (source_address : option string)
| Sleep (seconds : Z)
| Print (line : printed).

(** ** The world outside the program

    The outcome of the k-th POST (with [raise_for_status] and
    [response.json()]), of the k-th GET (with [raise_for_status] and
    [response.text]), the k-th random draw, the JSON decoder and the
    address list loaded at startup. *)

Inductive reply (A : Type) :=
| TimedOut
| Failed (detail : string)
| Replied (a : A).
Arguments TimedOut {A}.
Arguments Failed {A} detail.
Arguments Replied {A} a.

Record exchange (A : Type) := Exchange { took : N; outcome : reply A }.
Arguments Exchange {A} took outcome.
Arguments took {A} e.
Arguments outcome {A} e.

Record environment := Environment {
  json_loads : string -> option json;
  IPV6_ADDRESSES : list string;
  post_replies : nat -> exchange json;
  get_replies : nat -> exchange string;
  random_draws : nat -> nat
}.

(** The mutable part: the clock read by [time.time()], how much of each
    oracle is used, and the one local variable of the poller that is
    assigned inside its [try] block. *)
Record state := State {
  clock : Z;
  posts_sent : nat;
  gets_sent : nat;
  draws_taken : nat;
  last_progress_update : Z
}.

(** ** A state, trace and exception monad *)

Inductive result (A : Type) :=
| Ret (a : A)
| Raise (e : exn)
| OutOfFuel.
Arguments Ret {A} a.
Arguments Raise {A} e.
Arguments OutOfFuel {A}.

Definition M (A : Type) : Type := state -> result A * state * list event.

Definition ret {A} (a : A) : M A := fun st => (Ret a, st, []).

Definition raise {A} (e : exn) : M A := fun st => (Raise e, st, []).

Definition out_of_fuel {A} : M A := fun st => (OutOfFuel, st, []).

Definition bind {A B} (m : M A) (f : A -> M B) : M B :=
  fun st =>
    match m st with
    | (Ret a, st1, tr1) =>
        match f a st1 with
        | (r, st2, tr2) => (r, st2, tr1 ++ tr2)
        end
    | (Raise e, st1, tr1) => (Raise e, st1, tr1)
    | (OutOfFuel, st1, tr1) => (OutOfFuel, st1, tr1)
    end.

(** [try: m  except ...: handler] *)
Definition try_except {A} (m : M A) (handler : exn -> M A) : M A :=
  fun st =>
    match m st with
    | (Raise e, st1, tr1) =>
        match handler e st1 with
        | (r, st2, tr2) => (r, st2, tr1 ++ tr2)
        end
    | other => other
    end.

Definition outcome_of {A} (x : result A * state * list event) : result A :=
  fst (fst x).

Definition state_of {A} (x : result A * state * list event) : state :=
  snd (fst x).

Definition trace_of {A} (x : result A * state * list event) : list event :=
  snd x.

Declare Scope py_scope.
Delimit Scope py_scope with py.
Notation "x <- m ;; k" := (bind m (fun x => k))
  (at level 61, m at next level, right associativity) : py_scope.
Notation "m ;; k" := (bind m (fun _ => k))
  (at level 61, right associativity) : py_scope.
Local Open Scope py_scope.

Definition emit (e : event) : M unit := fun st => (Ret tt, st, [e]).

Definition print (line : printed) : M unit := emit (Print line).

Definition advance (seconds : Z) : M unit :=
  fun st => (Ret tt,
             State (clock st + seconds) (posts_sent st) (gets_sent st)
                   (draws_taken st) (last_progress_update st),
             []).

(** [time.time()] *)
Definition time_time : M Z := fun st => (Ret (clock st), st, []).

(** [time.sleep(seconds)] *)
Definition time_sleep (seconds : Z) : M unit :=
  emit (Sleep seconds) ;; advance seconds.

Notation "a +++ b" := (String.append a b)
  (at level 60, right associativity) : py_scope.

(** [str(n)] for an integer. *)
Definition str_of_int (n : Z) : string := NilZero.string_of_int (Z.to_int n).

(** ** Constants of the source *)

Definition IMAGE_GENERATOR_API_BASE_URL : string :=
  "https://black-forest-labs-flux-1-dev.hf.space".
Definition IMAGE_GENERATOR_FN_INDEX : Z := 2.
Definition IMAGE_GENERATOR_TRIGGER_ID : Z := 5.

Definition TRANSLATOR_API_BASE_URL : string :=
  "https://hamed744-translate-tts-aloha.hf.space".
Definition TRANSLATOR_FN_INDEX : Z := 1.
Definition TRANSLATOR_OTHER_PARAMS : list json :=
  [JStr "انگلیسی (آمریکا) - جنی (زن)"; JInt 0; JInt 0; JInt 0].

(** The population of line 99. *)
Definition SESSION_HASH_ALPHABET : string :=
  "abcdefghijklmnopqrstuvwxyz0123456789".

Definition DEFAULT_RANDOMIZE_SEED : bool := true.
(** 3.5 *)
Definition DEFAULT_GUIDANCE_SCALE : json := JFloat 7 (-1).
Definition DEFAULT_INFERENCE_STEPS : Z := 28.

Record dimensions := Dimensions { width : Z; height : Z }.

Definition PREDEFINED_DIMENSIONS_MAP : list (string * dimensions) :=
  [("1:1", Dimensions 1024 1024);
   ("16:9", Dimensions 1344 768);
   ("9:16", Dimensions 768 1344);
   ("4:3", Dimensions 1152 864)].

(** [PREDEFINED_DIMENSIONS_MAP.get(aspect_ratio_key,
    PREDEFINED_DIMENSIONS_MAP["1:1"])], line 267.  The default is evaluated
    first; the key "1:1" is in the table. *)
Definition dimensions_for (aspect_ratio_key : string) : dimensions :=
  let square :=
    match dict_lookup PREDEFINED_DIMENSIONS_MAP "1:1" with
    | Some d => d
    | None => Dimensions 0 0
    end in
  match dict_lookup PREDEFINED_DIMENSIONS_MAP aspect_ratio_key with
  | Some d => d
  | None => square
  end.

(** The names bound at module level when a request is served: the imports
    of lines 1 to 10 and the module's own definitions. *)
Definition MODULE_GLOBALS : list string :=
  ["requests"; "HTTPAdapter"; "random"; "json"; "time"; "os";
   "FastAPI"; "Request"; "HTTPException";
   "HTMLResponse"; "JSONResponse"; "FileResponse";
   "CORSMiddleware"; "BaseModel";
   "IPV6_ADDRESSES"; "current_ipv6_index"; "IPV6_LIST_FILE"; "app";
   "SourceAddressAdapter"; "load_ipv6_addresses"; "startup_event";
   "GPUQuotaError";
   "IMAGE_GENERATOR_API_BASE_URL"; "IMAGE_GENERATOR_FN_INDEX";
   "IMAGE_GENERATOR_TRIGGER_ID";
   "TRANSLATOR_API_BASE_URL"; "TRANSLATOR_FN_INDEX";
   "TRANSLATOR_OTHER_PARAMS";
   "DEFAULT_RANDOMIZE_SEED"; "DEFAULT_GUIDANCE_SCALE";
   "DEFAULT_INFERENCE_STEPS"; "PREDEFINED_DIMENSIONS_MAP";
   "generate_session_hash"; "call_gradio_api_with_ipv6";
   "poll_gradio_sse_status"; "start_full_process_with_ipv6_rotation";
   "GenerateImageRequest"; "read_root"; "generate_image_endpoint"].

(** Evaluating a global name that is not a builtin. *)
Definition global_name (name : string) : M unit :=
  if existsb (String.eqb name) MODULE_GLOBALS then ret tt
  else raise (NameError name).

(** [range(n)] *)
Definition range (n : Z) : list Z := map Z.of_nat (seq 0 (Z.to_nat n)).

(** ** The engine *)

Section Engine.

Variable env : environment.

(** *** The HTTP session *)

(** [requests.Session()] with the adapter of lines 113 to 114: the address
    the [https://] connections are bound to, if one was mounted. *)
Definition session := option string.

Definition mounts_adapter (source_ip : option string) : bool :=
  match source_ip with
  | Some ip =>
      PyStr.nonempty ip && existsb (String.eqb ip) (IPV6_ADDRESSES env)
  | None => false
  end.

Definition new_session (source_ip : option string) : session :=
  if mounts_adapter source_ip then source_ip else None.

(** The adapter a session picks for a URL: the mounted one serves
    [https://] only. *)
Definition bound_address (s : session) (url : string) : option string :=
  if PyStr.startswith (PyStr.lower url) "https://" then s else None.

Definition raise_reply {A} (r : reply A) : result A :=
  match r with
  | TimedOut => Raise Timeout
  | Failed detail => Raise (RequestException detail)
  | Replied a => Ret a
  end.

(** [s.post(url, json=body, timeout=90)], [raise_for_status()] and
    [response.json()]. *)
Definition s_post (s : session) (url : string) (body : json) : M json :=
  fun st =>
    let x := post_replies env (posts_sent st) in
    (raise_reply (outcome x),
     State (clock st + Z.of_N (took x)) (S (posts_sent st)) (gets_sent st)
           (draws_taken st) (last_progress_update st),
     [Post url body (bound_address s url)]).

(** [s.get(url, timeout=30)], [raise_for_status()] and [response.text]. *)
Definition s_get (s : session) (url : string) : M string :=
  fun st =>
    let x := get_replies env (gets_sent st) in
    (raise_reply (outcome x),
     State (clock st + Z.of_N (took x)) (posts_sent st) (S (gets_sent st))
           (draws_taken st) (last_progress_update st),
     [Get url (bound_address s url)]).

(** *** Dynamic typing *)

(** [d.get(key, default)]; only a dict has [get]. *)
Definition dict_get (d : json) (key : string) (default : json) : M json :=
  match d with
  | JObj fields =>
      ret (match dict_lookup fields key with
           | Some v => v
           | None => default
           end)
  | _ => raise AttributeError
  end.

(** [v[0]] *)
Definition item0 (v : json) : M json :=
  match v with
  | JArr (x :: _) => ret x
  | JArr [] => raise IndexError
  | JStr (String c _) => ret (JStr (String c EmptyString))
  | JStr EmptyString => raise IndexError
  | JObj _ => raise KeyError
  | _ => raise TypeError
  end.

(** [v[:n]]; a dict refuses a slice ([TypeError], [KeyError] from
    Python 3.12 on). *)
Definition slice_to (n : nat) (v : json) : M json :=
  match v with
  | JStr s => ret (JStr (PyStr.take n s))
  | JArr items => ret (JArr (firstn n items))
  | _ => raise TypeError
  end.

(** *** Random numbers *)

(** One draw from the generator. *)
Definition random_draw : M nat :=
  fun st =>
    match st with
    | State now posts gets draws last =>
        (Ret (random_draws env draws),
         State now posts gets (S draws) last,
         [])
    end.

(** [population[i]], as a string of one character. *)
Definition char_at (population : string) (i : nat) : string :=
  match String.get i population with
  | Some c => String c EmptyString
  | None => EmptyString
  end.

(** [''.join(random.choices(population, k=k))]: every choice is one draw,
    scaled to an index of the population. *)
Fixpoint random_choices (population : string) (k : nat) : M string :=
  match k with
  | O => ret EmptyString
  | S k' =>
      r <- random_draw ;;
      rest <- random_choices population k' ;;
      ret (char_at population (r mod String.length population) +++ rest)
  end.

(** Line 99. *)
Definition generate_session_hash : M string :=
  random_choices SESSION_HASH_ALPHABET 26.

(** [random.randint(0, 2147483647)] *)
Definition random_seed : M Z :=
  r <- random_draw ;; ret (Z.of_nat r mod 2147483648)%Z.

(** *** Submitting a job, lines 101 to 140 *)

(** Line 102. *)
Definition join_url_of (base_url : string) : string :=
  base_url +++ "/gradio_api/queue/join".

(** Lines 103 to 110. *)
Definition api_payload_of (data_payload : list json) (fn_index : Z)
    (session_hash : string) (trigger_id : option Z) : json :=
  JObj ([("data", JArr data_payload);
         ("event_data", JNull);
         ("fn_index", JInt fn_index);
         ("session_hash", JStr session_hash)]
        ++ match trigger_id with
           | Some t => [("trigger_id", JInt t)]
           | None => []
           end).

Definition call_gradio_api_with_ipv6
    (base_url : string) (fn_index : Z) (data_payload : list json)
    (session_hash : string) (trigger_id : option Z)
    (source_ip : option string) : M json :=
  let join_url := join_url_of base_url in
  let api_payload :=
    api_payload_of data_payload fn_index session_hash trigger_id in
  let s := new_session source_ip in
  (match source_ip with
   | Some ip =>
       if mounts_adapter source_ip
       then print (DebugUsingSourceIp ip base_url)
       else print (DebugDefaultNetwork base_url)
   | None => print (DebugDefaultNetwork base_url)
   end) ;;
  try_except
    (result <- s_post s join_url api_payload ;;
     event_id <- dict_get result "event_id" JNull ;;
     error <- (if Py.truthy event_id then ret JNull
               else dict_get result "error" JNull) ;;
     if negb (Py.truthy event_id) && Py.truthy error then
       error_msg <- dict_get result "error"
                      (JStr "Unknown error from /queue/join.") ;;
       match error_msg with
       | JStr error_msg =>
           if has_resource_keyword error_msg
           then raise (GPUQuotaError
                         ("Server (GPU) resource limit encountered: "
                          +++ PyStr.take 150 error_msg))
           else raise (ValueError ("Error from /queue/join: " +++ error_msg))
       | _ => raise AttributeError
       end
     else if negb (Py.truthy event_id) then
       raise (ValueError "event_id not received from /queue/join.")
     else ret event_id)
    (fun e =>
       match e with
       | Timeout =>
           raise (ConnectionError
                    ("Connection to " +++ base_url
                     +++ " timed out after 90 seconds."))
       | RequestException error_detail =>
           if has_resource_keyword error_detail
           then raise (GPUQuotaError
                         ("Server (GPU) resource limit encountered: "
                          +++ PyStr.take 150 error_detail))
           else raise (ConnectionError
                         ("Error connecting to " +++ base_url +++ ": "
                          +++ PyStr.take 100 error_detail))
       | other => raise other
       end).

(** *** Awaiting a job, lines 142 to 212 *)

Definition set_last_progress_update (t : Z) : M unit :=
  fun st =>
    (Ret tt,
     State (clock st) (posts_sent st) (gets_sent st) (draws_taken st) t,
     []).

Definition get_last_progress_update : M Z :=
  fun st => (Ret (last_progress_update st), st, []).

(** What one pass of the [while] body ends in: the function returns, or
    the loop goes on. *)
Inductive cycle :=
| Returned (data : json)
| Again.

Section Poller.

Variables (base_url session_hash : string) (event_id : json)
          (service_name : string) (source_ip : option string)
          (max_poll_time : Z).

(** Lines 165 to 173. *)
Fixpoint collect_events (events : list string) : M (list json) :=
  match events with
  | [] => ret []
  | event_str :: rest =>
      if PyStr.startswith event_str "data:" then
        match json_loads env (PyStr.strip (PyStr.drop 5 event_str)) with
        | Some event_data =>
            processed <- collect_events rest ;;
            ret (event_data :: processed)
        | None =>
            print (WarningCouldNotDecode event_str) ;;
            collect_events rest
        end
      else collect_events rest
  end.

(** Lines 179 to 187: a [process_completed] record of the awaited job. *)
Definition completed (event_data : json) : M (option json) :=
  success <- dict_get event_data "success" JNull ;;
  data <- (if Py.truthy success then
             output <- dict_get event_data "output" JNull ;;
             if Py.truthy output then dict_get output "data" JNull
             else ret output
           else ret success) ;;
  if Py.truthy data then
    print (DebugCompleted service_name) ;;
    ret (Some data)
  else
    output <- dict_get event_data "output" (JObj []) ;;
    error_msg <- dict_get output "error"
                   (JStr ("Unknown error in " +++ service_name
                          +++ " completion.")) ;;
    match error_msg with
    | JStr error_msg =>
        if has_resource_keyword error_msg
        then raise (GPUQuotaError
                      ("Processing " +++ service_name
                       +++ " failed with resource error: " +++ error_msg))
        else raise (ValueError
                      ("Processing " +++ service_name +++ " failed: "
                       +++ error_msg))
    | _ => raise AttributeError
    end.

(** Lines 176 to 194: [Some data] when the function returns [data]. *)
Fixpoint scan_events (processed_events : list json) : M (option json) :=
  match processed_events with
  | [] => ret None
  | event_data :: rest =>
      id <- dict_get event_data "event_id" JNull ;;
      if Py.eqb id event_id then
        msg <- dict_get event_data "msg" JNull ;;
        if Py.eqb msg (JStr "process_completed") then
          completed event_data
        else if Py.eqb msg (JStr "process_generating") then
          now <- time_time ;;
          last <- get_last_progress_update ;;
          (if (now - last >? 5)%Z then
             print (DebugGenerating service_name) ;;
             now' <- time_time ;;
             set_last_progress_update now'
           else ret tt) ;;
          scan_events rest
        else if Py.eqb msg (JStr "queue_full") then
          raise (GPUQuotaError
                   ("Queue for " +++ service_name +++ " is full."))
        else scan_events rest
      else scan_events rest
  end.

(** Lines 157 to 196: the [try] block of the loop body. *)
Definition poll_once (s : session) (data_url : string) : M cycle :=
  text <- s_get s data_url ;;
  let events := PyStr.split_lines (PyStr.strip text) in
  processed_events <- collect_events events ;;
  found <- scan_events processed_events ;;
  match found with
  | Some data => ret (Returned data)
  | None => time_sleep 2 ;; ret Again
  end.

(** Lines 198 to 210: the three [except] clauses of the loop body. *)
Definition on_poll_failure (e : exn) : M cycle :=
  match e with
  | Timeout =>
      print (WarningPollTimedOut service_name) ;;
      time_sleep 5 ;;
      ret Again
  | RequestException error_detail =>
      if has_resource_keyword error_detail
      then raise (GPUQuotaError
                    ("Polling " +++ service_name
                     +++ " failed with resource error: "
                     +++ PyStr.take 150 error_detail))
      else raise (ConnectionError
                    ("Error during polling " +++ service_name
                     +++ ": " +++ PyStr.take 100 error_detail))
  | other =>
      print (ErrorUnhandledPolling service_name other) ;;
      time_sleep 5 ;;
      ret Again
  end.

(** Lines 156 to 210: the [try] statement of the loop body. *)
Definition poll_cycle (s : session) (data_url : string) : M cycle :=
  try_except (poll_once s data_url) on_poll_failure.

(** Lines 155 and 212: the [while] loop and what follows it. *)
Fixpoint poll_loop (fuel : nat) (s : session) (data_url : string)
    (start_time : Z) : M json :=
  match fuel with
  | O => out_of_fuel
  | S fuel' =>
      now <- time_time ;;
      if (now - start_time <? max_poll_time)%Z then
        c <- poll_cycle s data_url ;;
        match c with
        | Returned data => ret data
        | Again => poll_loop fuel' s data_url start_time
        end
      else
        raise (ConnectionError
                 ("Polling " +++ service_name
                  +++ " stream timed out after "
                  +++ str_of_int max_poll_time
                  +++ " seconds. No completion received."))
  end.

(** Every pass that goes on sleeps at least 2 seconds, so this many
    passes are never all used. *)
Definition poll_fuel : nat := S (Z.to_nat max_poll_time).

Definition poll_gradio_sse_status : M json :=
  let s := new_session source_ip in
  let data_url :=
    base_url +++ "/gradio_api/queue/data?session_hash=" +++ session_hash in
  start_time <- time_time ;;
  now <- time_time ;;
  set_last_progress_update now ;;
  poll_loop poll_fuel s data_url start_time.

End Poller.

(** *** The rotation, lines 216 to 321 *)

Definition max_retries_per_ip : Z := 2.

Definition SUCCESS_MESSAGE : string := "تصویر با موفقیت ساخته شد.".

Definition FAILURE_MESSAGE : string :=
  "تمام تلاش‌ها برای تولید تصویر به دلیل محدودیت‌های سرور یا خطاهای پایدار شکست خوردند.".

(** How the body of the [for] loop leaves: the function returns, the
    loop is broken, or the next pass starts. *)
Inductive leave :=
| Return (value : json)
| Break
| Continue.

Section Run.

Variables (persian_prompt aspect_ratio_key : string).

(** Line 260. *)
Definition prompt_for_image_of (translated_prompt_data : json) : M json :=
  if Py.truthy translated_prompt_data then
    first <- item0 translated_prompt_data ;;
    ret (if Py.truthy first then first else JStr EmptyString)
  else ret (JStr EmptyString).

(** Lines 268 to 276. *)
Definition image_gen_payload_of (prompt_for_image : json) (seed : Z)
  : list json :=
  let dimensions := dimensions_for aspect_ratio_key in
  [prompt_for_image;
   JInt seed;
   JBool DEFAULT_RANDOMIZE_SEED;
   JInt (width dimensions);
   JInt (height dimensions);
   DEFAULT_GUIDANCE_SCALE;
   JInt DEFAULT_INFERENCE_STEPS].

(** Lines 295 to 299. *)
Definition final_image_url_of (image_result_data : json)
  : M (option string) :=
  if Py.truthy image_result_data then
    first <- item0 image_result_data ;;
    if Py.truthy first then
      match first with
      | JObj _ =>
          url <- dict_get first "url" JNull ;;
          if Py.truthy url then
            match url with
            | JStr final_image_url =>
                if PyStr.startswith final_image_url "http"
                then ret (Some final_image_url)
                else ret (Some (IMAGE_GENERATOR_API_BASE_URL
                                +++ final_image_url))
            | _ => raise AttributeError
            end
          else ret None
      | _ => ret None
      end
    else ret None
  else ret None.

(** Lines 242 to 263, the part headed [# 1. Translate Prompt]. *)
Definition translate_prompt (current_source_ip : option string)
    (retry_count : Z) : M json :=
  print (InfoTranslating (retry_count + 1) current_source_ip) ;;
  let translation_payload := JStr persian_prompt :: TRANSLATOR_OTHER_PARAMS in
  translator_session_hash <- generate_session_hash ;;
  translator_event_id <-
    call_gradio_api_with_ipv6 TRANSLATOR_API_BASE_URL TRANSLATOR_FN_INDEX
      translation_payload translator_session_hash None current_source_ip ;;
  translated_prompt_data <-
    poll_gradio_sse_status TRANSLATOR_API_BASE_URL translator_session_hash
      translator_event_id "Translator" current_source_ip 300 ;;
  prompt_for_image <- prompt_for_image_of translated_prompt_data ;;
  if negb (Py.truthy prompt_for_image) then
    raise (ValueError "Failed to get a valid translation.")
  else
    prompt_start <- slice_to 50 prompt_for_image ;;
    print (InfoTranslated prompt_start) ;;
    ret prompt_for_image.

(** Lines 265 to 305, the part headed [# 2. Create Image]. *)
Definition create_image (current_source_ip : option string)
    (retry_count : Z) (prompt_for_image : json) : M json :=
  print (InfoCreating (retry_count + 1) current_source_ip) ;;
  seed <- random_seed ;;
  let image_gen_payload := image_gen_payload_of prompt_for_image seed in
  image_gen_session_hash <- generate_session_hash ;;
  image_gen_event_id <-
    call_gradio_api_with_ipv6 IMAGE_GENERATOR_API_BASE_URL
      IMAGE_GENERATOR_FN_INDEX image_gen_payload image_gen_session_hash
      (Some IMAGE_GENERATOR_TRIGGER_ID) current_source_ip ;;
  image_result_data <-
    poll_gradio_sse_status IMAGE_GENERATOR_API_BASE_URL
      image_gen_session_hash image_gen_event_id "ImageGenerator"
      current_source_ip 300 ;;
  final_image_url <- final_image_url_of image_result_data ;;
  match final_image_url with
  | Some final_image_url =>
      if PyStr.nonempty final_image_url then
        print (SuccessImage final_image_url) ;;
        ret (JObj [("success", JBool true);
                   ("imageUrl", JStr final_image_url);
                   ("message", JStr SUCCESS_MESSAGE)])
      else raise (ValueError
                    "Final image URL not received from Hugging Face.")
  | None =>
      raise (ValueError "Final image URL not received from Hugging Face.")
  end.

(** Lines 242 to 305: the [try] block of one attempt. *)
Definition attempt (current_source_ip : option string) (retry_count : Z)
  : M json :=
  prompt_for_image <- translate_prompt current_source_ip retry_count ;;
  create_image current_source_ip retry_count prompt_for_image.

(** [await asyncio.sleep(seconds)], line 314: the name is looked up,
    then the coroutine sleeps. *)
Definition asyncio_sleep (seconds : Z) : M unit :=
  global_name "asyncio" ;;
  time_sleep seconds.

(** Lines 307 to 318: the two [except] clauses of an attempt. *)
Definition on_failure (current_source_ip : option string)
    (retry_count : Z) (e : exn) : M leave :=
  match e with
  | GPUQuotaError message =>
      print (QuotaErrorWithIp current_source_ip message) ;;
      ret Break
  | e =>
      print (ErrorGeneral current_source_ip (retry_count + 1) e) ;;
      if (retry_count <? max_retries_per_ip - 1)%Z then
        asyncio_sleep 2 ;;
        ret Continue
      else
        print (InfoAllRetriesFailed current_source_ip) ;;
        ret Break
  end.

(** Lines 240 to 318: the [for] loop over the retry counts left. *)
Fixpoint retry_loop (current_source_ip : option string)
    (retry_counts : list Z) : M leave :=
  match retry_counts with
  | [] => ret Continue
  | retry_count :: later =>
      l <- try_except
             (value <- attempt current_source_ip retry_count ;;
              ret (Return value))
             (on_failure current_source_ip retry_count) ;;
      match l with
      | Return value => ret (Return value)
      | Break => ret Break
      | Continue => retry_loop current_source_ip later
      end
  end.

(** Lines 232 to 321: the [while] loop and the final [return]. *)
Fixpoint rotation_loop (available_ips_for_this_run : list (option string))
    (tried_ips_in_this_run : list (option string)) : M json :=
  match available_ips_for_this_run with
  | [] =>
      print ErrorAllFailed ;;
      ret (JObj [("success", JBool false);
                 ("error", JStr FAILURE_MESSAGE)])
  | current_source_ip :: remaining =>
      print (InfoAttemptingWith current_source_ip (length remaining)) ;;
      l <- retry_loop current_source_ip (range max_retries_per_ip) ;;
      match l with
      | Return value => ret value
      | _ => rotation_loop remaining
               (tried_ips_in_this_run ++ [current_source_ip])
      end
  end.

Definition start_full_process_with_ipv6_rotation : M json :=
  let available_ips_for_this_run := map Some (IPV6_ADDRESSES env) in
  available_ips_for_this_run <-
    (match available_ips_for_this_run with
     | [] => print WarningNoAddresses ;; ret [None]
     | _ => ret available_ips_for_this_run
     end) ;;
  rotation_loop available_ips_for_this_run [].

End Run.

End Engine.

(** ** Reading the generator *)

(** The [k] choices made from the draws at positions [pos], [pos + 1],
    and so on. *)
Fixpoint choices_at (draws : nat -> nat) (population : string)
    (k pos : nat) : string :=
  match k with
  | O => EmptyString
  | S k' =>
      char_at population (draws pos mod String.length population)
      +++ choices_at draws population k' (S pos)
  end.

(** The token [generate_session_hash] builds when [pos] draws were taken
    before: it reads the draws [pos] to [pos + 25]. *)
Definition session_hash_at (env : environment) (pos : nat) : string :=
  choices_at (random_draws env) SESSION_HASH_ALPHABET 26 pos.

(** The seed drawn when [pos] draws were taken before. *)
Definition seed_at (env : environment) (pos : nat) : Z :=
  (Z.of_nat (random_draws env pos) mod 2147483648)%Z.

(** A lowercase letter or a digit. *)
Definition is_token_char (c : ascii) : bool :=
  let n := nat_of_ascii c in
  (((97 <=? n) && (n <=? 122)) || ((48 <=? n) && (n <=? 57)))%nat.

(** ** Reading a trace *)

(** The line announces the next address of the rotation, line 238. *)
Definition is_next_address (e : event) : bool :=
  match e with
  | Print (InfoAttemptingWith _ _) => true
  | _ => false
  end.

(** The address a printed line names as the current one, if any. *)
Definition line_address (line : printed) : option (option string) :=
  match line with
  | InfoAttemptingWith ip _ => Some ip
  | InfoTranslating _ ip => Some ip
  | InfoCreating _ ip => Some ip
  | QuotaErrorWithIp ip _ => Some ip
  | ErrorGeneral ip _ _ => Some ip
  | InfoAllRetriesFailed ip => Some ip
  | _ => None
  end.

(** The addresses a run took from its list, in order. *)
Definition addresses_taken (tr : list event) : list (option string) :=
  flat_map (fun e =>
              match e with
              | Print (InfoAttemptingWith ip _) => [ip]
              | _ => []
              end) tr.

(** The attempts a run started, in order: address and attempt number,
    line 243. *)
Definition attempts_started (tr : list event) : list (option string * Z) :=
  flat_map (fun e =>
              match e with
              | Print (InfoTranslating n ip) => [(ip, n)]
              | _ => []
              end) tr.

Definition is_post (e : event) : bool :=
  match e with
  | Post _ _ _ => true
  | _ => false
  end.

(** The submissions of a run, in order: URL and request body. *)
Definition submissions (tr : list event) : list (string * json) :=
  flat_map (fun e =>
              match e with
              | Post url body _ => [(url, body)]
              | _ => []
              end) tr.

(** The event is no request bound to a source address: requests go by
    the default route. *)
Definition default_route (e : event) : Prop :=
  match e with
  | Post _ _ source => source = None
  | Get _ source => source = None
  | _ => True
  end.

(** The [session_hash] a request body carries. *)
Definition session_hash_of (body : json) : option json :=
  match body with
  | JObj fields => dict_lookup fields "session_hash"
  | _ => None
  end.

(** The event belongs to the work on address [ip]: it announces no new
    address, names no other address, and is no request bound to another
    address. *)
Definition on_address (ip : option string) (e : event) : Prop :=
  match e with
  | Print line =>
      is_next_address e = false /\
      (line_address line = None \/ line_address line = Some ip)
  | Post _ _ source => source = None \/ source = ip
  | Get _ source => source = None \/ source = ip
  | Sleep _ => True
  end.


(** ** The poll stream in the words of the specification *)

(** A record prefixed as a data record, and what is left to decode. *)
Definition data_record (line : string) : option string :=
  if PyStr.startswith line "data:"
  then Some (PyStr.strip (PyStr.drop 5 line))
  else None.

(** A data record that fails to decode. *)
Definition malformed (env : environment) (line : string) : bool :=
  match data_record line with
  | Some text =>
      match json_loads env text with
      | Some _ => false
      | None => true
      end
  | None => false
  end.

(** The records of a response that decode, in order. *)
Definition spec_decoded (env : environment) (lines : list string) : list json :=
  flat_map (fun line =>
              match data_record line with
              | Some text =>
                  match json_loads env text with
                  | Some record => [record]
                  | None => []
                  end
              | None => []
              end) lines.

(** A line that yields no record: not a data record, or a malformed one. *)
Definition yields_nothing (env : environment) (line : string) : Prop :=
  spec_decoded env [line] = [].

(** A [process_completed] record of the awaited job with a true success
    flag and an output whose data is present. *)
Definition successful_completion (event_id record data : json) : Prop :=
  exists fields id success out_fields,
    record = JObj fields /\
    dict_lookup fields "event_id" = Some id /\
    Py.eqb id event_id = true /\
    dict_lookup fields "msg" = Some (JStr "process_completed") /\
    dict_lookup fields "success" = Some success /\
    Py.truthy success = true /\
    dict_lookup fields "output" = Some (JObj out_fields) /\
    dict_lookup out_fields "data" = Some data /\
    Py.truthy data = true.

(** A [queue_full] record of the awaited job. *)
Definition queue_full_record (event_id record : json) : Prop :=
  exists fields id,
    record = JObj fields /\
    dict_lookup fields "event_id" = Some id /\
    Py.eqb id event_id = true /\
    dict_lookup fields "msg" = Some (JStr "queue_full").

(** ** Sample worlds *)

Module Sample.

Definition quoted (s : string) : string :=
  String (ascii_of_nat 34) (s +++ String (ascii_of_nat 34) EmptyString).

Definition line_feed : string := String PyStr.newline EmptyString.

(** The JSON object with event_id e1 and msg queue_full. *)
Definition queue_full_text : string :=
  "{" +++ quoted "event_id" +++ ": " +++ quoted "e1" +++ ", "
  +++ quoted "msg" +++ ": " +++ quoted "queue_full" +++ "}".

(** The JSON object with event_id e1, msg process_completed, success
    true and an output whose data is the list of the one string a cat. *)
Definition completed_text : string :=
  "{" +++ quoted "event_id" +++ ": " +++ quoted "e1" +++ ", "
  +++ quoted "msg" +++ ": " +++ quoted "process_completed" +++ ", "
  +++ quoted "success" +++ ": true, "
  +++ quoted "output" +++ ": {" +++ quoted "data" +++ ": ["
  +++ quoted "a cat" +++ "]}}".

(** The start of a JSON object, cut inside the string of its msg. *)
Definition truncated_text : string :=
  "{" +++ quoted "event_id" +++ ": " +++ quoted "e1" +++ ", "
  +++ quoted "msg" +++ ": " +++ String (ascii_of_nat 34) "process_gen".

Definition queue_full_record : json :=
  JObj [("event_id", JStr "e1"); ("msg", JStr "queue_full")].

Definition completed_record : json :=
  JObj [("event_id", JStr "e1");
        ("msg", JStr "process_completed");
        ("success", JBool true);
        ("output", JObj [("data", JArr [JStr "a cat"])])].

(** [json.loads] on the sample texts: the two complete objects decode,
    the truncated one does not. *)
Definition json_loads (text : string) : option json :=
  if String.eqb text queue_full_text then Some queue_full_record
  else if String.eqb text completed_text then Some completed_record
  else None.

Definition start : state := State 1000 0 0 0 0.

Definition accepted (event_id : string) : exchange json :=
  Exchange 1 (Replied (JObj [("event_id", JStr event_id)])).

(** One address; every POST fails with a connection reset. *)
Definition reset_env : environment :=
  Environment json_loads ["2001:db8::1"]
    (fun _ => Exchange 1
              (Failed "('Connection aborted.', ConnectionResetError(104, 'Connection reset by peer'))"))
    (fun _ => Exchange 1 (Replied EmptyString))
    (fun k => k).

(** Every poll answers that the queue of job [e1] is full. *)
Definition queue_full_env : environment :=
  Environment json_loads ["2001:db8::1"]
    (fun _ => accepted "e1")
    (fun _ => Exchange 1 (Replied ("data: " +++ queue_full_text)))
    (fun k => k).

(** A poll answers with a malformed record and then a completion. *)
Definition mixed_env : environment :=
  Environment json_loads ["2001:db8::1"]
    (fun _ => accepted "e1")
    (fun _ => Exchange 1
                (Replied ("data: " +++ truncated_text +++ line_feed
                          +++ "data: " +++ completed_text +++ line_feed)))
    (fun k => k).

(** Two addresses; the first POST is refused for quota, the later ones
    are accepted. *)
Definition quota_env : environment :=
  Environment json_loads ["2001:db8::1"; "2001:db8::2"]
    (fun k => match k with
              | O => Exchange 1 (Replied (JObj [("error", JStr "GPU quota exceeded")]))
              | _ => accepted "e1"
              end)
    (fun _ => Exchange 1 (Replied ("data: " +++ completed_text)))
    (fun k => k).

(** No address was loaded. *)
Definition no_address_env : environment :=
  Environment json_loads []
    (fun _ => accepted "e1")
    (fun _ => Exchange 1 (Replied ("data: " +++ completed_text)))
    (fun k => k).

End Sample.

(** ** Properties of computations *)

(** Running [m] relates the states before and after by [R], and every
    event it leaves satisfies [P]. *)
Definition respects (R : state -> state -> Prop) (P : event -> Prop)
    {A} (m : M A) : Prop :=
  forall w r w' tr, m w = (r, w', tr) -> R w w' /\ Forall P tr.

(** A computation that neither changes the state nor leaves an event. *)
Definition quiet {A} (m : M A) : Prop :=
  forall w r w' tr, m w = (r, w', tr) -> w' = w /\ tr = [].

(** A computation that takes no random draw and submits nothing. *)
Definition same_draws (a b : state) : Prop := draws_taken b = draws_taken a.

Definition no_post (e : event) : Prop := is_post e = false.

Definition keeps {A} (m : M A) : Prop := respects same_draws no_post m.

(** A computation that never uses up the fuel of the poll loop. *)
Definition finishes {A} (m : M A) : Prop :=
  forall w, outcome_of (m w) <> OutOfFuel.

(** The clock does not run backwards. *)
Definition later (a b : state) : Prop := (clock a <= clock b)%Z.

(** ** The submissions of an attempt *)

(** The translate submission made when [pos] draws were taken before: its
    token reads the draws from [pos] on. *)
Definition translate_submission (env : environment)
    (persian_prompt : string) (pos : nat) : string * json :=
  (join_url_of TRANSLATOR_API_BASE_URL,
   api_payload_of (JStr persian_prompt :: TRANSLATOR_OTHER_PARAMS)
     TRANSLATOR_FN_INDEX (session_hash_at env pos) None).

(** The render submission made when [pos] draws were taken before: the
    seed is draw [pos], the token reads the draws after it. *)
Definition render_submission (env : environment)
    (aspect_ratio_key : string) (prompt_for_image : json) (pos : nat)
  : string * json :=
  (join_url_of IMAGE_GENERATOR_API_BASE_URL,
   api_payload_of
     (image_gen_payload_of aspect_ratio_key prompt_for_image
        (seed_at env pos))
     IMAGE_GENERATOR_FN_INDEX (session_hash_at env (S pos))
     (Some IMAGE_GENERATOR_TRIGGER_ID)).

(** ** Loading the address list, lines 50 to 63 *)

Definition IPV6_LIST_FILE : string := "/app/ipv6_ips.txt".

Definition carriage_return : ascii := ascii_of_nat 13.

(** What [open(IPV6_LIST_FILE, 'r')] and the reading of its lines raise
    when the file exists and cannot be read or decoded. *)
Inductive read_error :=
| OSError
| UnicodeDecodeError.

(** The list file as the call finds it: [os.path.exists] is false, or
    the file exists and reading it raises, or it is read: [text] is its
    content as decoded, before the line ends are translated. *)
Inductive file_state :=
| NoSuchFile
| Unreadable (e : read_error)
| Content (text : string).

(** Text mode reads with universal newlines: a carriage return with a
    line feed after it, and a carriage return alone, are read as one line
    feed. *)
Fixpoint universal_newlines (text : string) : string :=
  match text with
  | EmptyString => EmptyString
  | String c r =>
      if Ascii.eqb c carriage_return then
        match r with
        | String d r' =>
            if Ascii.eqb d PyStr.newline
            then String PyStr.newline (universal_newlines r')
            else String PyStr.newline (universal_newlines r)
        | EmptyString => String PyStr.newline EmptyString
        end
      else String c (universal_newlines r)
  end.

(** [for line in f] on the text as read: its lines, each with its line
    feed, the last one perhaps without. *)
Fixpoint file_lines (text : string) : list string :=
  match text with
  | EmptyString => []
  | String c r =>
      if Ascii.eqb c PyStr.newline then String c EmptyString :: file_lines r
      else match file_lines r with
           | first :: others => String c first :: others
           | [] => [String c EmptyString]
           end
  end.

(** [l[i] = x] for an index of the list. *)
Fixpoint list_set {A} (i : nat) (x : A) (l : list A) : list A :=
  match l, i with
  | [], _ => []
  | _ :: t, O => x :: t
  | h :: t, S k => h :: list_set k x t
  end.

(** [x[i], x[j] = x[j], x[i]] for two indices of the list: the right side
    is read first, then [x[i]] and [x[j]] are assigned in this order. *)
Definition swap {A} (i j : nat) (x : list A) : list A :=
  match nth_error x j, nth_error x i with
  | Some xj, Some xi => list_set j xi (list_set i xj x)
  | _, _ => x
  end.

(** What startup prints. *)
Inductive startup_printed :=
| LoadedAddresses (count : nat) (file : string)
| WarningFileNotFound (file : string)
| CriticalNoAddresses.

(** Line 345: the text before the exception in the message. *)
Definition INTERNAL_ERROR_PREFIX : string := "خطای داخلی سرور: ".

(** What the endpoint answers: [JSONResponse(status_code, content)], and
    for line 345 [JSONResponse(status_code, content={"message":
    f"{message_prefix}{e}"})], the exception kept as a value as in the
    printed lines. *)
Inductive endpoint_reply :=
| JSONResponse (status_code : Z) (content : json)
| JSONResponseMessage (status_code : Z) (message_prefix : string) (e : exn).

Record GenerateImageRequest := Request {
  prompt : string;
  aspectRatioKey : string
}.

Section Startup.

Variable env : environment.

(** The loop of [random.shuffle]: [for i in reversed(range(1, len(x)))],
    with [j = randbelow(i + 1)], one draw scaled to an index as in
    [random_choices], and the swap of [x[i]] and [x[j]]. *)
Fixpoint shuffle_down {A} (i : nat) (x : list A) : M (list A) :=
  match i with
  | O => ret x
  | S i' =>
      r <- random_draw env ;;
      shuffle_down i' (swap i (r mod S i) x)
  end.

(** [random.shuffle(x)] *)
Definition random_shuffle {A} (x : list A) : M (list A) :=
  shuffle_down (length x - 1) x.

(** Line 55: [[line.strip() for line in f if line.strip()]], for the
    content [text] of the file. *)
Definition stripped_lines (text : string) : list string :=
  flat_map (fun line =>
              if PyStr.nonempty (PyStr.strip line)
              then [PyStr.strip line] else [])
           (file_lines (universal_newlines text)).

(** [load_ipv6_addresses()]: [file] is the list file as the call finds it,
    [previous] the value of [IPV6_ADDRESSES] before the call.  [inr] holds
    the new value of [IPV6_ADDRESSES] and what was printed; [inl e] says
    that the call raised [e], which happens before line 55 assigns and
    before anything is printed, so [IPV6_ADDRESSES] is as before.  The
    global [current_ipv6_index], which line 59 resets, is read nowhere. *)
Definition load_ipv6_addresses (file : file_state)
    (previous : list string)
  : M (read_error + list string * list startup_printed) :=
  loaded <-
    match file with
    | Content text =>
        let addresses := stripped_lines text in
        shuffled <- random_shuffle addresses ;;
        ret (inr (shuffled,
                  [LoadedAddresses (length addresses) IPV6_LIST_FILE]))
    | Unreadable e => ret (inl e)
    | NoSuchFile =>
        ret (inr (previous, [WarningFileNotFound IPV6_LIST_FILE]))
    end ;;
  match loaded with
  | inl e => ret (inl e)
  | inr (addresses, lines) =>
      match addresses with
      | [] => ret (inr (addresses, lines ++ [CriticalNoAddresses]))
      | _ => ret (inr (addresses, lines))
      end
  end.

(** [d[key]] for a string key; only a dict takes one. *)
Definition getitem (d : json) (key : string) : M json :=
  match d with
  | JObj fields =>
      match dict_lookup fields key with
      | Some v => ret v
      | None => raise KeyError
      end
  | _ => raise TypeError
  end.

(** Lines 334 to 345. *)
Definition generate_image_endpoint (request : GenerateImageRequest)
  : M endpoint_reply :=
  try_except
    (result <- start_full_process_with_ipv6_rotation env
                 (prompt request) (aspectRatioKey request) ;;
     success <- getitem result "success" ;;
     if Py.truthy success then ret (JSONResponse 200 result)
     else
       error <- getitem result "error" ;;
       ret (JSONResponse 500 (JObj [("message", error)])))
    (fun e =>
       print (CriticalErrorInEndpoint e) ;;
       ret (JSONResponseMessage 500 INTERNAL_ERROR_PREFIX e)).

End Startup.

(** ** Predicates of the further properties *)

(** A line of a text has no line feed but perhaps as its last character. *)
Fixpoint line_shaped (s : string) : Prop :=
  match s with
  | EmptyString => True
  | String c EmptyString => True
  | String c r => c <> PyStr.newline /\ line_shaped r
  end.

Definition no_line_feed (s : string) : Prop :=
  ~ In PyStr.newline (list_ascii_of_string s).

Definition no_carriage_return (s : string) : Prop :=
  ~ In carriage_return (list_ascii_of_string s).

(** An address as the loader keeps it: not empty, with no whitespace at
    either end, and with no line end of any kind inside. *)
Definition clean_address (a : string) : Prop :=
  a <> EmptyString /\ PyStr.strip a = a /\ no_line_feed a
  /\ no_carriage_return a.


(** The entry of a reply is missing or falsy: [not result.get(key)]. *)
Definition falsy_entry (fields : list (string * json)) (key : string)
  : Prop :=
  match dict_lookup fields key with
  | Some v => Py.truthy v = false
  | None => True
  end.

Definition is_dict (v : json) : bool :=
  match v with
  | JObj _ => true
  | _ => false
  end.

(** The source address a request is bound to. *)
Definition source_of (e : event) : option string :=
  match e with
  | Post _ _ source => source
  | Get _ source => source
  | _ => None
  end.

(** A request goes by the default route or from an address of the list. *)
Definition listed_source (env : environment) (e : event) : Prop :=
  match source_of e with
  | Some a => a <> EmptyString /\ In a (IPV6_ADDRESSES env)
  | None => True
  end.

Module Example.

(** The reply to every POST holds an event id and an error. *)
Definition both_env : environment :=
  Environment Sample.json_loads ["2001:db8::1"]
    (fun _ => Exchange 1
                (Replied (JObj [("event_id", JStr "e7");
                                ("error", JStr "GPU quota exceeded")])))
    (fun _ => Exchange 1 (Replied EmptyString))
    (fun k => k).

(** The reply to every POST is an empty JSON object. *)
Definition empty_reply_env : environment :=
  Environment Sample.json_loads ["2001:db8::1"]
    (fun _ => Exchange 1 (Replied (JObj [])))
    (fun _ => Exchange 1 (Replied EmptyString))
    (fun k => k).

(** The reply to every POST is a JSON array. *)
Definition array_reply_env : environment :=
  Environment Sample.json_loads ["2001:db8::1"]
    (fun _ => Exchange 1 (Replied (JArr [JStr "e7"])))
    (fun _ => Exchange 1 (Replied EmptyString))
    (fun k => k).

(** Every poll is refused with HTTP status 429. *)
Definition refused_poll_env : environment :=
  Environment Sample.json_loads ["2001:db8::1"]
    (fun _ => Sample.accepted "e1")
    (fun _ => Exchange 1
                (Failed "429 Client Error: Too Many Requests for url: https://b"))
    (fun k => k).

(** The first poll times out, the second one brings the completion. *)
Definition slow_poll_env : environment :=
  Environment Sample.json_loads ["2001:db8::1"]
    (fun _ => Sample.accepted "e1")
    (fun k => match k with
              | O => Exchange 30 TimedOut
              | _ => Exchange 1
                       (Replied ("data: " +++ Sample.completed_text))
              end)
    (fun k => k).

(** The JSON object of a completed render of job e1, whose output is
    the list of one file with a relative URL. *)
Definition image_text : string :=
  "{" +++ Sample.quoted "event_id" +++ ": " +++ Sample.quoted "e1" +++ ", "
  +++ Sample.quoted "msg" +++ ": " +++ Sample.quoted "process_completed"
  +++ ", " +++ Sample.quoted "success" +++ ": true, "
  +++ Sample.quoted "output" +++ ": {" +++ Sample.quoted "data" +++ ": [{"
  +++ Sample.quoted "url" +++ ": " +++ Sample.quoted "/file=out.png"
  +++ "}]}}".

Definition image_record : json :=
  JObj [("event_id", JStr "e1");
        ("msg", JStr "process_completed");
        ("success", JBool true);
        ("output", JObj [("data", JArr [JObj [("url", JStr "/file=out.png")]])])].

(** The JSON object of a failed completion of job e1. *)
Definition failed_text : string :=
  "{" +++ Sample.quoted "event_id" +++ ": " +++ Sample.quoted "e1" +++ ", "
  +++ Sample.quoted "msg" +++ ": " +++ Sample.quoted "process_completed"
  +++ ", " +++ Sample.quoted "success" +++ ": false, "
  +++ Sample.quoted "output" +++ ": {" +++ Sample.quoted "error" +++ ": "
  +++ Sample.quoted "NSFW content detected" +++ "}}".

Definition failed_record : json :=
  JObj [("event_id", JStr "e1");
        ("msg", JStr "process_completed");
        ("success", JBool false);
        ("output", JObj [("error", JStr "NSFW content detected")])].

Definition json_loads (text : string) : option json :=
  if String.eqb text image_text then Some image_record
  else if String.eqb text failed_text then Some failed_record
  else Sample.json_loads text.

(** Every poll brings the failed completion. *)
Definition failed_env : environment :=
  Environment json_loads ["2001:db8::1"]
    (fun _ => Sample.accepted "e1")
    (fun _ => Exchange 1 (Replied ("data: " +++ failed_text)))
    (fun k => k).

(** Two addresses; the first submission is refused for quota, the later
    ones are accepted; the first poll brings the translation and the later
    ones the rendered file. *)
Definition recover_env : environment :=
  Environment json_loads ["2001:db8::1"; "2001:db8::2"]
    (fun k => match k with
              | O => Exchange 1
                       (Replied (JObj [("error", JStr "GPU quota exceeded")]))
              | _ => Sample.accepted "e1"
              end)
    (fun k => match k with
              | O => Exchange 1 (Replied ("data: " +++ Sample.completed_text))
              | _ => Exchange 1 (Replied ("data: " +++ image_text))
              end)
    (fun k => k).

(** Two addresses; every submission is accepted, the first poll brings
    the translation and the later ones the rendered file. *)
Definition success_env : environment :=
  Environment json_loads ["2001:db8::1"; "2001:db8::2"]
    (fun _ => Sample.accepted "e1")
    (fun k => match k with
              | O => Exchange 1 (Replied ("data: " +++ Sample.completed_text))
              | _ => Exchange 1 (Replied ("data: " +++ image_text))
              end)
    (fun k => k).

(** Two addresses; every submission is refused with HTTP status 429. *)
Definition rate_limited_env : environment :=
  Environment Sample.json_loads ["2001:db8::1"; "2001:db8::2"]
    (fun _ => Exchange 1
                (Failed "429 Client Error: Too Many Requests for url: https://b"))
    (fun _ => Exchange 1 (Replied EmptyString))
    (fun k => k).


End Example.

Definition is_get (e : event) : bool :=
  match e with
  | Get _ _ => true
  | _ => false
  end.

Definition not_get (e : event) : Prop := is_get e = false.

(** How many polls a run sent. *)
Definition polls (tr : list event) : nat := length (filter is_get tr).

(** The errors of lines 204 to 207 and of line 212. *)
Definition poll_failure (service_name : string) (e : exn) : Prop :=
  match e with
  | ConnectionError _ => True
  | GPUQuotaError message =>
      exists detail,
        message = "Polling " +++ service_name
                  +++ " failed with resource error: " +++ detail
  | _ => False
  end.

(** A record of another job: a JSON object whose event id is not the
    awaited one. *)
Definition other_job (event_id record : json) : Prop :=
  exists fields,
    record = JObj fields /\
    Py.eqb (match dict_lookup fields "event_id" with
            | Some id => id
            | None => JNull
            end) event_id = false.

(** The two dicts a run returns, lines 303 and 321. *)
Definition success_record (url : string) : json :=
  JObj [("success", JBool true);
        ("imageUrl", JStr url);
        ("message", JStr SUCCESS_MESSAGE)].

Definition failure_record : json :=
  JObj [("success", JBool false); ("error", JStr FAILURE_MESSAGE)].

(** A success record whose URL is an absolute one. *)
Definition absolute_success (v : json) : Prop :=
  exists url,
    v = success_record url /\ PyStr.startswith url "http" = true.

(** How a run may end. *)
Definition run_outcome (r : result json) : Prop :=
  match r with
  | Ret v => absolute_success v \/ v = failure_record
  | Raise e => e = NameError "asyncio"
  | OutOfFuel => False
  end.

(** How the endpoint may answer. *)
Definition endpoint_answer (reply : endpoint_reply) : Prop :=
  match reply with
  | JSONResponse status_code content =>
      (status_code = 200%Z /\ absolute_success content)
      \/ (status_code = 500%Z
          /\ content = JObj [("message", JStr FAILURE_MESSAGE)])
  | JSONResponseMessage status_code message_prefix e =>
      status_code = 500%Z /\ message_prefix = INTERNAL_ERROR_PREFIX
      /\ e = NameError "asyncio"
  end.

(** Every submission fails in transport with a detail that names a
    resource keyword, as an HTTP status 429 does. *)
Definition every_post_refused (env : environment) : Prop :=
  forall k, exists detail,
    outcome (post_replies env k) = Failed detail
    /\ has_resource_keyword detail = true.

(** The entries of the list a run works through, lines 224 to 227. *)
Definition entries_of_run (env : environment) : list (option string) :=
  match IPV6_ADDRESSES env with
  | [] => [None]
  | addresses => map Some addresses
  end.

(** What a segment of the trace adds to the counts of a run. *)
Definition adds (tr : list event) (taken : list (option string))
    (submitted polled : nat) : Prop :=
  addresses_taken tr = taken
  /\ length (submissions tr) = submitted
  /\ polls tr = polled.

(** A [process_completed] record of the awaited job that reports no
    success and carries an error text in its output. *)
Definition failed_completion (event_id record : json) (error_msg : string)
  : Prop :=
  exists fields id out_fields,
    record = JObj fields /\
    dict_lookup fields "event_id" = Some id /\
    Py.eqb id event_id = true /\
    dict_lookup fields "msg" = Some (JStr "process_completed") /\
    falsy_entry fields "success" /\
    dict_lookup fields "output" = Some (JObj out_fields) /\
    dict_lookup out_fields "error" = Some (JStr error_msg).

(** The error of lines 186 and 187 for an error text. *)
Definition completion_error (service_name error_msg : string) : exn :=
  match classify error_msg with
  | ResourceExhausted =>
      GPUQuotaError ("Processing " +++ service_name
                     +++ " failed with resource error: " +++ error_msg)
  | Other =>
      ValueError ("Processing " +++ service_name +++ " failed: "
                  +++ error_msg)
  end.




(** * Properties *)

(** ** Text *)

Section TextFacts.

Local Open Scope string_scope.

Lemma startswith_append (p rest : string) :
  PyStr.startswith (p ++ rest) p = true.
Proof.
  induction p as [|c p IH]; simpl; [reflexivity|].
  now rewrite Ascii.eqb_refl, IH.
Qed.

Lemma startswith_split (s p : string) :
  PyStr.startswith s p = true -> exists rest, s = p ++ rest.
Proof.
  revert s; induction p as [|c p IH]; intros s H.
  - now exists s.
  - destruct s as [|d s]; simpl in H; [discriminate|].
    apply andb_true_iff in H as [Hc Hp].
    apply Ascii.eqb_eq in Hc; subst d.
    destruct (IH _ Hp) as [rest ->]. now exists rest.
Qed.

Lemma contains_unfold (kw s : string) :
  PyStr.contains kw s =
  PyStr.startswith s kw ||
  match s with
  | EmptyString => false
  | String _ r => PyStr.contains kw r
  end.
Proof. destruct s; reflexivity. Qed.

(** [contains] is Python's substring test. *)
Lemma contains_iff (kw s : string) :
  PyStr.contains kw s = true <->
  exists before after, s = before ++ kw ++ after.
Proof.
  split.
  - induction s as [|c s IH]; simpl; intros H.
    + rewrite orb_false_r in H.
      destruct (startswith_split _ _ H) as [rest E].
      exists EmptyString, rest. exact E.
    + apply orb_true_iff in H as [H|H].
      * destruct (startswith_split _ _ H) as [rest E].
        exists EmptyString, rest. exact E.
      * destruct (IH H) as (b & a & ->).
        now exists (String c b), a.
  - intros (b & a & ->).
    induction b as [|c b IH].
    + change (EmptyString ++ kw ++ a) with (kw ++ a).
      rewrite contains_unfold, startswith_append. reflexivity.
    + change (String c b ++ kw ++ a) with (String c (b ++ kw ++ a)).
      rewrite contains_unfold, IH. apply orb_true_r.
Qed.

Lemma lower_append (a b : string) :
  PyStr.lower (a ++ b) = PyStr.lower a ++ PyStr.lower b.
Proof. induction a as [|c a IH]; simpl; [reflexivity|now rewrite IH]. Qed.

Lemma lower_split (t x y : string) :
  PyStr.lower t = x ++ y ->
  exists a b, t = a ++ b /\ PyStr.lower a = x /\ PyStr.lower b = y.
Proof.
  revert t; induction x as [|c x IH]; intros t H.
  - exists EmptyString, t. auto.
  - destruct t as [|d t]; simpl in H; [discriminate|].
    injection H as Hc Ht.
    destruct (IH _ Ht) as (a & b & -> & Ha & Hb).
    exists (String d a), b. simpl. now rewrite Hc, Ha.
Qed.

Lemma lower_char_idempotent (c : ascii) :
  PyStr.lower_char (PyStr.lower_char c) = PyStr.lower_char c.
Proof.
  destruct c as [[] [] [] [] [] [] [] []]; reflexivity.
Qed.

Lemma lower_idempotent (s : string) :
  PyStr.lower (PyStr.lower s) = PyStr.lower s.
Proof.
  induction s as [|c s IH]; simpl; [reflexivity|].
  now rewrite lower_char_idempotent, IH.
Qed.

Lemma take_length (n : nat) (s : string) :
  String.length (PyStr.take n s) <= n.
Proof.
  revert s; induction n as [|n IH]; intros [|c s]; simpl; try lia.
  specialize (IH s). lia.
Qed.

(** Every keyword is written in lower case. *)
Lemma keywords_lower (kw : string) :
  In kw RESOURCE_KEYWORDS -> PyStr.lower kw = kw.
Proof.
  unfold RESOURCE_KEYWORDS; simpl.
  intuition (subst; reflexivity).
Qed.

End TextFacts.

(** ** The classifier *)

Lemma has_resource_keyword_iff (text : string) :
  has_resource_keyword text = true <-> spec_resource_exhausted text.
Proof.
  unfold has_resource_keyword, spec_resource_exhausted, same_ignoring_case.
  rewrite existsb_exists. split.
  - intros (kw & Hkw & Hc).
    apply contains_iff in Hc as (x & y & E).
    apply lower_split in E as (before & rest & -> & _ & E).
    apply lower_split in E as (found & after & -> & Hf & _).
    exists kw, before, found, after.
    rewrite (keywords_lower _ Hkw). auto.
  - intros (kw & before & found & after & Hkw & -> & Hf).
    exists kw. split; [exact Hkw|].
    apply contains_iff.
    exists (PyStr.lower before), (PyStr.lower after).
    now rewrite !lower_append, Hf, (keywords_lower _ Hkw).
Qed.

Section CaseFacts.

(** Takes the comparisons of a goal apart. *)
Ltac compare_all :=
  repeat match goal with
         | H : context [(?x <=? ?y)%nat] |- _ =>
             destruct (Nat.leb_spec x y)
         | H : context [(?x =? ?y)%nat] |- _ =>
             destruct (Nat.eqb_spec x y)
         | |- context [(?x <=? ?y)%nat] => destruct (Nat.leb_spec x y)
         | |- context [(?x =? ?y)%nat] => destruct (Nat.eqb_spec x y)
         end;
  cbn [andb orb negb] in *.

Lemma nat_of_ascii_small (c : ascii) : nat_of_ascii c < 256.
Proof. apply nat_ascii_bounded. Qed.

(** The code's [str.lower] sends the two characters of one letter to the
    same character. *)
Lemma lower_char_same_letter (a b : ascii) :
  same_letter a b -> PyStr.lower_char a = PyStr.lower_char b.
Proof.
  assert (Hup : forall x y,
             is_capital x = true ->
             nat_of_ascii y = nat_of_ascii x + 32 ->
             PyStr.lower_char x = PyStr.lower_char y).
  { intros x y Hx Hy. unfold PyStr.lower_char, is_capital in *.
    rewrite Hx. rewrite Hy.
    pose proof (nat_of_ascii_small y) as Hsmall.
    assert (Hlow : (((65 <=? nat_of_ascii x + 32)
                     && (nat_of_ascii x + 32 <=? 90))
                    || ((192 <=? nat_of_ascii x + 32)
                        && (nat_of_ascii x + 32 <=? 222)
                        && negb (nat_of_ascii x + 32 =? 215)))%nat = false).
    { revert Hx. generalize (nat_of_ascii x). intros n Hx.
      compare_all; try reflexivity; try discriminate Hx; lia. }
    rewrite Hlow. rewrite <- Hy. now rewrite ascii_nat_embedding. }
  intros [->|[[Ha Hb]|[Hb Ha]]]; [reflexivity|now apply Hup|].
  symmetry. now apply Hup.
Qed.

Lemma lower_equal_ignoring_case (a b : string) :
  equal_ignoring_case a b -> PyStr.lower a = PyStr.lower b.
Proof.
  revert b. induction a as [|x a IH]; intros [|y b] H;
    try reflexivity; try (now destruct H).
  destruct H as [Hxy Hab]. cbn [PyStr.lower].
  now rewrite (lower_char_same_letter _ _ Hxy), (IH _ Hab).
Qed.

(** A character that the code's [str.lower] sends to a space or to a
    small letter [a-z] is that character or its capital. *)
Lemma lower_char_plain (f k : ascii) :
  is_plain k = true -> PyStr.lower_char f = k -> same_letter f k.
Proof.
  unfold is_plain, PyStr.lower_char, same_letter, is_capital.
  intros Hk Hf.
  pose proof (nat_of_ascii_small f) as Hsmall.
  destruct (((65 <=? nat_of_ascii f) && (nat_of_ascii f <=? 90))
            || ((192 <=? nat_of_ascii f) && (nat_of_ascii f <=? 222)
                && negb (nat_of_ascii f =? 215)))%nat eqn:Hcap.
  - right. left. split; [reflexivity|].
    assert (Hn : nat_of_ascii k = nat_of_ascii f + 32).
    { rewrite <- Hf. apply nat_ascii_embedding.
      revert Hcap. generalize (nat_of_ascii f). intros n Hcap.
      compare_all; try discriminate Hcap; lia. }
    exact Hn.
  - left. exact Hf.
Qed.

Lemma lower_plain (found kw : string) :
  forallb is_plain (list_ascii_of_string kw) = true ->
  PyStr.lower found = kw ->
  equal_ignoring_case found kw.
Proof.
  revert kw. induction found as [|f found IH]; intros [|k kw] Hplain H;
    try exact I; try discriminate H.
  cbn [PyStr.lower] in H. injection H as Hf Hrest.
  cbn [list_ascii_of_string forallb] in Hplain.
  apply andb_true_iff in Hplain as [Hk Hkw].
  split; [now apply lower_char_plain|now apply IH].
Qed.

(** Every keyword is made of spaces and small letters. *)
Lemma keywords_plain (kw : string) :
  In kw RESOURCE_KEYWORDS ->
  forallb is_plain (list_ascii_of_string kw) = true.
Proof.
  unfold RESOURCE_KEYWORDS; simpl.
  intuition (subst; reflexivity).
Qed.

(** The test of the code and the words of the specification agree. *)
Lemma has_resource_keyword_spec (text : string) :
  has_resource_keyword text = true <-> spec_keyword_occurs text.
Proof.
  rewrite has_resource_keyword_iff.
  unfold spec_resource_exhausted, spec_keyword_occurs, same_ignoring_case.
  split; intros (kw & before & found & after & Hkw & Htext & Hsame);
    exists kw, before, found, after; (split; [exact Hkw|]);
    (split; [exact Htext|]).
  - rewrite (keywords_lower _ Hkw) in Hsame.
    exact (lower_plain _ _ (keywords_plain _ Hkw) Hsame).
  - exact (lower_equal_ignoring_case _ _ Hsame).
Qed.

End CaseFacts.

(** C9.  The category is a function of the error text alone, with no
    state and no effect.  It is [ResourceExhausted] exactly when one of
    the fixed keywords occurs in the text at some offset, letter case
    ignored, and [Other] otherwise, where ignoring the case is said
    without the code's [str.lower]: a capital and its small letter count as
    the same character.  Two texts that differ in letter case only have
    the same category. *)
Theorem classify_is_case_insensitive_keyword_match (text : string) :
  (classify text = ResourceExhausted <-> spec_keyword_occurs text) /\
  (classify text = Other <-> ~ spec_keyword_occurs text) /\
  (forall other, equal_ignoring_case text other ->
                 classify other = classify text).
Proof.
  unfold classify. split; [|split].
  - rewrite <- has_resource_keyword_spec.
    destruct (has_resource_keyword text); split; congruence.
  - rewrite <- has_resource_keyword_spec.
    destruct (has_resource_keyword text); split; congruence.
  - intros other Hsame. unfold has_resource_keyword.
    now rewrite (lower_equal_ignoring_case _ _ Hsame).
Qed.

(** ** Running a computation *)

Lemma bind_cases {A B} (m : M A) (f : A -> M B) w r w' tr :
  bind m f w = (r, w', tr) ->
  (exists a w1 t1 t2,
      m w = (Ret a, w1, t1) /\ f a w1 = (r, w', t2) /\ tr = t1 ++ t2)
  \/ (exists e, m w = (Raise e, w', tr) /\ r = Raise e)
  \/ (m w = (OutOfFuel, w', tr) /\ r = OutOfFuel).
Proof.
  unfold bind. destruct (m w) as [[[a|e|] w1] t1].
  - destruct (f a w1) as [[r2 w2] t2] eqn:E. intros [= <- <- <-].
    left. now exists a, w1, t1, t2.
  - intros [= <- <- <-]. right; left. now exists e.
  - intros [= <- <- <-]. right; right. auto.
Qed.

Ltac bind_inv H :=
  let a := fresh "a" in
  let w1 := fresh "w" in
  let t1 := fresh "t" in
  let t2 := fresh "t" in
  let E1 := fresh "E" in
  let e := fresh "e" in
  apply bind_cases in H
    as [(a & w1 & t1 & t2 & E1 & H & ->)|[(e & E1 & ->)|(E1 & ->)]].

Lemma try_except_cases {A} (m : M A) (h : exn -> M A) w r w' tr :
  try_except m h w = (r, w', tr) ->
  (exists e w1 t1 t2,
      m w = (Raise e, w1, t1) /\ h e w1 = (r, w', t2) /\ tr = t1 ++ t2)
  \/ (m w = (r, w', tr) /\ forall e, r <> Raise e).
Proof.
  unfold try_except. destruct (m w) as [[[a|e|] w1] t1].
  - intros [= <- <- <-]. right. split; [reflexivity|discriminate].
  - destruct (h e w1) as [[r2 w2] t2] eqn:E. intros [= <- <- <-].
    left. now exists e, w1, t1, t2.
  - intros [= <- <- <-]. right. split; [reflexivity|discriminate].
Qed.

Lemma bind_ret {A B} (a : A) (f : A -> M B) (w : state) :
  bind (ret a) f w = f a w.
Proof.
  unfold bind, ret. now destruct (f a w) as [[r w'] tr].
Qed.

Lemma bind_runs_on {A B} (m : M A) (f : A -> M B) (w w1 : state) (a : A)
    (t1 : list event) :
  m w = (Ret a, w1, t1) ->
  bind m f w = (outcome_of (f a w1), state_of (f a w1),
                t1 ++ trace_of (f a w1)).
Proof.
  intros E. unfold bind. rewrite E. now destruct (f a w1) as [[r w2] t2].
Qed.

Lemma bind_stops {A B} (m : M A) (f : A -> M B) (w w1 : state) (e : exn)
    (t1 : list event) :
  m w = (Raise e, w1, t1) -> bind m f w = (Raise e, w1, t1).
Proof. intros E. unfold bind. now rewrite E. Qed.

Lemma try_except_handles {A} (m : M A) (h : exn -> M A) (w w1 : state)
    (e : exn) (t1 : list event) :
  m w = (Raise e, w1, t1) ->
  try_except m h w = (outcome_of (h e w1), state_of (h e w1),
                      t1 ++ trace_of (h e w1)).
Proof.
  intros E. unfold try_except. rewrite E.
  now destruct (h e w1) as [[r w2] t2].
Qed.

(** ** Submitting *)

(** C6.  When the POST times out, submit raises a [ConnectionError] whose
    text names the base URL and the 90 seconds.  On any other fault of the
    request it raises a [GPUQuotaError] carrying the first 150 characters
    of the fault text when that text is classified as resource exhaustion,
    and otherwise a [ConnectionError] carrying its first 100 characters. *)
Theorem submit_fails_on_network_faults
    (env : environment) (base_url : string) (fn_index : Z)
    (data_payload : list json) (session_hash : string)
    (trigger_id : option Z) (source_ip : option string) (w : state) :
  let raised :=
    outcome_of (call_gradio_api_with_ipv6 env base_url fn_index data_payload
                  session_hash trigger_id source_ip w) in
  match outcome (post_replies env (posts_sent w)) with
  | TimedOut =>
      raised = Raise (ConnectionError
                        ("Connection to " +++ base_url
                         +++ " timed out after 90 seconds."))
  | Failed detail =>
      match classify detail with
      | ResourceExhausted =>
          raised = Raise (GPUQuotaError
                            ("Server (GPU) resource limit encountered: "
                             +++ PyStr.take 150 detail))
          /\ String.length (PyStr.take 150 detail) <= 150
      | Other =>
          raised = Raise (ConnectionError
                            ("Error connecting to " +++ base_url +++ ": "
                             +++ PyStr.take 100 detail))
          /\ String.length (PyStr.take 100 detail) <= 100
      end
  | Replied _ => True
  end.
Proof.
  cbv zeta.
  unfold call_gradio_api_with_ipv6, classify, outcome_of.
  set (dbg := match source_ip with Some _ => _ | None => _ end).
  assert (Hdbg : exists line, dbg = print line).
  { subst dbg. destruct source_ip; [destruct mounts_adapter|]; eauto. }
  destruct Hdbg as [line ->].
  unfold bind, try_except, print, emit, s_post.
  destruct (outcome (post_replies env (posts_sent w))) as [|detail|j];
    [reflexivity| |exact I].
  destruct (has_resource_keyword detail) eqn:E;
    (split; [|apply take_length]);
    cbn -[PyStr.take String.append has_resource_keyword];
    rewrite E; reflexivity.
Qed.

(** ** Properties every step of a computation keeps

    [respects R P m]: running [m] relates the states before and after by
    [R], and every event it leaves satisfies [P]. *)

Section Respects.

Variable env : environment.
Variable current : option string.
Variable R : state -> state -> Prop.
Variable P : event -> Prop.

Hypothesis R_refl : forall w, R w w.
Hypothesis R_trans : forall a b c, R a b -> R b c -> R a c.

Lemma respects_ret {A} (a : A) : respects R P (ret a).
Proof. intros w r w' tr [= <- <- <-]. auto. Qed.

Lemma respects_raise {A} (e : exn) : respects R P (@raise A e).
Proof. intros w r w' tr [= <- <- <-]. auto. Qed.

Lemma respects_out_of_fuel {A} : respects R P (@out_of_fuel A).
Proof. intros w r w' tr [= <- <- <-]. auto. Qed.

Lemma respects_bind {A B} (m : M A) (f : A -> M B) :
  respects R P m -> (forall a, respects R P (f a)) -> respects R P (bind m f).
Proof.
  intros Hm Hf w r w' tr H.
  apply bind_cases in H
    as [(a & w1 & t1 & t2 & E1 & E2 & ->)|[(e & E & ->)|(E & ->)]].
  - destruct (Hm _ _ _ _ E1), (Hf _ _ _ _ _ E2).
    split; [eauto|apply Forall_app; auto].
  - exact (Hm _ _ _ _ E).
  - exact (Hm _ _ _ _ E).
Qed.

Lemma respects_try_except {A} (m : M A) (h : exn -> M A) :
  respects R P m -> (forall e, respects R P (h e)) ->
  respects R P (try_except m h).
Proof.
  intros Hm Hh w r w' tr H.
  apply try_except_cases in H
    as [(e & w1 & t1 & t2 & E1 & E2 & ->)|[E _]].
  - destruct (Hm _ _ _ _ E1), (Hh _ _ _ _ _ E2).
    split; [eauto|apply Forall_app; auto].
  - exact (Hm _ _ _ _ E).
Qed.

Lemma respects_emit (e : event) : P e -> respects R P (emit e).
Proof. intros He w r w' tr [= <- <- <-]. auto. Qed.

Lemma respects_time_time : respects R P time_time.
Proof. intros w r w' tr [= <- <- <-]. auto. Qed.

Lemma respects_get_last_progress_update : respects R P get_last_progress_update.
Proof. intros w r w' tr [= <- <- <-]. auto. Qed.

Lemma respects_global_name (name : string) : respects R P (global_name name).
Proof.
  unfold global_name.
  destruct existsb; [apply respects_ret|apply respects_raise].
Qed.

(** Steps that move the clock forward, use up GET replies or assign the
    poller's local variable. *)
Hypothesis R_poll :
  forall w c g l,
    (clock w <= c)%Z ->
    R w (State c (posts_sent w) g (draws_taken w) l).

(** Lines that do not announce a new address and name no address but
    the current one, sleeps, and requests of a session made for the
    current address. *)
Hypothesis P_print :
  forall line,
    is_next_address (Print line) = false ->
    line_address line = None \/ line_address line = Some current ->
    P (Print line).
Hypothesis P_sleep : forall seconds, P (Sleep seconds).
Hypothesis P_get :
  forall url, P (Get url (bound_address (new_session env current) url)).

Lemma respects_print (line : printed) :
  is_next_address (Print line) = false ->
  line_address line = None \/ line_address line = Some current ->
  respects R P (print line).
Proof. intros H1 H2. apply respects_emit. auto. Qed.

Lemma respects_advance (seconds : Z) :
  (0 <= seconds)%Z -> respects R P (advance seconds).
Proof.
  intros H w r w' tr [= <- <- <-]. split; [|constructor].
  apply R_poll. lia.
Qed.

Lemma respects_time_sleep (seconds : Z) :
  (0 <= seconds)%Z -> respects R P (time_sleep seconds).
Proof.
  intros H. apply respects_bind.
  - apply respects_emit, P_sleep.
  - intros _. now apply respects_advance.
Qed.

Lemma respects_set_last_progress_update (t : Z) :
  respects R P (set_last_progress_update t).
Proof.
  intros w r w' tr [= <- <- <-]. split; [|constructor].
  apply R_poll. lia.
Qed.

Lemma respects_s_get (url : string) :
  respects R P (s_get env (new_session env current) url).
Proof.
  intros w r w' tr [= <- <- <-]. split.
  - apply R_poll. lia.
  - constructor; [apply P_get|constructor].
Qed.

Lemma respects_dict_get (d : json) (key : string) (default : json) :
  respects R P (dict_get d key default).
Proof.
  destruct d; try apply respects_raise. apply respects_ret.
Qed.

Lemma respects_item0 (v : json) : respects R P (item0 v).
Proof.
  destruct v as [| | | |[|]|[|]|]; try apply respects_raise;
    apply respects_ret.
Qed.

Lemma respects_slice_to (n : nat) (v : json) : respects R P (slice_to n v).
Proof.
  destruct v; try apply respects_raise; apply respects_ret.
Qed.

Ltac respects_step :=
  match goal with
  | |- respects R P (bind _ _) => apply respects_bind; [|intros ?]
  | |- respects R P (try_except _ _) =>
      apply respects_try_except; [|intros ?]
  | |- respects R P (ret _) => apply respects_ret
  | |- respects R P (raise _) => apply respects_raise
  | |- respects R P out_of_fuel => apply respects_out_of_fuel
  | |- respects R P (print _) =>
      apply respects_print;
      [reflexivity|first [left; reflexivity|right; reflexivity]]
  | |- respects R P time_time => apply respects_time_time
  | |- respects R P get_last_progress_update =>
      apply respects_get_last_progress_update
  | |- respects R P (set_last_progress_update _) =>
      apply respects_set_last_progress_update
  | |- respects R P (time_sleep _) => apply respects_time_sleep; lia
  | |- respects R P (dict_get _ _ _) => apply respects_dict_get
  | |- respects R P (item0 _) => apply respects_item0
  | |- respects R P (slice_to _ _) => apply respects_slice_to
  | |- respects R P (s_get _ (new_session _ current) _) => apply respects_s_get
  | |- respects R P (global_name _) => apply respects_global_name
  | |- respects R P (if ?b then _ else _) => destruct b
  | |- respects R P (match ?x with _ => _ end) => destruct x
  end.

Section PollerRespects.

Variables (base_url session_hash : string) (event_id : json)
          (service_name : string) (max_poll_time : Z).

Lemma respects_collect_events (events : list string) :
  respects R P (collect_events env events).
Proof.
  induction events as [|event_str rest IH]; simpl.
  - apply respects_ret.
  - repeat respects_step; exact IH.
Qed.

Lemma respects_completed (event_data : json) :
  respects R P (completed service_name event_data).
Proof. unfold completed. repeat respects_step. Qed.

Lemma respects_scan_events (processed_events : list json) :
  respects R P (scan_events event_id service_name processed_events).
Proof.
  induction processed_events as [|event_data rest IH]; simpl.
  - apply respects_ret.
  - repeat first [exact IH | apply respects_completed | respects_step].
Qed.

Lemma respects_poll_once (url : string) :
  respects R P (poll_once env event_id service_name
              (new_session env current) url).
Proof.
  unfold poll_once.
  repeat first [apply respects_collect_events
               | apply respects_scan_events | respects_step].
Qed.

Lemma respects_on_poll_failure (e : exn) :
  respects R P (on_poll_failure service_name e).
Proof. unfold on_poll_failure. repeat respects_step. Qed.

Lemma respects_poll_cycle (url : string) :
  respects R P (poll_cycle env event_id service_name
              (new_session env current) url).
Proof.
  unfold poll_cycle. apply respects_try_except.
  - apply respects_poll_once.
  - apply respects_on_poll_failure.
Qed.

Lemma respects_poll_loop (fuel : nat) (url : string) (start_time : Z) :
  respects R P (poll_loop env event_id service_name max_poll_time fuel
              (new_session env current) url start_time).
Proof.
  induction fuel as [|fuel IH]; simpl.
  - apply respects_out_of_fuel.
  - repeat first [exact IH | apply respects_poll_cycle | respects_step].
Qed.

Lemma respects_poll_gradio_sse_status :
  respects R P (poll_gradio_sse_status env base_url session_hash event_id
              service_name current max_poll_time).
Proof.
  unfold poll_gradio_sse_status.
  repeat first [apply respects_poll_loop | respects_step].
Qed.

End PollerRespects.

(** Steps that may also use up POST replies and random draws. *)
Hypothesis R_any :
  forall w c p g d l, (clock w <= c)%Z -> R w (State c p g d l).

Hypothesis P_post :
  forall url body,
    P (Post url body (bound_address (new_session env current) url)).

Lemma respects_random_draw : respects R P (random_draw env).
Proof.
  intros [now posts gets draws last] r w' tr [= <- <- <-].
  split; [|constructor].
  apply R_any. cbn [clock]. lia.
Qed.

Lemma respects_random_choices (population : string) (k : nat) :
  respects R P (random_choices env population k).
Proof.
  induction k as [|k IH]; simpl.
  - apply respects_ret.
  - repeat first [exact IH | apply respects_random_draw | respects_step].
Qed.

Lemma respects_s_post (url : string) (body : json) :
  respects R P (s_post env (new_session env current) url body).
Proof.
  intros w r w' tr [= <- <- <-]. split.
  - apply R_any. lia.
  - constructor; [apply P_post|constructor].
Qed.

Lemma respects_call_gradio_api_with_ipv6
    (base_url : string) (fn_index : Z) (data_payload : list json)
    (session_hash : string) (trigger_id : option Z) :
  respects R P (call_gradio_api_with_ipv6 env base_url fn_index data_payload
              session_hash trigger_id current).
Proof.
  unfold call_gradio_api_with_ipv6.
  set (debug := match current with Some _ => _ | None => _ end).
  assert (Hdebug : exists line,
             debug = print line /\ line_address line = None
             /\ is_next_address (Print line) = false).
  { subst debug. destruct current; [destruct mounts_adapter|];
      eexists; repeat split. }
  destruct Hdebug as (line & -> & Hline & Hnext).
  apply respects_bind.
  - apply respects_print; auto.
  - intros _. repeat first [apply respects_s_post | respects_step].
Qed.

Lemma respects_generate_session_hash : respects R P (generate_session_hash env).
Proof. unfold generate_session_hash. apply respects_random_choices. Qed.

Lemma respects_random_seed : respects R P (random_seed env).
Proof.
  unfold random_seed. apply respects_bind.
  - apply respects_random_draw.
  - intros r. apply respects_ret.
Qed.

Lemma respects_prompt_for_image_of (translated_prompt_data : json) :
  respects R P (prompt_for_image_of translated_prompt_data).
Proof. unfold prompt_for_image_of. repeat respects_step. Qed.

Lemma respects_final_image_url_of (image_result_data : json) :
  respects R P (final_image_url_of image_result_data).
Proof. unfold final_image_url_of. repeat respects_step. Qed.

Ltac respects_call :=
  match goal with
  | |- respects R P (generate_session_hash _) =>
      apply respects_generate_session_hash
  | |- respects R P (random_seed _) => apply respects_random_seed
  | |- respects R P (call_gradio_api_with_ipv6 _ _ _ _ _ _ _) =>
      apply respects_call_gradio_api_with_ipv6
  | |- respects R P (poll_gradio_sse_status _ _ _ _ _ _ _) =>
      apply respects_poll_gradio_sse_status
  | |- respects R P (prompt_for_image_of _) =>
      apply respects_prompt_for_image_of
  | |- respects R P (final_image_url_of _) => apply respects_final_image_url_of
  end.

Section RunRespects.

Variables (persian_prompt aspect_ratio_key : string).

Lemma respects_translate_prompt (retry_count : Z) :
  respects R P (translate_prompt env persian_prompt current retry_count).
Proof.
  unfold translate_prompt.
  repeat first [respects_call | respects_step].
Qed.

Lemma respects_create_image (retry_count : Z) (prompt_for_image : json) :
  respects R P (create_image env aspect_ratio_key current retry_count
              prompt_for_image).
Proof.
  unfold create_image.
  repeat first [respects_call | respects_step].
Qed.

Lemma respects_attempt (retry_count : Z) :
  respects R P (attempt env persian_prompt aspect_ratio_key
              current retry_count).
Proof.
  unfold attempt. apply respects_bind.
  - apply respects_translate_prompt.
  - intros prompt_for_image. apply respects_create_image.
Qed.

Lemma respects_on_failure (retry_count : Z) (e : exn) :
  respects R P (on_failure current retry_count e).
Proof.
  unfold on_failure, asyncio_sleep. repeat respects_step.
Qed.

Lemma respects_retry_loop (retry_counts : list Z) :
  respects R P (retry_loop env persian_prompt aspect_ratio_key
              current retry_counts).
Proof.
  induction retry_counts as [|retry_count later IH]; simpl.
  - apply respects_ret.
  - repeat first [ exact IH | apply respects_attempt
                 | apply respects_on_failure | respects_step ].
Qed.

End RunRespects.

End Respects.

(** ** The poller *)

Section PollerFacts.

Variable env : environment.

Lemma spec_decoded_app (xs ys : list string) :
  spec_decoded env (xs ++ ys) = spec_decoded env xs ++ spec_decoded env ys.
Proof. apply flat_map_app. Qed.

Lemma spec_decoded_nothing (lines : list string) :
  Forall (yields_nothing env) lines -> spec_decoded env lines = [].
Proof.
  induction 1 as [|line lines H _ IH]; [reflexivity|].
  change (line :: lines) with ([line] ++ lines).
  now rewrite spec_decoded_app, H, IH.
Qed.

(** The first loop of a cycle never fails and leaves the state alone: it
    yields the records that decode and prints one warning for each
    malformed record. *)
Lemma collect_events_decodes (events : list string) (w : state) :
  collect_events env events w =
  (Ret (spec_decoded env events), w,
   map (fun line => Print (WarningCouldNotDecode line))
       (filter (malformed env) events)).
Proof.
  induction events as [|line rest IH]; [reflexivity|].
  cbn [collect_events spec_decoded flat_map filter].
  unfold malformed at 1, data_record.
  destruct (PyStr.startswith line "data:"); [|exact IH].
  destruct (json_loads env _) as [record|].
  - unfold bind. rewrite IH. unfold ret. now rewrite app_nil_r.
  - unfold bind, print, emit. now rewrite IH.
Qed.

Lemma scan_events_success (event_id : json) (service_name : string)
    (record data : json) (rest : list json) (w : state) :
  successful_completion event_id record data ->
  scan_events event_id service_name (record :: rest) w =
  (Ret (Some data), w, [Print (DebugCompleted service_name)]).
Proof.
  intros (fields & id & success & out_fields & -> & Hid & Heq & Hmsg
          & Hsuccess & Hts & Hout & Hdata & Htd).
  cbn [scan_events]. unfold completed, bind, dict_get, ret.
  rewrite Hid, Heq, Hmsg. cbn [Py.eqb]. rewrite String.eqb_refl.
  rewrite Hsuccess, Hts, Hout. cbn [Py.truthy].
  destruct out_fields as [|f fs]; [discriminate|].
  rewrite Hdata, Htd. reflexivity.
Qed.

End PollerFacts.

(** C8.  Decoding the lines of a response never fails: it keeps the data
    records that decode and prints one warning for each data record that
    does not.  Take a poll response whose lines are some lines that yield
    no record (not data records, or data records that fail to decode),
    then a data record that decodes to a successful completion of the
    awaited job, then any lines.  The first cycle returns the data of that
    completion; all it leaves behind is the request, one warning for each
    malformed data record of the response, and the completion message. *)
Theorem malformed_records_are_skipped
    (env : environment) (base_url session_hash : string) (event_id : json)
    (service_name : string) (source_ip : option string)
    (max_poll_time : Z) (w : state)
    (text : string) (before after : list string) (good : string)
    (record data : json) :
  (0 < max_poll_time)%Z ->
  outcome (get_replies env (gets_sent w)) = Replied text ->
  PyStr.split_lines (PyStr.strip text) = before ++ good :: after ->
  Forall (yields_nothing env) before ->
  spec_decoded env [good] = [record] ->
  successful_completion event_id record data ->
  let run := poll_gradio_sse_status env base_url session_hash event_id
               service_name source_ip max_poll_time w in
  let data_url :=
    base_url +++ "/gradio_api/queue/data?session_hash=" +++ session_hash in
  (forall events w0,
      collect_events env events w0
      = (Ret (spec_decoded env events), w0,
         map (fun line => Print (WarningCouldNotDecode line))
             (filter (malformed env) events))) /\
  outcome_of run = Ret data /\
  trace_of run =
    Get data_url (bound_address (new_session env source_ip) data_url)
    :: map (fun line => Print (WarningCouldNotDecode line))
           (filter (malformed env) (before ++ good :: after))
    ++ [Print (DebugCompleted service_name)].
Proof.
  intros Hmax Hreply Hlines Hbefore Hgood Hrecord.
  split; [exact (collect_events_decodes env)|].
  assert (Hdecoded : exists others,
             spec_decoded env (before ++ good :: after) = record :: others).
  { exists (spec_decoded env after).
    change (good :: after) with ([good] ++ after).
    now rewrite !spec_decoded_app, (spec_decoded_nothing _ _ Hbefore), Hgood. }
  destruct Hdecoded as [others Hdecoded].
  assert (E : exists w',
             poll_gradio_sse_status env base_url session_hash event_id
               service_name source_ip max_poll_time w
             = (Ret data, w',
                [Get (base_url +++ "/gradio_api/queue/data?session_hash="
                      +++ session_hash)
                   (bound_address (new_session env source_ip)
                      (base_url +++ "/gradio_api/queue/data?session_hash="
                       +++ session_hash))]
                ++ map (fun line => Print (WarningCouldNotDecode line))
                     (filter (malformed env) (before ++ good :: after))
                ++ [Print (DebugCompleted service_name)])).
  { unfold poll_gradio_sse_status, poll_fuel.
    cbn [poll_loop].
    unfold bind at 1 2 3 4, time_time, set_last_progress_update.
    cbn [clock]. rewrite Z.sub_diag.
    destruct (0 <? max_poll_time)%Z eqn:Hlt; [|apply Z.ltb_ge in Hlt; lia].
    unfold bind at 1, poll_cycle, try_except, poll_once.
    unfold bind at 1, s_get. cbn [gets_sent]. rewrite Hreply.
    cbn [raise_reply].
    unfold bind at 1. rewrite Hlines, collect_events_decodes, Hdecoded.
    unfold bind at 1. rewrite (scan_events_success _ _ _ _ _ _ Hrecord).
    unfold ret. cbn [app]. rewrite !app_nil_r. eexists. reflexivity. }
  destruct E as [w' E]. cbv zeta. rewrite E. split; reflexivity.
Qed.

(** The sample response with a truncated record before the completion. *)
Lemma malformed_records_are_skipped_witness :
  outcome_of (poll_gradio_sse_status Sample.mixed_env "https://b" "hash"
                (JStr "e1") "Translator" None 300 Sample.start)
  = Ret (JArr [JStr "a cat"]).
Proof.
  refine (proj1 (proj2 (malformed_records_are_skipped
                          Sample.mixed_env "https://b" "hash" (JStr "e1")
                          "Translator" None 300 Sample.start
                          _ ["data: " +++ Sample.truncated_text] [] _
                          Sample.completed_record (JArr [JStr "a cat"])
                          _ eq_refl _ _ _ _))).
  - reflexivity.
  - vm_compute. reflexivity.
  - repeat constructor.
  - vm_compute. reflexivity.
  - exists [("event_id", JStr "e1");
            ("msg", JStr "process_completed");
            ("success", JBool true);
            ("output", JObj [("data", JArr [JStr "a cat"])])],
      (JStr "e1"), (JBool true), [("data", JArr [JStr "a cat"])].
    repeat split; reflexivity.
Defined.

(** ** The rotation *)

Section RotationFacts.

Variable env : environment.
Variables (persian_prompt aspect_ratio_key : string).

Let retry_loop' := retry_loop env persian_prompt aspect_ratio_key.
Let rotation_loop' := rotation_loop env persian_prompt aspect_ratio_key.
Let attempt' := attempt env persian_prompt aspect_ratio_key.

Lemma bound_address_cases (ip : option string) (url : string) :
  bound_address (new_session env ip) url = None \/
  bound_address (new_session env ip) url = ip.
Proof.
  unfold bound_address, new_session.
  destruct PyStr.startswith; [|now left].
  destruct mounts_adapter; [now right|now left].
Qed.

(** All the work of the [for] loop on an address belongs to it. *)
Lemma retry_loop_on_address (ip : option string) (retry_counts : list Z)
    (w : state) :
  Forall (on_address ip) (trace_of (retry_loop' ip retry_counts w)).
Proof.
  destruct (retry_loop' ip retry_counts w) as [[r w'] tr] eqn:E.
  refine (proj2 (respects_retry_loop env ip (fun _ _ => True)
                   (on_address ip) _ _ _ _ _ _ _ _ _ _ _ _ _ _ _ E));
    cbn; auto using bound_address_cases.
Qed.

Lemma on_address_not_taken (ip : option string) (tr : list event) :
  Forall (on_address ip) tr -> addresses_taken tr = [].
Proof.
  induction 1 as [|e tr He _ IH]; [reflexivity|].
  cbn [addresses_taken flat_map]. fold (addresses_taken tr).
  rewrite IH.
  destruct e as [| | |[]]; try reflexivity.
  destruct He as [He _]. discriminate.
Qed.


Lemma addresses_taken_next (ip : option string) (n : nat)
    (tr : list event) :
  addresses_taken (Print (InfoAttemptingWith ip n) :: tr)
  = ip :: addresses_taken tr.
Proof. reflexivity. Qed.

Lemma addresses_taken_app (a b : list event) :
  addresses_taken (a ++ b) = addresses_taken a ++ addresses_taken b.
Proof. apply flat_map_app. Qed.

(** The shape of one pass of the [while] loop: the announcement, the
    work of the [for] loop, then nothing or the rest of the rotation. *)
Lemma rotation_loop_trace (ip : option string)
    (remaining tried : list (option string)) (w : state) :
  exists tail,
    trace_of (rotation_loop' (ip :: remaining) tried w) =
    Print (InfoAttemptingWith ip (length remaining))
    :: trace_of (retry_loop' ip (range max_retries_per_ip) w) ++ tail
    /\ (tail = [] \/
        exists w1,
          tail = trace_of (rotation_loop' remaining (tried ++ [ip]) w1)).
Proof.
  unfold rotation_loop', retry_loop'. cbn [rotation_loop].
  unfold bind at 1, print, emit. unfold bind at 1.
  destruct (retry_loop env persian_prompt aspect_ratio_key ip
              (range max_retries_per_ip) w) as [[[l|e|] w1] t1];
    cbn [trace_of snd app].
  - destruct l as [value| |].
    + exists []. split; [reflexivity|now left].
    + destruct (rotation_loop env persian_prompt aspect_ratio_key remaining
                  (tried ++ [ip]) w1) as [[r2 w2] t2] eqn:E.
      exists t2. split; [reflexivity|right]. exists w1. now rewrite E.
    + destruct (rotation_loop env persian_prompt aspect_ratio_key remaining
                  (tried ++ [ip]) w1) as [[r2 w2] t2] eqn:E.
      exists t2. split; [reflexivity|right]. exists w1. now rewrite E.
  - exists []. split; [now rewrite app_nil_r|now left].
  - exists []. split; [now rewrite app_nil_r|now left].
Qed.



End RotationFacts.







Section FailurePolicy.

Variable env : environment.
Variables (persian_prompt aspect_ratio_key : string).

(** A [GPUQuotaError] ends the [for] loop at once, whatever retry counts
    are left. *)
Lemma retry_loop_breaks_on_quota (ip : option string) (retry_count : Z)
    (later : list Z) (w w1 : state) (message : string)
    (tr1 : list event) :
  attempt env persian_prompt aspect_ratio_key ip retry_count w
  = (Raise (GPUQuotaError message), w1, tr1) ->
  retry_loop env persian_prompt aspect_ratio_key ip
    (retry_count :: later) w
  = (Ret Break, w1, tr1 ++ [Print (QuotaErrorWithIp ip message)]).
Proof.
  intros H. cbn [retry_loop].
  unfold bind at 1, try_except. unfold bind at 1. rewrite H.
  cbn. now rewrite app_nil_r.
Qed.

(** Any other exception of the first attempt reaches line 314, where the
    name [asyncio] is not bound: the [NameError] leaves the loop. *)
Lemma retry_loop_escapes_on_failure (ip : option string)
    (later : list Z) (w w1 : state) (e : exn) (tr1 : list event) :
  attempt env persian_prompt aspect_ratio_key ip 0 w
  = (Raise e, w1, tr1) ->
  (forall message, e <> GPUQuotaError message) ->
  retry_loop env persian_prompt aspect_ratio_key ip (0%Z :: later) w
  = (Raise (NameError "asyncio"), w1,
     tr1 ++ [Print (ErrorGeneral ip 1 e)]).
Proof.
  intros H Hne. cbn [retry_loop].
  unfold bind at 1, try_except. unfold bind at 1. rewrite H.
  destruct e; try (cbn; rewrite ?app_nil_r; reflexivity).
  now destruct (Hne message).
Qed.

End FailurePolicy.

(** C3.  When the first attempt on an address raises a [GPUQuotaError],
    the [for] loop over that address is broken at once, whatever retry
    counts are left, with nothing done after the failure but the printed
    line; the rotation then goes on with the addresses that remain. *)
Theorem resource_exhaustion_moves_to_next_address
    (env : environment) (persian_prompt aspect_ratio_key : string)
    (ip : option string) (remaining tried : list (option string))
    (w w1 : state) (message : string) (tr1 : list event) :
  attempt env persian_prompt aspect_ratio_key ip 0 w
  = (Raise (GPUQuotaError message), w1, tr1) ->
  (forall later,
      retry_loop env persian_prompt aspect_ratio_key ip (0%Z :: later) w
      = (Ret Break, w1, tr1 ++ [Print (QuotaErrorWithIp ip message)]))
  /\ rotation_loop env persian_prompt aspect_ratio_key
       (ip :: remaining) tried w
     = let '(r, w2, tr2) :=
         rotation_loop env persian_prompt aspect_ratio_key remaining
           (tried ++ [ip]) w1 in
       (r, w2,
        Print (InfoAttemptingWith ip (length remaining))
        :: (tr1 ++ [Print (QuotaErrorWithIp ip message)]) ++ tr2).
Proof.
  intros H.
  pose proof (retry_loop_breaks_on_quota env persian_prompt aspect_ratio_key
                ip 0 [1%Z] w w1 message tr1 H) as Hloop.
  split.
  - intros later. now apply retry_loop_breaks_on_quota.
  - cbn [rotation_loop]. unfold bind at 1, print, emit. unfold bind at 1.
    change (range max_retries_per_ip) with [0%Z; 1%Z].
    rewrite Hloop.
    destruct (rotation_loop env persian_prompt aspect_ratio_key remaining
                (tried ++ [ip]) w1) as [[r w2] tr2].
    reflexivity.
Qed.

(** The first submission of the sample run is refused for quota. *)
Lemma resource_exhaustion_moves_to_next_address_witness :
  retry_loop Sample.quota_env "gorbe" "9:16" (Some "2001:db8::1")
    [0%Z; 1%Z] Sample.start
  = (Ret Break,
     state_of (attempt Sample.quota_env "gorbe" "9:16" (Some "2001:db8::1")
                 0 Sample.start),
     trace_of (attempt Sample.quota_env "gorbe" "9:16" (Some "2001:db8::1")
                 0 Sample.start)
     ++ [Print (QuotaErrorWithIp (Some "2001:db8::1")
                  "Server (GPU) resource limit encountered: GPU quota exceeded")]).
Proof.
  refine (proj1 (resource_exhaustion_moves_to_next_address Sample.quota_env
                   "gorbe" "9:16" (Some "2001:db8::1") [] []
                   Sample.start _ _ _ _) [1%Z]).
  vm_compute. reflexivity.
Defined.

(** C1, at the failing input: one address, the translate submission fails
    with a connection reset.  The run makes one attempt, prints the error,
    and ends with the [NameError] of line 314; it makes no second attempt
    on the address. *)
Theorem general_failure_is_not_retried :
  let run := start_full_process_with_ipv6_rotation Sample.reset_env
               "gorbe" "9:16" Sample.start in
  outcome_of run = Raise (NameError "asyncio")
  /\ attempts_started (trace_of run) = [(Some "2001:db8::1", 1%Z)]
  /\ (forall seconds, ~ In (Sleep seconds) (trace_of run)).
Proof.
  vm_compute. repeat split.
  intros seconds H.
  repeat (destruct H as [H|H]; [discriminate|]). exact H.
Qed.

(** ** What the steps of an attempt do *)

Section StepFacts.

Variable env : environment.

Lemma no_events (tr : list event) : Forall (fun _ => False) tr -> tr = [].
Proof. destruct 1 as [|e tr He _]; [reflexivity|destruct He]. Qed.

Lemma submissions_app (a b : list event) :
  submissions (a ++ b) = submissions a ++ submissions b.
Proof. apply flat_map_app. Qed.

Lemma not_post_no_submissions (tr : list event) :
  Forall (fun e => is_post e = false) tr -> submissions tr = [].
Proof.
  induction 1 as [|e tr He _ IH]; [reflexivity|].
  change (e :: tr) with ([e] ++ tr). rewrite submissions_app, IH.
  destruct e; try reflexivity. discriminate.
Qed.

Lemma print_runs (line : printed) (w : state) :
  print line w = (Ret tt, w, [Print line]).
Proof. reflexivity. Qed.

Lemma random_choices_runs (population : string) (k : nat) (w : state) :
  random_choices env population k w =
  (Ret (choices_at (random_draws env) population k (draws_taken w)),
   State (clock w) (posts_sent w) (gets_sent w) (draws_taken w + k)
         (last_progress_update w),
   []).
Proof.
  revert w. induction k as [|k IH]; intros w.
  - rewrite Nat.add_0_r. destruct w; reflexivity.
  - cbn [random_choices choices_at]. unfold bind at 1.
    destruct w as [now posts gets draws last]. cbn [random_draw].
    unfold bind at 1. rewrite IH.
    cbn [draws_taken clock posts_sent gets_sent last_progress_update].
    unfold ret. cbn [app]. now rewrite Nat.add_succ_r.
Qed.

(** Generating a token never fails, leaves no event, and takes 26 draws. *)
Lemma generate_session_hash_runs (w w' : state) (r : result string)
    (tr : list event) :
  generate_session_hash env w = (r, w', tr) ->
  r = Ret (session_hash_at env (draws_taken w))
  /\ draws_taken w' = draws_taken w + 26
  /\ tr = [].
Proof.
  unfold generate_session_hash, session_hash_at.
  rewrite (random_choices_runs SESSION_HASH_ALPHABET 26 w).
  intros [= <- <- <-]. repeat split.
Qed.

Lemma random_seed_runs (w w' : state) (r : result Z) (tr : list event) :
  random_seed env w = (r, w', tr) ->
  r = Ret (seed_at env (draws_taken w))
  /\ draws_taken w' = S (draws_taken w)
  /\ tr = [].
Proof.
  destruct w as [now posts gets draws last].
  intros [= <- <- <-]. repeat split.
Qed.

Lemma respects_quiet {A} (m : M A) :
  respects eq (fun _ => False) m -> quiet m.
Proof.
  intros H w r w' tr E. destruct (H _ _ _ _ E) as [-> Hn].
  split; [reflexivity|now apply no_events].
Qed.

Lemma quiet_prompt_for_image_of (data : json) :
  quiet (prompt_for_image_of data).
Proof.
  apply respects_quiet, respects_prompt_for_image_of;
    [reflexivity|exact (@eq_trans state)].
Qed.

Lemma quiet_final_image_url_of (data : json) :
  quiet (final_image_url_of data).
Proof.
  apply respects_quiet, respects_final_image_url_of;
    [reflexivity|exact (@eq_trans state)].
Qed.

Lemma quiet_slice_to (n : nat) (v : json) : quiet (slice_to n v).
Proof. apply respects_quiet, respects_slice_to. reflexivity. Qed.

Lemma quiet_dict_get (d : json) (key : string) (default : json) :
  quiet (dict_get d key default).
Proof. apply respects_quiet, respects_dict_get. reflexivity. Qed.

(** Submitting leaves exactly the debug line and the POST, uses one POST
    reply and no random draw. *)
Lemma call_gradio_api_with_ipv6_runs
    (base_url : string) (fn_index : Z) (data_payload : list json)
    (session_hash : string) (trigger_id : option Z)
    (source_ip : option string) (w w' : state) (r : result json)
    (tr : list event) :
  call_gradio_api_with_ipv6 env base_url fn_index data_payload
    session_hash trigger_id source_ip w = (r, w', tr) ->
  draws_taken w' = draws_taken w
  /\ exists line,
      tr = [Print line;
            Post (join_url_of base_url)
              (api_payload_of data_payload fn_index session_hash trigger_id)
              (bound_address (new_session env source_ip)
                 (join_url_of base_url))].
Proof.
  unfold call_gradio_api_with_ipv6.
  set (debug := match source_ip with Some _ => _ | None => _ end).
  assert (Hdebug : exists line, debug = print line).
  { subst debug. destruct source_ip; [destruct mounts_adapter|]; eauto. }
  destruct Hdebug as [line ->].
  set (body := fun result : json => _).
  set (handler := fun e : exn => _).
  assert (Hbody : forall result, quiet (body result)).
  { intros result. subst body. apply respects_quiet.
    repeat first
      [ apply respects_dict_get; reflexivity
      | apply respects_ret; reflexivity
      | apply respects_raise; reflexivity
      | apply respects_bind;
        [exact (@eq_trans state)| |intros ?]
      | match goal with
        | |- respects _ _ (if ?b then _ else _) => destruct b
        | |- respects _ _ (match ?x with _ => _ end) => destruct x
        end ]. }
  assert (Hhandler : forall e, quiet (handler e)).
  { intros e. subst handler. apply respects_quiet.
    destruct e; try (apply respects_raise; reflexivity);
      destruct has_resource_keyword; apply respects_raise; reflexivity. }
  unfold bind at 1. rewrite print_runs.
  unfold try_except, bind at 1, s_post.
  set (w1 := State _ _ _ _ _).
  assert (Hw1 : draws_taken w1 = draws_taken w) by reflexivity.
  clearbody w1.
  destruct (raise_reply (outcome (post_replies env (posts_sent w))))
    as [result|e|].
  - destruct (body result w1) as [[r2 w2] t2] eqn:E.
    destruct (Hbody _ _ _ _ _ E) as [-> ->].
    destruct r2 as [a|e|].
    + intros [= <- <- <-]. split; [exact Hw1|now exists line].
    + destruct (handler e w1) as [[r3 w3] t3] eqn:E3.
      destruct (Hhandler _ _ _ _ _ E3) as [-> ->].
      intros [= <- <- <-]. split; [exact Hw1|now exists line].
    + intros [= <- <- <-]. split; [exact Hw1|now exists line].
  - destruct (handler e w1) as [[r3 w3] t3] eqn:E3.
    destruct (Hhandler _ _ _ _ _ E3) as [-> ->].
    intros [= <- <- <-]. split; [exact Hw1|now exists line].
  - intros [= <- <- <-]. split; [exact Hw1|now exists line].
Qed.

Lemma same_draws_trans (a b c : state) :
  same_draws a b -> same_draws b c -> same_draws a c.
Proof. unfold same_draws. congruence. Qed.

Lemma keeps_bind {A B} (m : M A) (f : A -> M B) :
  keeps m -> (forall a, keeps (f a)) -> keeps (bind m f).
Proof. apply respects_bind, same_draws_trans. Qed.

Lemma keeps_ret {A} (a : A) : keeps (ret a).
Proof. apply respects_ret. reflexivity. Qed.

Lemma keeps_raise {A} (e : exn) : keeps (@raise A e).
Proof. apply respects_raise. reflexivity. Qed.

Lemma keeps_print (line : printed) : keeps (print line).
Proof. apply respects_emit; reflexivity. Qed.

Lemma keeps_quiet {A} (m : M A) : quiet m -> keeps m.
Proof.
  intros H w r w' tr E. destruct (H _ _ _ _ E) as [-> ->].
  split; [reflexivity|constructor].
Qed.

(** Polling submits nothing and takes no random draw. *)
Lemma keeps_poll_gradio_sse_status
    (base_url session_hash : string) (event_id : json)
    (service_name : string) (source_ip : option string)
    (max_poll_time : Z) :
  keeps (poll_gradio_sse_status env base_url session_hash event_id
           service_name source_ip max_poll_time).
Proof.
  apply (respects_poll_gradio_sse_status env source_ip same_draws no_post);
    try reflexivity; exact same_draws_trans.
Qed.

Lemma keeps_runs {A} (m : M A) (w w' : state) (r : result A)
    (tr : list event) :
  keeps m -> m w = (r, w', tr) ->
  draws_taken w' = draws_taken w /\ submissions tr = [].
Proof.
  intros H E. destruct (H _ _ _ _ E) as [Hd Hp].
  split; [exact Hd|now apply not_post_no_submissions].
Qed.

End StepFacts.

(** ** The submissions of an attempt *)

Section AttemptFacts.

Variable env : environment.
Variables (persian_prompt aspect_ratio_key : string).

Ltac keeps_step :=
  match goal with
  | |- keeps (bind _ _) => apply keeps_bind; [|intros ?]
  | |- keeps (ret _) => apply keeps_ret
  | |- keeps (raise _) => apply keeps_raise
  | |- keeps (print _) => apply keeps_print
  | |- keeps (poll_gradio_sse_status _ _ _ _ _ _ _) =>
      apply keeps_poll_gradio_sse_status
  | |- keeps (prompt_for_image_of _) =>
      apply keeps_quiet, quiet_prompt_for_image_of
  | |- keeps (final_image_url_of _) =>
      apply keeps_quiet, quiet_final_image_url_of
  | |- keeps (slice_to _ _) => apply keeps_quiet, quiet_slice_to
  | |- keeps (if ?b then _ else _) => destruct b
  | |- keeps (match ?x with _ => _ end) => destruct x
  end.

(** After the submission, the rest of a stage submits nothing more and
    takes no draw. *)
Lemma submit_then_keeps {A} (base_url : string) (fn_index : Z)
    (data_payload : list json) (session_hash : string)
    (trigger_id : option Z) (ip : option string) (rest : json -> M A)
    (w w' : state) (r : result A) (tr : list event) :
  (forall event_id, keeps (rest event_id)) ->
  bind (call_gradio_api_with_ipv6 env base_url fn_index data_payload
          session_hash trigger_id ip) rest w = (r, w', tr) ->
  submissions tr
  = [(join_url_of base_url,
      api_payload_of data_payload fn_index session_hash trigger_id)]
  /\ draws_taken w' = draws_taken w.
Proof.
  intros Hrest H.
  bind_inv H; apply call_gradio_api_with_ipv6_runs in E
    as (Hd & line & ->).
  - destruct (keeps_runs _ _ _ _ _ (Hrest a) H) as [Hd2 Hs].
    rewrite submissions_app, Hs. split; [reflexivity|congruence].
  - split; [reflexivity|exact Hd].
  - split; [reflexivity|exact Hd].
Qed.

Lemma translate_prompt_runs (ip : option string) (retry_count : Z)
    (w w' : state) (r : result json) (tr : list event) :
  translate_prompt env persian_prompt ip retry_count w = (r, w', tr) ->
  submissions tr = [translate_submission env persian_prompt (draws_taken w)]
  /\ draws_taken w' = draws_taken w + 26
  /\ exists rest, tr = Print (InfoTranslating (retry_count + 1) ip) :: rest.
Proof.
  intros H. unfold translate_prompt in H.
  bind_inv H; rewrite print_runs in E; try discriminate E.
  injection E as <- <- <-.
  bind_inv H; apply generate_session_hash_runs in E as (Er & Hd1 & ->);
    try discriminate Er.
  injection Er as ->.
  apply submit_then_keeps in H as [Hs Hd2].
  - rewrite !submissions_app, Hs.
    split; [reflexivity|]. split; [congruence|].
    eexists. reflexivity.
  - intros event_id. repeat keeps_step.
Qed.

Lemma create_image_runs (ip : option string) (retry_count : Z)
    (prompt_for_image : json) (w w' : state) (r : result json)
    (tr : list event) :
  create_image env aspect_ratio_key ip retry_count prompt_for_image w
  = (r, w', tr) ->
  submissions tr
  = [render_submission env aspect_ratio_key prompt_for_image
       (draws_taken w)].
Proof.
  intros H. unfold create_image in H.
  bind_inv H; rewrite print_runs in E; try discriminate E.
  injection E as <- <- <-.
  bind_inv H; apply random_seed_runs in E as (Er & Hd1 & ->);
    try discriminate Er.
  injection Er as ->.
  bind_inv H; apply generate_session_hash_runs in E as (Er & Hd2 & ->);
    try discriminate Er.
  injection Er as ->.
  apply submit_then_keeps in H as [Hs Hd3].
  - rewrite !submissions_app, Hs, Hd1. reflexivity.
  - intros event_id. repeat keeps_step.
Qed.

(** An attempt submits the translate job with a token read from the next
    26 draws, and then at most the render job, with the seed of the draw
    after those and a token read from the 26 draws after the seed. *)
Lemma attempt_submissions (ip : option string) (retry_count : Z)
    (w : state) :
  let tr := trace_of (attempt env persian_prompt aspect_ratio_key ip
                        retry_count w) in
  (submissions tr = [translate_submission env persian_prompt (draws_taken w)]
   \/ exists prompt_for_image,
       submissions tr
       = [translate_submission env persian_prompt (draws_taken w);
          render_submission env aspect_ratio_key prompt_for_image
            (draws_taken w + 26)])
  /\ exists rest, tr = Print (InfoTranslating (retry_count + 1) ip) :: rest.
Proof.
  cbv zeta.
  destruct (attempt env persian_prompt aspect_ratio_key ip retry_count w)
    as [[r w'] tr] eqn:H.
  unfold trace_of, snd. unfold attempt in H.
  bind_inv H; apply translate_prompt_runs in E as (Hs & Hd & rest & ->).
  - apply create_image_runs in H. rewrite submissions_app, Hs, H, Hd.
    split; [right; exists a; reflexivity|].
    eexists. reflexivity.
  - split; [left; exact Hs|]. eexists. reflexivity.
  - split; [left; exact Hs|]. eexists. reflexivity.
Qed.

End AttemptFacts.

(** ** From the translation to the render *)

Section TranslationFacts.

Variable env : environment.
Variables (persian_prompt aspect_ratio_key : string).

(** Takes a [bind] that returned apart; the cases where its first part
    did not return contradict the result [Hr]. *)
Ltac returned H Hr :=
  bind_inv H; [|subst; discriminate Hr|subst; discriminate Hr].

Lemma translate_prompt_returns (ip : option string) (retry_count : Z)
    (w w' : state) (r : result json) (tr : list event) (v : json) :
  translate_prompt env persian_prompt ip retry_count w = (r, w', tr) ->
  r = Ret v ->
  Py.truthy v = true.
Proof.
  unfold translate_prompt. intros H Hr.
  returned H Hr. returned H Hr. returned H Hr. returned H Hr.
  returned H Hr.
  destruct (Py.truthy a3) eqn:Htruthy;
    [|revert H; intros [= <- _ _]; discriminate Hr].
  cbn [negb] in H.
  returned H Hr. returned H Hr.
  revert H. intros [= <- _ _]. injection Hr as <-. exact Htruthy.
Qed.

Lemma attempt_after_translation (ip : option string) (retry_count : Z)
    (w w1 : state) (v : json) (t1 : list event) :
  translate_prompt env persian_prompt ip retry_count w = (Ret v, w1, t1) ->
  submissions
    (trace_of (attempt env persian_prompt aspect_ratio_key ip retry_count w))
  = [translate_submission env persian_prompt (draws_taken w);
     render_submission env aspect_ratio_key v (draws_taken w + 26)].
Proof.
  intros H. unfold attempt.
  rewrite (bind_runs_on _ _ _ _ _ _ H).
  cbn [trace_of snd]. rewrite submissions_app.
  destruct (translate_prompt_runs _ _ _ _ _ _ _ _ H) as (-> & Hdraws & _).
  destruct (create_image env aspect_ratio_key ip retry_count v w1)
    as [[r2 w2] t2] eqn:E2.
  cbn [trace_of snd].
  rewrite (create_image_runs _ _ _ _ _ _ _ _ _ E2), Hdraws.
  reflexivity.
Qed.

End TranslationFacts.

(** ** Session tokens *)

Section TokenFacts.

Local Open Scope string_scope.

Lemma string_length_app (a b : string) :
  String.length (a ++ b) = String.length a + String.length b.
Proof. induction a as [|c a IH]; cbn; [reflexivity|now rewrite IH]. Qed.

Lemma list_ascii_app (a b : string) :
  list_ascii_of_string (a ++ b)
  = (list_ascii_of_string a ++ list_ascii_of_string b)%list.
Proof. induction a as [|c a IH]; cbn; [reflexivity|now rewrite IH]. Qed.

(** Every index below 36 picks one character of the alphabet, a lowercase
    letter or a digit. *)
Lemma alphabet_char (i : nat) :
  i < 36 ->
  exists c,
    char_at SESSION_HASH_ALPHABET i = String c EmptyString
    /\ is_token_char c = true.
Proof.
  intros Hi.
  do 36 (destruct i as [|i]; [eexists; split; reflexivity|]).
  lia.
Qed.

Lemma choices_at_alphabet (draws : nat -> nat) (k pos : nat) :
  String.length (choices_at draws SESSION_HASH_ALPHABET k pos) = k
  /\ Forall (fun c => is_token_char c = true)
       (list_ascii_of_string (choices_at draws SESSION_HASH_ALPHABET k pos)).
Proof.
  revert pos. induction k as [|k IH]; intros pos.
  - split; [reflexivity|constructor].
  - cbn [choices_at].
    change (String.length SESSION_HASH_ALPHABET) with 36.
    destruct (alphabet_char (draws pos mod 36)) as (c & -> & Hc).
    { apply Nat.mod_upper_bound. discriminate. }
    destruct (IH (S pos)) as [Hlen Hall].
    rewrite string_length_app, list_ascii_app, Hlen.
    split; [reflexivity|].
    apply Forall_app. split; [|exact Hall].
    constructor; [exact Hc|constructor].
Qed.

(** A token depends on the 26 draws it reads and on nothing else. *)
Lemma choices_at_reads (draws draws' : nat -> nat) (population : string)
    (k pos : nat) :
  (forall i, pos <= i < pos + k -> draws i = draws' i) ->
  choices_at draws population k pos = choices_at draws' population k pos.
Proof.
  revert pos. induction k as [|k IH]; intros pos H; [reflexivity|].
  cbn [choices_at]. rewrite (H pos) by lia.
  rewrite (IH (S pos)); [reflexivity|].
  intros i Hi. apply H. lia.
Qed.

End TokenFacts.

(** C10.  A generated session token is the string of 26 characters chosen
    by the next 26 draws, each a lowercase letter or a digit.  In an
    attempt, where [p] draws were taken before it, the translate
    submission carries the token read from the draws [p .. p + 25]; it is
    the only submission, or the render submission follows it.  When the
    translation step returns, the attempt does send the render submission,
    and that one carries the token read from the draws [p + 27 .. p + 52],
    again 26 lowercase letters or digits.  The two tokens are independent:
    each is decided by its own 26 draws and changes with no other draw. *)
Theorem session_tokens_are_fresh
    (env : environment) (persian_prompt aspect_ratio_key : string)
    (ip : option string) (retry_count : Z) (w : state) :
  (let token := session_hash_at env (draws_taken w) in
   outcome_of (generate_session_hash env w) = Ret token
   /\ String.length token = 26
   /\ Forall (fun c => is_token_char c = true) (list_ascii_of_string token))
  /\
  (let sent :=
     map (fun s => (fst s, session_hash_of (snd s)))
       (submissions
          (trace_of (attempt env persian_prompt aspect_ratio_key ip
                       retry_count w))) in
   let first := Some (JStr (session_hash_at env (draws_taken w))) in
   let second := Some (JStr (session_hash_at env (draws_taken w + 27))) in
   (sent = [(join_url_of TRANSLATOR_API_BASE_URL, first)]
    \/ sent = [(join_url_of TRANSLATOR_API_BASE_URL, first);
               (join_url_of IMAGE_GENERATOR_API_BASE_URL, second)])
   /\ (forall w1 v t1,
          translate_prompt env persian_prompt ip retry_count w
          = (Ret v, w1, t1) ->
          sent = [(join_url_of TRANSLATOR_API_BASE_URL, first);
                  (join_url_of IMAGE_GENERATOR_API_BASE_URL, second)]))
  /\
  (let render_token := session_hash_at env (draws_taken w + 27) in
   String.length render_token = 26
   /\ Forall (fun c => is_token_char c = true)
        (list_ascii_of_string render_token))
  /\
  (forall other : environment,
      ((forall i, draws_taken w <= i < draws_taken w + 26 ->
                  random_draws other i = random_draws env i) ->
       session_hash_at other (draws_taken w)
       = session_hash_at env (draws_taken w))
      /\
      ((forall i, draws_taken w + 27 <= i < draws_taken w + 27 + 26 ->
                  random_draws other i = random_draws env i) ->
       session_hash_at other (draws_taken w + 27)
       = session_hash_at env (draws_taken w + 27))).
Proof.
  split; [|split; [|split]].
  - cbv zeta. split; [|apply choices_at_alphabet].
    destruct (generate_session_hash env w) as [[r w'] tr] eqn:E.
    now apply generate_session_hash_runs in E as (-> & _ & _).
  - cbv zeta. split.
    + destruct (attempt_submissions env persian_prompt aspect_ratio_key ip
                  retry_count w) as [[Hs|[prompt Hs]] _]; rewrite Hs.
      * left. reflexivity.
      * right. cbn [map fst snd render_submission translate_submission].
        replace (S (draws_taken w + 26)) with (draws_taken w + 27) by lia.
        reflexivity.
    + intros w1 v t1 H.
      rewrite (attempt_after_translation env persian_prompt
                 aspect_ratio_key ip retry_count w w1 v t1 H).
      cbn [map fst snd render_submission translate_submission].
      replace (S (draws_taken w + 26)) with (draws_taken w + 27) by lia.
      reflexivity.
  - cbv zeta. apply choices_at_alphabet.
  - intros other. unfold session_hash_at.
    split; intros H; apply choices_at_reads; exact H.
Qed.

(** The two tokens of the sample attempt whose translation returns: the
    draws of the sample are 0, 1, 2 and so on. *)
Lemma session_tokens_are_fresh_witness :
  map (fun s => (fst s, session_hash_of (snd s)))
    (submissions
       (trace_of (attempt Example.success_env "gorbe" "9:16"
                    (Some "2001:db8::1") 0 Sample.start)))
  = [(join_url_of TRANSLATOR_API_BASE_URL,
      Some (JStr "abcdefghijklmnopqrstuvwxyz"));
     (join_url_of IMAGE_GENERATOR_API_BASE_URL,
      Some (JStr "123456789abcdefghijklmnopq"))].
Proof.
  refine (proj2 (proj1 (proj2 (session_tokens_are_fresh Example.success_env
                                 "gorbe" "9:16" (Some "2001:db8::1") 0
                                 Sample.start)))
            _ _ _ _).
  vm_compute. reflexivity.
Defined.

(** ** The render payload *)

(** C7.  The size of the render payload is the entry of the fixed table
    for the aspect-ratio key, and the square entry 1024 by 1024 when the
    key is not in the table; the entry of the key 9:16 is 768 by 1344.
    Whenever an attempt sends a render submission, width and height of
    that size are the fourth and fifth element of its payload; and when
    the translation step returns, the attempt does send the render
    submission, with the translated prompt first and that size. *)
Theorem render_size_comes_from_table
    (env : environment) (persian_prompt aspect_ratio_key : string)
    (ip : option string) (retry_count : Z) (w : state) :
  let size :=
    match dict_lookup PREDEFINED_DIMENSIONS_MAP aspect_ratio_key with
    | Some d => d
    | None => Dimensions 1024 1024
    end in
  let render prompt_for_image :=
    (join_url_of IMAGE_GENERATOR_API_BASE_URL,
     api_payload_of
       [prompt_for_image;
        JInt (seed_at env (draws_taken w + 26));
        JBool DEFAULT_RANDOMIZE_SEED;
        JInt (width size);
        JInt (height size);
        DEFAULT_GUIDANCE_SCALE;
        JInt DEFAULT_INFERENCE_STEPS]
       IMAGE_GENERATOR_FN_INDEX
       (session_hash_at env (S (draws_taken w + 26)))
       (Some IMAGE_GENERATOR_TRIGGER_ID)) in
  let sent :=
    submissions
      (trace_of (attempt env persian_prompt aspect_ratio_key ip
                   retry_count w)) in
  dict_lookup PREDEFINED_DIMENSIONS_MAP "9:16" = Some (Dimensions 768 1344)
  /\ (dict_lookup PREDEFINED_DIMENSIONS_MAP aspect_ratio_key = None ->
      size = Dimensions 1024 1024)
  /\ dimensions_for aspect_ratio_key = size
  /\ (sent = [translate_submission env persian_prompt (draws_taken w)]
      \/ exists prompt_for_image,
          sent = [translate_submission env persian_prompt (draws_taken w);
                  render prompt_for_image])
  /\ (forall w1 v t1,
         translate_prompt env persian_prompt ip retry_count w
         = (Ret v, w1, t1) ->
         sent = [translate_submission env persian_prompt (draws_taken w);
                 render v]).
Proof.
  cbv zeta. split; [reflexivity|]. split; [|split; [reflexivity|split]].
  - intros Hnone. now rewrite Hnone.
  - exact (proj1 (attempt_submissions env persian_prompt aspect_ratio_key
                    ip retry_count w)).
  - intros w1 v t1 H.
    exact (attempt_after_translation env persian_prompt aspect_ratio_key
             ip retry_count w w1 v t1 H).
Qed.

(** The render submission of the sample attempt whose translation
    returns, for the key 9:16. *)
Lemma render_size_comes_from_table_witness :
  submissions
    (trace_of (attempt Example.success_env "gorbe" "9:16"
                 (Some "2001:db8::1") 0 Sample.start))
  = [translate_submission Example.success_env "gorbe" 0;
     (join_url_of IMAGE_GENERATOR_API_BASE_URL,
      api_payload_of
        [JStr "a cat"; JInt 26; JBool true; JInt 768; JInt 1344;
         DEFAULT_GUIDANCE_SCALE; JInt 28]
        2 "123456789abcdefghijklmnopq" (Some 5%Z))].
Proof.
  refine (proj2 (proj2 (proj2 (proj2
                   (render_size_comes_from_table Example.success_env
                      "gorbe" "9:16" (Some "2001:db8::1") 0 Sample.start))))
            _ (JStr "a cat") _ _).
  vm_compute. reflexivity.
Defined.

(** ** The empty address list *)

Section EmptyListFacts.

Variable env : environment.
Variables (persian_prompt aspect_ratio_key : string).

Lemma trace_bind_begins {A B} (m : M A) (f : A -> M B) (w : state) :
  exists rest, trace_of (bind m f w) = trace_of (m w) ++ rest.
Proof.
  unfold bind. destruct (m w) as [[[a|e|] w1] t1].
  - destruct (f a w1) as [[r2 w2] t2]. now exists t2.
  - exists []. cbn. now rewrite app_nil_r.
  - exists []. cbn. now rewrite app_nil_r.
Qed.

Lemma trace_try_except_begins {A} (m : M A) (h : exn -> M A) (w : state) :
  exists rest, trace_of (try_except m h w) = trace_of (m w) ++ rest.
Proof.
  unfold try_except. destruct (m w) as [[[a|e|] w1] t1].
  - exists []. cbn. now rewrite app_nil_r.
  - destruct (h e w1) as [[r2 w2] t2]. now exists t2.
  - exists []. cbn. now rewrite app_nil_r.
Qed.

(** The [for] loop starts with its first attempt. *)
Lemma retry_loop_begins (ip : option string) (retry_count : Z)
    (later : list Z) (w : state) :
  exists rest,
    trace_of (retry_loop env persian_prompt aspect_ratio_key ip
                (retry_count :: later) w)
    = trace_of (attempt env persian_prompt aspect_ratio_key ip
                  retry_count w) ++ rest.
Proof.
  cbn [retry_loop].
  destruct (trace_bind_begins
              (try_except
                 (bind (attempt env persian_prompt aspect_ratio_key ip
                          retry_count)
                    (fun value => ret (Return value)))
                 (on_failure ip retry_count))
              (fun l =>
                 match l with
                 | Return value => ret (Return value)
                 | Break => ret Break
                 | Continue =>
                     retry_loop env persian_prompt aspect_ratio_key ip later
                 end) w) as [rest1 ->].
  destruct (trace_try_except_begins
              (bind (attempt env persian_prompt aspect_ratio_key ip
                       retry_count)
                 (fun value => ret (Return value)))
              (on_failure ip retry_count) w) as [rest2 ->].
  destruct (trace_bind_begins
              (attempt env persian_prompt aspect_ratio_key ip retry_count)
              (fun value => ret (Return value)) w) as [rest3 ->].
  exists (rest3 ++ rest2 ++ rest1). now rewrite !app_assoc.
Qed.

Lemma attempts_started_app (a b : list event) :
  attempts_started (a ++ b) = attempts_started a ++ attempts_started b.
Proof. apply flat_map_app. Qed.

Lemma on_address_default_route (tr : list event) :
  Forall (on_address None) tr -> Forall default_route tr.
Proof.
  apply Forall_impl. intros [url body src|url src|n|line] H; cbn in *;
    try exact I; now destruct H.
Qed.

End EmptyListFacts.

(** C5.  With an empty address list the run goes on with the one-element
    list of the default route.  It takes that one entry, starts a first
    attempt on it, sends the translate submission, and every request of
    the run goes by the default route. *)
Theorem empty_list_runs_on_default_route
    (env : environment) (persian_prompt aspect_ratio_key : string)
    (w : state) :
  IPV6_ADDRESSES env = [] ->
  let run := start_full_process_with_ipv6_rotation env persian_prompt
               aspect_ratio_key w in
  run = bind (print WarningNoAddresses)
          (fun _ => rotation_loop env persian_prompt aspect_ratio_key
                      [None] []) w
  /\ addresses_taken (trace_of run) = [None]
  /\ (exists rest, attempts_started (trace_of run) = (None, 1%Z) :: rest)
  /\ (exists rest,
         submissions (trace_of run)
         = translate_submission env persian_prompt (draws_taken w) :: rest)
  /\ Forall default_route (trace_of run).
Proof.
  intros Hempty. cbv zeta.
  assert (Hrun : start_full_process_with_ipv6_rotation env persian_prompt
                   aspect_ratio_key w
                 = bind (print WarningNoAddresses)
                     (fun _ => rotation_loop env persian_prompt
                                 aspect_ratio_key [None] []) w).
  { unfold start_full_process_with_ipv6_rotation. rewrite Hempty.
    cbn [map]. unfold bind, print, emit, ret. cbv beta iota.
    destruct (rotation_loop env persian_prompt aspect_ratio_key
                [None] [] w) as [[r w'] tr].
    reflexivity. }
  split; [exact Hrun|]. rewrite Hrun. clear Hrun.
  assert (Htrace :
            trace_of (bind (print WarningNoAddresses)
                        (fun _ => rotation_loop env persian_prompt
                                    aspect_ratio_key [None] []) w)
            = Print WarningNoAddresses
              :: trace_of (rotation_loop env persian_prompt aspect_ratio_key
                             [None] [] w)).
  { unfold bind, print, emit. cbv beta iota.
    destruct (rotation_loop env persian_prompt aspect_ratio_key
                [None] [] w) as [[r w'] tr].
    reflexivity. }
  rewrite Htrace. clear Htrace.
  destruct (rotation_loop_trace env persian_prompt aspect_ratio_key None
              [] [] w) as (tail & -> & Htail).
  pose proof (retry_loop_on_address env persian_prompt aspect_ratio_key
                None (range max_retries_per_ip) w) as Hseg.
  change (range max_retries_per_ip) with [0%Z; 1%Z] in *.
  destruct (retry_loop_begins env persian_prompt aspect_ratio_key None 0
              [1%Z] w) as [rest Hbegin].
  destruct (attempt_submissions env persian_prompt aspect_ratio_key None 0
              w) as [Hsub [rest' Hfirst]].
  assert (Hsub' : exists more,
             submissions (trace_of (attempt env persian_prompt
                                      aspect_ratio_key None 0 w))
             = translate_submission env persian_prompt (draws_taken w)
               :: more).
  { destruct Hsub as [->|[p ->]]; eauto. }
  destruct Hsub' as [more Hsub'].
  assert (Htail' : tail = [] \/ tail = [Print ErrorAllFailed]).
  { destruct Htail as [->|[w1 ->]]; [now left|now right]. }
  clear Htail Hsub.
  set (seg := trace_of (retry_loop env persian_prompt aspect_ratio_key None
                          [0%Z; 1%Z] w)) in *.
  set (att := trace_of (attempt env persian_prompt aspect_ratio_key None 0
                          w)) in *.
  clearbody seg att.
  split; [|split; [|split]].
  - change (Print WarningNoAddresses
            :: Print (InfoAttemptingWith None (length (@nil (option string))))
            :: seg ++ tail)
      with ([Print WarningNoAddresses]
            ++ Print (InfoAttemptingWith None 0) :: seg ++ tail).
    rewrite addresses_taken_app, addresses_taken_next, addresses_taken_app,
      (on_address_not_taken _ _ Hseg).
    destruct Htail' as [->| ->]; reflexivity.
  - change (Print WarningNoAddresses
            :: Print (InfoAttemptingWith None (length (@nil (option string))))
            :: seg ++ tail)
      with ([Print WarningNoAddresses; Print (InfoAttemptingWith None 0)]
            ++ seg ++ tail).
    rewrite !attempts_started_app, Hbegin, Hfirst.
    cbn. eexists. reflexivity.
  - change (Print WarningNoAddresses
            :: Print (InfoAttemptingWith None (length (@nil (option string))))
            :: seg ++ tail)
      with ([Print WarningNoAddresses; Print (InfoAttemptingWith None 0)]
            ++ seg ++ tail).
    rewrite !submissions_app, Hbegin, submissions_app, Hsub'.
    cbn. eexists. reflexivity.
  - repeat constructor.
    apply Forall_app. split.
    + now apply on_address_default_route.
    + destruct Htail' as [->| ->]; repeat constructor.
Qed.

(** The sample world without addresses. *)
Lemma empty_list_runs_on_default_route_witness :
  addresses_taken
    (trace_of (start_full_process_with_ipv6_rotation Sample.no_address_env
                 "gorbe" "9:16" Sample.start))
  = [None].
Proof.
  exact (proj1 (proj2 (empty_list_runs_on_default_route
                         Sample.no_address_env "gorbe" "9:16" Sample.start
                         eq_refl))).
Defined.

(** ** Terminal failure records *)

Section SwallowedFailures.

Variable env : environment.

Lemma scan_events_queue_full (event_id : json) (service_name : string)
    (record : json) (rest : list json) (w : state) :
  queue_full_record event_id record ->
  scan_events event_id service_name (record :: rest) w =
  (Raise (GPUQuotaError ("Queue for " +++ service_name +++ " is full.")),
   w, []).
Proof.
  intros (fields & id & -> & Hid & Heq & Hmsg).
  cbn [scan_events]. unfold bind, dict_get, ret.
  rewrite Hid, Heq, Hmsg. reflexivity.
Qed.

(** The [GPUQuotaError] of line 194 is raised inside the [try] block of
    the cycle, where the clause of line 208 catches it: the cycle prints
    it, sleeps and lets the loop go on. *)
Lemma poll_cycle_swallows_queue_full (event_id : json)
    (service_name : string) (s : session) (data_url : string) (w : state)
    (text : string) (record : json) (others : list json) :
  outcome (get_replies env (gets_sent w)) = Replied text ->
  spec_decoded env (PyStr.split_lines (PyStr.strip text))
  = record :: others ->
  queue_full_record event_id record ->
  outcome_of (poll_cycle env event_id service_name s data_url w) = Ret Again
  /\ In (Print (ErrorUnhandledPolling service_name
                  (GPUQuotaError
                     ("Queue for " +++ service_name +++ " is full."))))
        (trace_of (poll_cycle env event_id service_name s data_url w)).
Proof.
  intros Hreply Hdecoded Hrecord.
  assert (E : exists w' before,
             poll_cycle env event_id service_name s data_url w
             = (Ret Again, w',
                before
                ++ [Print (ErrorUnhandledPolling service_name
                             (GPUQuotaError
                                ("Queue for " +++ service_name
                                 +++ " is full.")));
                    Sleep 5])).
  { set (w1 := State (clock w + Z.of_N (took (get_replies env (gets_sent w))))
                  (posts_sent w) (S (gets_sent w)) (draws_taken w)
                  (last_progress_update w)).
    assert (Eget : s_get env s data_url w
                   = (Ret text, w1, [Get data_url (bound_address s data_url)])).
    { unfold s_get. now rewrite Hreply. }
    assert (Eonce : exists before,
               poll_once env event_id service_name s data_url w
               = (Raise (GPUQuotaError
                           ("Queue for " +++ service_name +++ " is full.")),
                  w1, before)).
    { unfold poll_once.
      rewrite (bind_runs_on _ _ _ _ _ _ Eget).
      rewrite (bind_runs_on _ _ _ _ _ _ (collect_events_decodes env _ w1)).
      rewrite Hdecoded.
      rewrite (bind_stops _ _ _ _ _ _
                 (scan_events_queue_full _ _ _ _ w1 Hrecord)).
      eexists. reflexivity. }
    destruct Eonce as [before Eonce].
    unfold poll_cycle. rewrite (try_except_handles _ _ _ _ _ _ Eonce).
    exists (state_of (on_poll_failure service_name
                        (GPUQuotaError
                           ("Queue for " +++ service_name +++ " is full."))
                        w1)), before.
    reflexivity. }
  destruct E as (w' & before & ->). split; [reflexivity|].
  apply in_or_app. right. left. reflexivity.
Qed.

End SwallowedFailures.

(** C2, at the failing input: every poll answers with a [queue_full]
    record of the awaited job.  The await call does not fail with a
    [GPUQuotaError]: each cycle prints the error as unhandled and sleeps,
    the loop polls 50 times, and the call ends with the [ConnectionError]
    of line 212 when the 300 seconds are over. *)
Theorem queue_full_record_does_not_end_polling :
  let run := poll_gradio_sse_status Sample.queue_full_env
               TRANSLATOR_API_BASE_URL "hash" (JStr "e1") "Translator"
               None 300 Sample.start in
  outcome_of run
  = Raise (ConnectionError
             "Polling Translator stream timed out after 300 seconds. No completion received.")
  /\ gets_sent (state_of run) = 50
  /\ In (Print (ErrorUnhandledPolling "Translator"
                  (GPUQuotaError "Queue for Translator is full.")))
        (trace_of run).
Proof.
  vm_compute. split; [reflexivity|]. split; [reflexivity|].
  right. left. reflexivity.
Qed.

(** ** Every call ends

    The fuel of the poll loop is never used up: a pass that lets the loop
    go on moves the clock by at least 2 seconds. *)

Section Finishes.

Variable env : environment.

Lemma finishes_ret {A} (a : A) : finishes (ret a).
Proof. intros w. discriminate. Qed.

Lemma finishes_raise {A} (e : exn) : finishes (@raise A e).
Proof. intros w. discriminate. Qed.

Lemma finishes_bind {A B} (m : M A) (f : A -> M B) :
  finishes m -> (forall a, finishes (f a)) -> finishes (bind m f).
Proof.
  intros Hm Hf w. specialize (Hm w). unfold bind.
  destruct (m w) as [[[a|e|] w1] t1]; try discriminate.
  - specialize (Hf a w1). now destruct (f a w1) as [[r2 w2] t2].
  - now destruct Hm.
Qed.

Lemma finishes_try_except {A} (m : M A) (h : exn -> M A) :
  finishes m -> (forall e, finishes (h e)) -> finishes (try_except m h).
Proof.
  intros Hm Hh w. specialize (Hm w). unfold try_except.
  destruct (m w) as [[[a|e|] w1] t1]; try discriminate.
  - specialize (Hh e w1). now destruct (h e w1) as [[r2 w2] t2].
  - now destruct Hm.
Qed.

Lemma finishes_print (line : printed) : finishes (print line).
Proof. intros w. discriminate. Qed.

Lemma finishes_time_sleep (seconds : Z) : finishes (time_sleep seconds).
Proof. intros w. discriminate. Qed.

Lemma finishes_time_time : finishes time_time.
Proof. intros w. discriminate. Qed.

Lemma finishes_get_last_progress_update : finishes get_last_progress_update.
Proof. intros w. discriminate. Qed.

Lemma finishes_set_last_progress_update (t : Z) :
  finishes (set_last_progress_update t).
Proof. intros w. discriminate. Qed.

Lemma finishes_global_name (name : string) : finishes (global_name name).
Proof.
  unfold global_name. destruct existsb; intros w; discriminate.
Qed.

Lemma finishes_s_get (s : session) (url : string) : finishes (s_get env s url).
Proof.
  intros w. unfold s_get, outcome_of. cbn [fst].
  destruct (outcome _); discriminate.
Qed.

Lemma finishes_s_post (s : session) (url : string) (body : json) :
  finishes (s_post env s url body).
Proof.
  intros w. unfold s_post, outcome_of. cbn [fst].
  destruct (outcome _); discriminate.
Qed.

Lemma finishes_random_draw : finishes (random_draw env).
Proof. intros [now posts gets draws last]. discriminate. Qed.

Lemma finishes_dict_get (d : json) (key : string) (default : json) :
  finishes (dict_get d key default).
Proof. destruct d; intros w; discriminate. Qed.

Lemma finishes_item0 (v : json) : finishes (item0 v).
Proof. destruct v as [| | | |[|]|[|]|]; intros w; discriminate. Qed.

Lemma finishes_slice_to (n : nat) (v : json) : finishes (slice_to n v).
Proof. destruct v; intros w; discriminate. Qed.

Ltac finishes_step :=
  match goal with
  | |- finishes (bind _ _) => apply finishes_bind; [|intros ?]
  | |- finishes (try_except _ _) => apply finishes_try_except; [|intros ?]
  | |- finishes (ret _) => apply finishes_ret
  | |- finishes (raise _) => apply finishes_raise
  | |- finishes (print _) => apply finishes_print
  | |- finishes time_time => apply finishes_time_time
  | |- finishes get_last_progress_update =>
      apply finishes_get_last_progress_update
  | |- finishes (set_last_progress_update _) =>
      apply finishes_set_last_progress_update
  | |- finishes (time_sleep _) => apply finishes_time_sleep
  | |- finishes (dict_get _ _ _) => apply finishes_dict_get
  | |- finishes (item0 _) => apply finishes_item0
  | |- finishes (slice_to _ _) => apply finishes_slice_to
  | |- finishes (s_get _ _ _) => apply finishes_s_get
  | |- finishes (s_post _ _ _ _) => apply finishes_s_post
  | |- finishes (random_draw _) => apply finishes_random_draw
  | |- finishes (global_name _) => apply finishes_global_name
  | |- finishes (if ?b then _ else _) => destruct b
  | |- finishes (match ?x with _ => _ end) => destruct x
  end.

Lemma finishes_collect_events (events : list string) :
  finishes (collect_events env events).
Proof.
  intros w. rewrite collect_events_decodes. discriminate.
Qed.

Lemma finishes_completed (service_name : string) (event_data : json) :
  finishes (completed service_name event_data).
Proof. unfold completed. repeat finishes_step. Qed.

Lemma finishes_scan_events (event_id : json) (service_name : string)
    (processed_events : list json) :
  finishes (scan_events event_id service_name processed_events).
Proof.
  induction processed_events as [|event_data rest IH]; cbn [scan_events].
  - apply finishes_ret.
  - repeat first [exact IH | apply finishes_completed | finishes_step].
Qed.

Lemma finishes_poll_once (event_id : json) (service_name : string)
    (s : session) (url : string) :
  finishes (poll_once env event_id service_name s url).
Proof.
  unfold poll_once.
  repeat first [ apply finishes_collect_events
               | apply finishes_scan_events | finishes_step ].
Qed.

Lemma finishes_on_poll_failure (service_name : string) (e : exn) :
  finishes (on_poll_failure service_name e).
Proof. unfold on_poll_failure. repeat finishes_step. Qed.

Lemma finishes_poll_cycle (event_id : json) (service_name : string)
    (s : session) (url : string) :
  finishes (poll_cycle env event_id service_name s url).
Proof.
  unfold poll_cycle. apply finishes_try_except.
  - apply finishes_poll_once.
  - apply finishes_on_poll_failure.
Qed.

Lemma later_scan_events (event_id : json) (service_name : string)
    (processed_events : list json) (w w' : state)
    (r : result (option json)) (tr : list event) :
  scan_events event_id service_name processed_events w = (r, w', tr) ->
  later w w'.
Proof.
  intros E.
  refine (proj1 (respects_scan_events None later (fun _ => True)
                   _ _ _ _ _ _ _ _ _ _ _ E)); unfold later; cbn; intros;
    auto; lia.
Qed.

Lemma later_s_get (s : session) (url : string) (w w' : state)
    (r : result string) (tr : list event) :
  s_get env s url w = (r, w', tr) -> later w w'.
Proof. intros [= <- <- <-]. unfold later. cbn. lia. Qed.

(** A pass of the [try] block that lets the loop go on has slept 2
    seconds; a pass that raises has not moved the clock back. *)
Lemma poll_once_advances (event_id : json) (service_name : string)
    (s : session) (url : string) (w w' : state) (r : result cycle)
    (tr : list event) :
  poll_once env event_id service_name s url w = (r, w', tr) ->
  later w w' /\ (r = Ret Again -> (clock w + 2 <= clock w')%Z).
Proof.
  intros H. unfold poll_once in H.
  bind_inv H; apply later_s_get in E; unfold later in *;
    [|split; [exact E|discriminate]..].
  rename E into Hget.
  bind_inv H; rewrite collect_events_decodes in E; try discriminate E.
  injection E as <- <- <-.
  bind_inv H; apply later_scan_events in E; unfold later in *;
    [|split; [lia|discriminate]..].
  match type of H with
  | match ?found with _ => _ end _ = _ => destruct found as [data|]
  end.
  - injection H as <- <- <-. split; [lia|discriminate].
  - injection H as <- <- <-. cbn [clock]. split; intros; lia.
Qed.

Lemma on_poll_failure_advances (service_name : string) (e : exn)
    (w w' : state) (tr : list event) :
  on_poll_failure service_name e w = (Ret Again, w', tr) ->
  (clock w + 5 <= clock w')%Z.
Proof.
  destruct e; cbn [on_poll_failure];
    try (intros [= <- <-]; cbn [clock]; lia).
  destruct has_resource_keyword; discriminate.
Qed.

Lemma poll_cycle_advances (event_id : json) (service_name : string)
    (s : session) (url : string) (w w' : state) (tr : list event) :
  poll_cycle env event_id service_name s url w = (Ret Again, w', tr) ->
  (clock w + 2 <= clock w')%Z.
Proof.
  intros H. unfold poll_cycle in H.
  apply try_except_cases in H
    as [(e & w1 & t1 & t2 & Eonce & Eh & ->)|[Eonce _]].
  - apply poll_once_advances in Eonce as [Hl _].
    apply on_poll_failure_advances in Eh. unfold later in Hl. lia.
  - apply poll_once_advances in Eonce as [_ Hadv]. now apply Hadv.
Qed.

Lemma finishes_poll_loop_from (event_id : json) (service_name : string)
    (max_poll_time : Z) (s : session) (url : string) (start_time : Z)
    (fuel : nat) (w : state) :
  0 < fuel ->
  (max_poll_time - (clock w - start_time) + 2 <= 2 * Z.of_nat fuel)%Z ->
  outcome_of (poll_loop env event_id service_name max_poll_time fuel s url
                start_time w) <> OutOfFuel.
Proof.
  revert w. induction fuel as [|fuel IH]; intros w Hpos Hfuel; [lia|].
  cbn [poll_loop]. unfold bind at 1, time_time.
  destruct (clock w - start_time <? max_poll_time)%Z eqn:Hlt;
    [|discriminate].
  apply Z.ltb_lt in Hlt.
  pose proof (finishes_poll_cycle event_id service_name s url w) as Hcycle.
  unfold bind.
  destruct (poll_cycle env event_id service_name s url w)
    as [[[[data|]|e|] w1] t1] eqn:E; try discriminate.
  - apply poll_cycle_advances in E.
    assert (Hnext : outcome_of
                      (poll_loop env event_id service_name max_poll_time
                         fuel s url start_time w1) <> OutOfFuel).
    { apply IH; lia. }
    now destruct (poll_loop env event_id service_name max_poll_time fuel s
                    url start_time w1) as [[r2 w2] t2].
  - now destruct Hcycle.
Qed.

Lemma finishes_poll_gradio_sse_status
    (base_url session_hash : string) (event_id : json)
    (service_name : string) (source_ip : option string)
    (max_poll_time : Z) :
  finishes (poll_gradio_sse_status env base_url session_hash event_id
              service_name source_ip max_poll_time).
Proof.
  intros w. unfold poll_gradio_sse_status.
  unfold bind at 1 2 3, time_time, set_last_progress_update.
  set (w1 := State _ _ _ _ _).
  pose proof (finishes_poll_loop_from event_id service_name max_poll_time
                (new_session env source_ip)
                (base_url +++ "/gradio_api/queue/data?session_hash="
                 +++ session_hash)
                (clock w) (poll_fuel max_poll_time) w1) as H.
  destruct (poll_loop env event_id service_name max_poll_time
              (poll_fuel max_poll_time) (new_session env source_ip)
              (base_url +++ "/gradio_api/queue/data?session_hash="
               +++ session_hash) (clock w) w1) as [[r2 w2] t2].
  apply H; unfold poll_fuel; subst w1; cbn [clock]; lia.
Qed.

Lemma finishes_random_choices (population : string) (k : nat) :
  finishes (random_choices env population k).
Proof.
  induction k as [|k IH]; cbn [random_choices].
  - apply finishes_ret.
  - repeat first [exact IH | finishes_step].
Qed.

Lemma finishes_call_gradio_api_with_ipv6
    (base_url : string) (fn_index : Z) (data_payload : list json)
    (session_hash : string) (trigger_id : option Z)
    (source_ip : option string) :
  finishes (call_gradio_api_with_ipv6 env base_url fn_index data_payload
              session_hash trigger_id source_ip).
Proof.
  unfold call_gradio_api_with_ipv6.
  apply finishes_bind.
  - destruct source_ip; [destruct mounts_adapter|]; apply finishes_print.
  - intros _. repeat finishes_step.
Qed.

Ltac finishes_call :=
  match goal with
  | |- finishes (generate_session_hash _) =>
      unfold generate_session_hash; apply finishes_random_choices
  | |- finishes (random_seed _) => unfold random_seed
  | |- finishes (call_gradio_api_with_ipv6 _ _ _ _ _ _ _) =>
      apply finishes_call_gradio_api_with_ipv6
  | |- finishes (poll_gradio_sse_status _ _ _ _ _ _ _) =>
      apply finishes_poll_gradio_sse_status
  | |- finishes (prompt_for_image_of _) => unfold prompt_for_image_of
  | |- finishes (final_image_url_of _) => unfold final_image_url_of
  end.

Section RunFinishes.

Variables (persian_prompt aspect_ratio_key : string).

Lemma finishes_attempt (ip : option string) (retry_count : Z) :
  finishes (attempt env persian_prompt aspect_ratio_key ip retry_count).
Proof.
  unfold attempt, translate_prompt, create_image.
  repeat first [finishes_call | finishes_step].
Qed.

Lemma finishes_on_failure (ip : option string) (retry_count : Z) (e : exn) :
  finishes (on_failure ip retry_count e).
Proof. unfold on_failure, asyncio_sleep. repeat finishes_step. Qed.

Lemma finishes_retry_loop (ip : option string) (retry_counts : list Z) :
  finishes (retry_loop env persian_prompt aspect_ratio_key ip retry_counts).
Proof.
  induction retry_counts as [|retry_count later IH]; cbn [retry_loop].
  - apply finishes_ret.
  - repeat first [ exact IH | apply finishes_attempt
                 | apply finishes_on_failure | finishes_step ].
Qed.

Lemma finishes_rotation_loop (available tried : list (option string)) :
  finishes (rotation_loop env persian_prompt aspect_ratio_key available
              tried).
Proof.
  revert tried. induction available as [|ip remaining IH]; intros tried;
    cbn [rotation_loop].
  - repeat finishes_step.
  - apply finishes_bind; [apply finishes_print|]. intros _.
    apply finishes_bind; [apply finishes_retry_loop|].
    intros l. destruct l; try apply IH. apply finishes_ret.
Qed.

(** A run always ends: it returns a result or raises. *)
Lemma finishes_start_full_process_with_ipv6_rotation :
  finishes (start_full_process_with_ipv6_rotation env persian_prompt
              aspect_ratio_key).
Proof.
  unfold start_full_process_with_ipv6_rotation.
  apply finishes_bind.
  - destruct (map Some (IPV6_ADDRESSES env)); repeat finishes_step.
  - intros available. apply finishes_rotation_loop.
Qed.

End RunFinishes.

End Finishes.

(** * Further properties of the code *)

(** ** Loading the address list *)

Section ShuffleFacts.

Context {A : Type}.

Lemma list_set_permutes (i : nat) (x a : A) (l : list A) :
  nth_error l i = Some a ->
  Permutation (x :: l) (a :: list_set i x l).
Proof.
  revert i. induction l as [|h t IH]; intros [|i] H; try discriminate.
  - injection H as ->. cbn [list_set]. apply perm_swap.
  - cbn [list_set]. cbn in H.
    rewrite perm_swap. rewrite (IH _ H). apply perm_swap.
Qed.

Lemma nth_error_list_set (i j : nat) (x a : A) (l : list A) :
  nth_error l i = Some a ->
  nth_error (list_set i x l) j
  = if Nat.eqb j i then Some x else nth_error l j.
Proof.
  revert i j. induction l as [|h t IH]; intros [|i] [|j] H;
    try discriminate; try reflexivity.
  cbn in H. cbn [list_set nth_error]. rewrite (IH _ _ H). reflexivity.
Qed.

(** A swap keeps the elements of the list. *)
Lemma swap_permutes (i j : nat) (x : list A) : Permutation (swap i j x) x.
Proof.
  unfold swap.
  destruct (nth_error x j) as [xj|] eqn:Hj; [|reflexivity].
  destruct (nth_error x i) as [xi|] eqn:Hi; [|reflexivity].
  pose proof (list_set_permutes i xj xi x Hi) as H1.
  assert (Hj' : nth_error (list_set i xj x) j = Some xj).
  { rewrite (nth_error_list_set _ _ _ _ _ Hi).
    destruct (Nat.eqb j i); [reflexivity|exact Hj]. }
  pose proof (list_set_permutes j xi xj _ Hj') as H2.
  apply (Permutation_cons_inv (a := xj)).
  rewrite <- H2, <- H1. reflexivity.
Qed.

End ShuffleFacts.

Section LoaderFacts.

Variable env : environment.

(** The shuffle never fails, leaves no event, takes one draw for each
    index from the last down to 1, and keeps the elements. *)
Lemma shuffle_down_runs {A} (i : nat) (x : list A) (w : state) :
  exists y,
    shuffle_down env i x w
    = (Ret y,
       State (clock w) (posts_sent w) (gets_sent w) (draws_taken w + i)
             (last_progress_update w),
       [])
    /\ Permutation y x.
Proof.
  revert x w. induction i as [|i IH]; intros x w.
  - exists x. rewrite Nat.add_0_r. destruct w. split; reflexivity.
  - cbn [shuffle_down]. destruct w as [now posts gets draws last].
    unfold bind. cbn [random_draw].
    destruct (IH (swap (S i) (random_draws env draws mod S (S i)) x)
                (State now posts gets (S draws) last)) as (y & -> & Hy).
    exists y. cbn [clock posts_sent gets_sent draws_taken
                   last_progress_update app].
    rewrite Nat.add_succ_r. split; [reflexivity|].
    rewrite Hy. apply swap_permutes.
Qed.

(** Python's [str.isspace] holds for the line feed. *)
Lemma newline_is_space : PyStr.is_space PyStr.newline = true.
Proof. reflexivity. Qed.

Lemma lstrip_head (s : string) :
  match PyStr.lstrip s with
  | EmptyString => True
  | String c _ => PyStr.is_space c = false
  end.
Proof.
  induction s as [|c r IH]; [exact I|].
  cbn [PyStr.lstrip]. destruct (PyStr.is_space c) eqn:Hc; [exact IH|exact Hc].
Qed.

Lemma rstrip_head (c : ascii) (r : string) :
  PyStr.is_space c = false ->
  exists kept, PyStr.rstrip (String c r) = String c kept.
Proof.
  intros Hc. cbn [PyStr.rstrip]. rewrite Hc.
  destruct (PyStr.rstrip r); eauto.
Qed.

Lemma rstrip_idempotent (s : string) :
  PyStr.rstrip (PyStr.rstrip s) = PyStr.rstrip s.
Proof.
  induction s as [|c r IH]; [reflexivity|].
  cbn [PyStr.rstrip].
  destruct (PyStr.rstrip r) as [|d kept] eqn:Hr.
  - destruct (PyStr.is_space c) eqn:Hc; [reflexivity|].
    cbn [PyStr.rstrip]. now rewrite Hc.
  - change (PyStr.rstrip (String c (String d kept)))
      with (match PyStr.rstrip (String d kept) with
            | EmptyString =>
                if PyStr.is_space c then EmptyString
                else String c EmptyString
            | kept' => String c kept'
            end).
    now rewrite IH.
Qed.

(** Stripping twice is stripping once. *)
Lemma strip_idempotent (s : string) :
  PyStr.strip (PyStr.strip s) = PyStr.strip s.
Proof.
  unfold PyStr.strip.
  pose proof (lstrip_head s) as Hhead.
  destruct (PyStr.lstrip s) as [|c r]; [reflexivity|].
  destruct (rstrip_head c r Hhead) as [kept Hkept].
  rewrite Hkept. cbn [PyStr.lstrip]. rewrite Hhead.
  rewrite <- Hkept. apply rstrip_idempotent.
Qed.

Lemma file_lines_shaped (text : string) :
  Forall (fun line => line <> EmptyString /\ line_shaped line)
    (file_lines text).
Proof.
  induction text as [|c r IH]; [constructor|].
  cbn [file_lines]. destruct (Ascii.eqb c PyStr.newline) eqn:Hc.
  - constructor; [|exact IH]. split; [discriminate|exact I].
  - apply Ascii.eqb_neq in Hc.
    destruct (file_lines r) as [|first others].
    + constructor; [|constructor]. split; [discriminate|exact I].
    + inversion IH as [|? ? [Hne Hshape] Hothers]; subst.
      constructor; [|exact Hothers]. split; [discriminate|].
      destruct first; [congruence|]. split; assumption.
Qed.

Lemma lstrip_shaped (s : string) :
  line_shaped s -> line_shaped (PyStr.lstrip s).
Proof.
  induction s as [|c r IH]; intros H; [exact I|].
  cbn [PyStr.lstrip]. destruct (PyStr.is_space c); [|exact H].
  apply IH. destruct r; [exact I|]. apply H.
Qed.

Lemma rstrip_no_line_feed (s : string) :
  line_shaped s -> no_line_feed (PyStr.rstrip s).
Proof.
  unfold no_line_feed.
  induction s as [|c r IH]; intros H; [intros []|].
  cbn [PyStr.rstrip].
  destruct r as [|d r'].
  - cbn [PyStr.rstrip].
    destruct (PyStr.is_space c) eqn:Hc; [intros []|].
    intros [E|[]]. rewrite E, newline_is_space in Hc. discriminate Hc.
  - destruct H as [Hc Hr]. specialize (IH Hr).
    destruct (PyStr.rstrip (String d r')) as [|k kept].
    + destruct (PyStr.is_space c); [intros []|].
      intros [E|[]]. now apply Hc.
    + intros [E|Hin]; [now apply Hc|]. now apply IH.
Qed.

Lemma strip_no_line_feed (line : string) :
  line_shaped line -> no_line_feed (PyStr.strip line).
Proof.
  intros H. apply rstrip_no_line_feed, lstrip_shaped, H.
Qed.

Lemma lstrip_keeps (c : ascii) (s : string) :
  In c (list_ascii_of_string (PyStr.lstrip s)) ->
  In c (list_ascii_of_string s).
Proof.
  induction s as [|d r IH]; [intros []|].
  cbn [PyStr.lstrip]. destruct (PyStr.is_space d); [|exact (fun H => H)].
  intros H. right. exact (IH H).
Qed.

Lemma rstrip_keeps (c : ascii) (s : string) :
  In c (list_ascii_of_string (PyStr.rstrip s)) ->
  In c (list_ascii_of_string s).
Proof.
  induction s as [|d r IH]; [intros []|].
  cbn [PyStr.rstrip].
  destruct (PyStr.rstrip r) as [|k kept].
  - destruct (PyStr.is_space d); [intros []|].
    intros [E|[]]. left. exact E.
  - intros [E|H]; [left; exact E|right; exact (IH H)].
Qed.

Lemma strip_keeps (c : ascii) (s : string) :
  In c (list_ascii_of_string (PyStr.strip s)) ->
  In c (list_ascii_of_string s).
Proof. intros H. apply lstrip_keeps, rstrip_keeps, H. Qed.

Lemma file_lines_keep (c : ascii) (text line : string) :
  In line (file_lines text) ->
  In c (list_ascii_of_string line) ->
  In c (list_ascii_of_string text).
Proof.
  revert line. induction text as [|d r IH]; intros line; [intros []|].
  cbn [file_lines]. destruct (Ascii.eqb d PyStr.newline).
  - intros [<-|Hin] Hc.
    + destruct Hc as [E|[]]. left. exact E.
    + right. exact (IH _ Hin Hc).
  - destruct (file_lines r) as [|first others].
    + intros [<-|[]] [E|[]]. left. exact E.
    + intros [<-|Hin] Hc.
      * destruct Hc as [E|Hc]; [left; exact E|].
        right. apply (IH first); [left; reflexivity|exact Hc].
      * right. apply (IH line); [right; exact Hin|exact Hc].
Qed.

(** No carriage return is left in a text read with universal newlines. *)
Lemma universal_newlines_no_carriage_return (n : nat) (text : string) :
  String.length text <= n ->
  no_carriage_return (universal_newlines text).
Proof.
  unfold no_carriage_return. revert text.
  induction n as [|n IH]; intros text Hlen.
  - destruct text; [intros []|cbn in Hlen; lia].
  - destruct text as [|c r]; [intros []|].
    cbn [String.length] in Hlen. cbn [universal_newlines].
    destruct (Ascii.eqb c carriage_return) eqn:Hc.
    + destruct r as [|d r'].
      * intros [E|[]]. discriminate E.
      * cbn [String.length] in Hlen.
        destruct (Ascii.eqb d PyStr.newline);
          (intros [E|H]; [discriminate E|]).
        -- apply (IH r'); [lia|exact H].
        -- apply (IH (String d r')); [cbn [String.length]; lia|exact H].
    + apply Ascii.eqb_neq in Hc.
      intros [E|H]; [now apply Hc|].
      apply (IH r); [lia|exact H].
Qed.

Lemma stripped_lines_clean (text : string) :
  Forall clean_address (stripped_lines text).
Proof.
  unfold stripped_lines.
  pose proof (file_lines_shaped (universal_newlines text)) as H.
  assert (Hcr : forall line,
             In line (file_lines (universal_newlines text)) ->
             no_carriage_return (PyStr.strip line)).
  { intros line Hin Hc.
    apply (universal_newlines_no_carriage_return _ text (le_n _)).
    apply (file_lines_keep _ _ line Hin), strip_keeps, Hc. }
  induction H as [|line lines [_ Hshape] _ IH]; [constructor|].
  cbn [flat_map].
  assert (Hrest : Forall clean_address
                    (flat_map (fun line =>
                                 if PyStr.nonempty (PyStr.strip line)
                                 then [PyStr.strip line] else []) lines)).
  { apply IH. intros l Hl. apply Hcr. right. exact Hl. }
  destruct (PyStr.nonempty (PyStr.strip line)) eqn:Hne; [|exact Hrest].
  constructor; [|exact Hrest].
  split; [|split; [|split]].
  - intros E. rewrite E in Hne. discriminate.
  - apply strip_idempotent.
  - now apply strip_no_line_feed.
  - apply Hcr. left. reflexivity.
Qed.

Lemma load_ipv6_addresses_runs (text : string) (previous : list string)
    (w : state) :
  exists addresses printed w',
    load_ipv6_addresses env (Content text) previous w
    = (Ret (inr (addresses, printed)), w', [])
    /\ Permutation addresses (stripped_lines text)
    /\ (In CriticalNoAddresses printed <-> addresses = []).
Proof.
  unfold load_ipv6_addresses, random_shuffle.
  destruct (shuffle_down_runs (length (stripped_lines text) - 1)
              (stripped_lines text) w) as (y & Hrun & Hperm).
  unfold bind at 1 2. rewrite Hrun. unfold ret.
  destruct y; eexists; eexists; eexists; (split; [reflexivity|]);
    (split; [exact Hperm|]).
  - split; [reflexivity|]. intros _. right. left. reflexivity.
  - split; [|intros E; discriminate E].
    intros [E|[]]. discriminate E.
Qed.

(** What a load that returns has printed. *)
Lemma load_ipv6_addresses_returns (file : file_state)
    (previous : list string) (w : state) (addresses : list string)
    (printed : list startup_printed) :
  outcome_of (load_ipv6_addresses env file previous w)
  = Ret (inr (addresses, printed)) ->
  In CriticalNoAddresses printed <-> addresses = [].
Proof.
  destruct file as [|e|text].
  - unfold load_ipv6_addresses, bind, ret.
    destruct previous as [|a previous]; intros [= <- <-].
    + split; [reflexivity|]. intros _. right. left. reflexivity.
    + split; [|intros E; discriminate E].
      intros [E|[]]. discriminate E.
  - intros E. discriminate E.
  - destruct (load_ipv6_addresses_runs text previous w)
      as (addresses' & printed' & w' & -> & _ & Hiff).
    intros [= <- <-]. exact Hiff.
Qed.

End LoaderFacts.

(** The first entry a run takes is the first address of the list, and
    the default route when the list is empty. *)
Lemma run_takes_first_entry
    (env : environment) (persian_prompt aspect_ratio_key : string)
    (w : state) :
  exists rest,
    addresses_taken
      (trace_of (start_full_process_with_ipv6_rotation env persian_prompt
                   aspect_ratio_key w))
    = match IPV6_ADDRESSES env with
      | [] => None
      | first :: _ => Some first
      end :: rest.
Proof.
  unfold start_full_process_with_ipv6_rotation.
  destruct (IPV6_ADDRESSES env) as [|first others].
  - cbn [map].
    assert (Hwarn : (print WarningNoAddresses ;; ret [@None string]) w
                    = (Ret [None], w, [Print WarningNoAddresses]))
      by reflexivity.
    rewrite (bind_runs_on _ _ _ _ _ _ Hwarn).
    cbn [trace_of snd].
    destruct (rotation_loop_trace env persian_prompt aspect_ratio_key
                None [] [] w) as (tail & -> & _).
    rewrite addresses_taken_app, addresses_taken_next.
    eexists. reflexivity.
  - cbn [map]. rewrite bind_ret.
    destruct (rotation_loop_trace env persian_prompt aspect_ratio_key
                (Some first) (map Some others) [] w) as (tail & -> & _).
    rewrite addresses_taken_next. eexists. reflexivity.
Qed.


(** X2.  Every address loaded from the file is not empty, has no
    whitespace at either end, and holds neither a line feed nor a carriage
    return: blank lines and the line ends of the file, of any of the three
    kinds, never reach the address list. *)
Theorem loaded_addresses_are_clean
    (env : environment) (text : string) (previous : list string)
    (w : state) :
  exists addresses printed,
    outcome_of (load_ipv6_addresses env (Content text) previous w)
    = Ret (inr (addresses, printed))
    /\ Forall clean_address addresses.
Proof.
  destruct (load_ipv6_addresses_runs env text previous w)
    as (addresses & printed & w' & -> & Hperm & _).
  exists addresses, printed. split; [reflexivity|].
  apply Forall_forall. intros a Ha.
  pose proof (stripped_lines_clean text) as Hclean.
  rewrite Forall_forall in Hclean. apply Hclean.
  now apply (Permutation_in _ Hperm).
Qed.

(** X3.  The critical line of startup is truthful about the runs that
    follow.  When loading returns, from a file that was read or from a
    missing file, the line about the default network route was printed
    exactly when every run on the loaded list starts on the default
    route, with no source address, and not on an address of the list. *)
Theorem critical_line_iff_runs_go_by_default_route
    (env : environment) (file : file_state) (previous : list string)
    (w : state) (addresses : list string)
    (printed : list startup_printed)
    (later : environment) (persian_prompt aspect_ratio_key : string)
    (w' : state) :
  outcome_of (load_ipv6_addresses env file previous w)
  = Ret (inr (addresses, printed)) ->
  IPV6_ADDRESSES later = addresses ->
  In CriticalNoAddresses printed <->
  exists rest,
    addresses_taken
      (trace_of (start_full_process_with_ipv6_rotation later
                   persian_prompt aspect_ratio_key w'))
    = None :: rest.
Proof.
  intros Hload Hlist.
  rewrite (load_ipv6_addresses_returns env _ _ _ _ _ Hload).
  destruct (run_takes_first_entry later persian_prompt aspect_ratio_key w')
    as [rest ->].
  rewrite Hlist. destruct addresses as [|first others].
  - split; [|reflexivity]. intros _. exists rest. reflexivity.
  - split; [intros E; discriminate E|].
    intros [rest' E]. discriminate E.
Qed.

(** An empty list file, and a run on the empty list. *)
Lemma critical_line_iff_runs_go_by_default_route_witness :
  In CriticalNoAddresses
    [LoadedAddresses 0 IPV6_LIST_FILE; CriticalNoAddresses] <->
  exists rest,
    addresses_taken
      (trace_of (start_full_process_with_ipv6_rotation
                   Sample.no_address_env "gorbe" "9:16" Sample.start))
    = None :: rest.
Proof.
  apply (critical_line_iff_runs_go_by_default_route Sample.no_address_env
           (Content EmptyString) [] Sample.start [] _
           Sample.no_address_env "gorbe" "9:16" Sample.start);
    reflexivity.
Defined.

(** ** Submitting a job *)

(** Runs the submit up to the reply [Hreply] gives to its POST. *)
Ltac submit_on_reply Hreply :=
  unfold call_gradio_api_with_ipv6;
  match goal with
  | |- context [bind ?debug _] =>
      let line := fresh "line" in
      let Hdebug := fresh "Hdebug" in
      assert (Hdebug : exists line, debug = print line)
        by (match goal with
            | |- context [match ?ip with Some _ => _ | None => _ end] =>
                destruct ip; [destruct mounts_adapter|]; eauto
            end);
      destruct Hdebug as [line ->]
  end;
  unfold bind at 1; rewrite print_runs;
  unfold try_except, bind at 1, s_post; rewrite Hreply;
  cbn [raise_reply];
  match goal with
  | |- context [State ?a ?b ?c ?d ?e] =>
      generalize (State a b c d e); intros ?w
  end;
  cbv beta iota delta [bind dict_get ret raise].

(** X4.  A reply to the POST that holds a truthy [event_id] makes the
    submit return that event id as it is, whatever else the reply holds,
    an [error] entry included. *)
Theorem submit_returns_the_event_id
    (env : environment) (base_url : string) (fn_index : Z)
    (data_payload : list json) (session_hash : string)
    (trigger_id : option Z) (source_ip : option string) (w : state)
    (fields : list (string * json)) (v : json) :
  outcome (post_replies env (posts_sent w)) = Replied (JObj fields) ->
  dict_lookup fields "event_id" = Some v ->
  Py.truthy v = true ->
  outcome_of (call_gradio_api_with_ipv6 env base_url fn_index data_payload
                session_hash trigger_id source_ip w)
  = Ret v.
Proof.
  intros Hreply Hid Hv.
  submit_on_reply Hreply.
  rewrite Hid. cbv beta iota. rewrite Hv. reflexivity.
Qed.

(** The reply holds an event id and an error: the event id is returned. *)
Lemma submit_returns_the_event_id_witness :
  outcome_of (call_gradio_api_with_ipv6 Example.both_env
                TRANSLATOR_API_BASE_URL TRANSLATOR_FN_INDEX
                [JStr "gorbe"] "h" None (Some "2001:db8::1") Sample.start)
  = Ret (JStr "e7").
Proof.
  apply (submit_returns_the_event_id Example.both_env
           TRANSLATOR_API_BASE_URL TRANSLATOR_FN_INDEX [JStr "gorbe"] "h"
           None (Some "2001:db8::1") Sample.start
           [("event_id", JStr "e7"); ("error", JStr "GPU quota exceeded")]);
    reflexivity.
Defined.

(** X5.  A reply with no truthy [event_id] and a non-empty error text
    makes the submit raise: a [GPUQuotaError] with the first 150
    characters of the text when the text names a resource keyword, a
    [ValueError] with the whole text otherwise. *)
Theorem submit_refusal_is_classified
    (env : environment) (base_url : string) (fn_index : Z)
    (data_payload : list json) (session_hash : string)
    (trigger_id : option Z) (source_ip : option string) (w : state)
    (fields : list (string * json)) (error_msg : string) :
  outcome (post_replies env (posts_sent w)) = Replied (JObj fields) ->
  falsy_entry fields "event_id" ->
  dict_lookup fields "error" = Some (JStr error_msg) ->
  error_msg <> EmptyString ->
  outcome_of (call_gradio_api_with_ipv6 env base_url fn_index data_payload
                session_hash trigger_id source_ip w)
  = Raise (match classify error_msg with
           | ResourceExhausted =>
               GPUQuotaError ("Server (GPU) resource limit encountered: "
                              +++ PyStr.take 150 error_msg)
           | Other => ValueError ("Error from /queue/join: " +++ error_msg)
           end).
Proof.
  intros Hreply Hid Herror Hne.
  destruct error_msg as [|c rest]; [now destruct Hne|].
  unfold classify.
  destruct (has_resource_keyword (String c rest)) eqn:Hkw;
    submit_on_reply Hreply;
    unfold falsy_entry in Hid;
    (destruct (dict_lookup fields "event_id") as [v|];
     [rewrite Hid|]);
    rewrite Herror; cbn [Py.truthy PyStr.nonempty negb andb];
    rewrite Hkw; reflexivity.
Qed.

(** The first POST of the sample is refused with a text that names the
    quota. *)
Lemma submit_refusal_is_classified_witness :
  outcome_of (call_gradio_api_with_ipv6 Sample.quota_env
                TRANSLATOR_API_BASE_URL TRANSLATOR_FN_INDEX
                [JStr "gorbe"] "h" None (Some "2001:db8::1") Sample.start)
  = Raise (GPUQuotaError
             "Server (GPU) resource limit encountered: GPU quota exceeded").
Proof.
  apply (submit_refusal_is_classified Sample.quota_env
           TRANSLATOR_API_BASE_URL TRANSLATOR_FN_INDEX [JStr "gorbe"] "h"
           None (Some "2001:db8::1") Sample.start
           [("error", JStr "GPU quota exceeded")] "GPU quota exceeded");
    [reflexivity|exact I|reflexivity|discriminate].
Defined.

(** X6.  A reply with neither a truthy [event_id] nor a truthy [error]
    makes the submit raise the [ValueError] of the missing event id: the
    submit returns no falsy event id. *)
Theorem submit_without_event_id_fails
    (env : environment) (base_url : string) (fn_index : Z)
    (data_payload : list json) (session_hash : string)
    (trigger_id : option Z) (source_ip : option string) (w : state)
    (fields : list (string * json)) :
  outcome (post_replies env (posts_sent w)) = Replied (JObj fields) ->
  falsy_entry fields "event_id" ->
  falsy_entry fields "error" ->
  outcome_of (call_gradio_api_with_ipv6 env base_url fn_index data_payload
                session_hash trigger_id source_ip w)
  = Raise (ValueError "event_id not received from /queue/join.").
Proof.
  intros Hreply Hid Herror.
  submit_on_reply Hreply.
  unfold falsy_entry in Hid, Herror.
  destruct (dict_lookup fields "event_id") as [v|];
    [rewrite Hid|];
    cbn [Py.truthy negb andb];
    (destruct (dict_lookup fields "error") as [e|];
     [rewrite Herror|]);
    reflexivity.
Qed.

(** The reply is an empty JSON object. *)
Lemma submit_without_event_id_fails_witness :
  outcome_of (call_gradio_api_with_ipv6 Example.empty_reply_env
                TRANSLATOR_API_BASE_URL TRANSLATOR_FN_INDEX
                [JStr "gorbe"] "h" None (Some "2001:db8::1") Sample.start)
  = Raise (ValueError "event_id not received from /queue/join.").
Proof.
  apply (submit_without_event_id_fails Example.empty_reply_env
           TRANSLATOR_API_BASE_URL TRANSLATOR_FN_INDEX [JStr "gorbe"] "h"
           None (Some "2001:db8::1") Sample.start []);
    [reflexivity|exact I|exact I].
Defined.

(** X7.  A reply that is valid JSON but no JSON object makes the submit
    raise an [AttributeError]: neither [except] clause of the submit
    takes it, and it is none of the errors the submit builds itself. *)
Theorem submit_fails_on_reply_that_is_no_object
    (env : environment) (base_url : string) (fn_index : Z)
    (data_payload : list json) (session_hash : string)
    (trigger_id : option Z) (source_ip : option string) (w : state)
    (result : json) :
  outcome (post_replies env (posts_sent w)) = Replied result ->
  is_dict result = false ->
  outcome_of (call_gradio_api_with_ipv6 env base_url fn_index data_payload
                session_hash trigger_id source_ip w)
  = Raise AttributeError.
Proof.
  intros Hreply Hshape.
  submit_on_reply Hreply.
  destruct result; try reflexivity. discriminate Hshape.
Qed.

(** The reply is a JSON array. *)
Lemma submit_fails_on_reply_that_is_no_object_witness :
  outcome_of (call_gradio_api_with_ipv6 Example.array_reply_env
                TRANSLATOR_API_BASE_URL TRANSLATOR_FN_INDEX
                [JStr "gorbe"] "h" None (Some "2001:db8::1") Sample.start)
  = Raise AttributeError.
Proof.
  apply (submit_fails_on_reply_that_is_no_object Example.array_reply_env
           TRANSLATOR_API_BASE_URL TRANSLATOR_FN_INDEX [JStr "gorbe"] "h"
           None (Some "2001:db8::1") Sample.start (JArr [JStr "e7"]));
    reflexivity.
Defined.

(** ** The source address of a request *)

Section BindingFacts.

Variable env : environment.

(** Lines 113 and 150, with the rule of [requests] that a mounted adapter
    serves the URLs that start with its prefix. *)
Lemma bound_address_listed (ip : option string) (url a : string) :
  bound_address (new_session env ip) url = Some a <->
  ip = Some a /\ a <> EmptyString /\ In a (IPV6_ADDRESSES env)
  /\ PyStr.startswith (PyStr.lower url) "https://" = true.
Proof.
  unfold bound_address, new_session, mounts_adapter. split.
  - destruct (PyStr.startswith (PyStr.lower url) "https://");
      [|intros H; discriminate H].
    destruct ip as [b|]; [|intros H; discriminate H].
    destruct (PyStr.nonempty b
              && existsb (String.eqb b) (IPV6_ADDRESSES env)) eqn:Hm;
      [|intros H; discriminate H].
    intros [= ->]. apply andb_true_iff in Hm as [Hne Hin].
    apply existsb_exists in Hin as (x & Hx & Heq).
    apply String.eqb_eq in Heq. subst x.
    repeat split; [|assumption].
    intros ->. discriminate Hne.
  - intros (-> & Hne & Hin & ->).
    assert (Hm : PyStr.nonempty a
                 && existsb (String.eqb a) (IPV6_ADDRESSES env) = true).
    { apply andb_true_iff. split.
      - destruct a; [now destruct Hne|reflexivity].
      - apply existsb_exists. exists a. split; [assumption|].
        apply String.eqb_refl. }
    now rewrite Hm.
Qed.

Variables (persian_prompt aspect_ratio_key : string).

Lemma retry_loop_listed (ip : option string) (retry_counts : list Z)
    (w : state) :
  Forall (listed_source env)
    (trace_of (retry_loop env persian_prompt aspect_ratio_key ip
                 retry_counts w)).
Proof.
  destruct (retry_loop env persian_prompt aspect_ratio_key ip
              retry_counts w) as [[r w'] tr] eqn:E.
  refine (proj2 (respects_retry_loop env ip (fun _ _ => True)
                   (listed_source env) _ _ _ _ _ _ _ _ _ _ _ _ _ _ _ E));
    cbn; auto;
    try (intros; exact I);
    intros; unfold listed_source; cbn [source_of];
    match goal with
    | |- context [bound_address ?s ?url] =>
        let Hb := fresh "Hb" in
        destruct (bound_address s url) as [a|] eqn:Hb;
        [apply bound_address_listed in Hb; tauto|exact I]
    end.
Qed.

Lemma rotation_loop_listed (available tried : list (option string))
    (w : state) :
  Forall (listed_source env)
    (trace_of (rotation_loop env persian_prompt aspect_ratio_key
                 available tried w)).
Proof.
  revert tried w.
  induction available as [|ip remaining IH]; intros tried w.
  - repeat constructor.
  - destruct (rotation_loop_trace env persian_prompt aspect_ratio_key ip
                remaining tried w) as (tail & -> & Htail).
    constructor; [exact I|].
    apply Forall_app. split; [apply retry_loop_listed|].
    destruct Htail as [->|(w1 & ->)]; [constructor|apply IH].
Qed.

End BindingFacts.

(** X8.  Whatever the reply, a submit sends exactly one POST, to the
    [/gradio_api/queue/join] URL of the service with the payload of lines
    103 to 110.  The POST is bound to a source address exactly when that
    address was asked for, is not empty, is in the loaded list, and the
    URL is an [https://] one. *)
Theorem submit_sends_one_post_from_a_listed_address
    (env : environment) (base_url : string) (fn_index : Z)
    (data_payload : list json) (session_hash : string)
    (trigger_id : option Z) (source_ip : option string) (w : state) :
  exists line source,
    trace_of (call_gradio_api_with_ipv6 env base_url fn_index data_payload
                session_hash trigger_id source_ip w)
    = [Print line;
       Post (join_url_of base_url)
         (api_payload_of data_payload fn_index session_hash trigger_id)
         source]
    /\ forall a,
        source = Some a <->
        source_ip = Some a /\ a <> EmptyString
        /\ In a (IPV6_ADDRESSES env)
        /\ PyStr.startswith (PyStr.lower (join_url_of base_url)) "https://"
           = true.
Proof.
  destruct (call_gradio_api_with_ipv6 env base_url fn_index data_payload
              session_hash trigger_id source_ip w) as [[r w'] tr] eqn:E.
  destruct (call_gradio_api_with_ipv6_runs env _ _ _ _ _ _ _ _ _ _ E)
    as [_ [line ->]].
  exists line. eexists. split; [reflexivity|].
  intros a. apply bound_address_listed.
Qed.

(** X9.  No request of a run is ever bound to an address that is empty or
    missing from the loaded list: every POST and every GET goes by the
    default route or from a listed address. *)
Theorem run_requests_come_from_listed_addresses
    (env : environment) (persian_prompt aspect_ratio_key : string)
    (w : state) :
  Forall (listed_source env)
    (trace_of (start_full_process_with_ipv6_rotation env persian_prompt
                 aspect_ratio_key w)).
Proof.
  unfold start_full_process_with_ipv6_rotation.
  destruct (map Some (IPV6_ADDRESSES env)) as [|ip ips].
  - unfold bind at 1 2. rewrite print_runs. unfold ret at 1.
    cbn [app].
    destruct (rotation_loop env persian_prompt aspect_ratio_key [None] [] w)
      as [[r w'] tr] eqn:E.
    cbn [trace_of snd].
    constructor; [exact I|].
    change tr with (trace_of (r, w', tr)). rewrite <- E.
    apply (rotation_loop_listed env persian_prompt aspect_ratio_key).
  - rewrite bind_ret.
    apply (rotation_loop_listed env persian_prompt aspect_ratio_key).
Qed.

(** ** Awaiting a job *)

(** X10.  With no time to poll, [max_poll_time] zero or negative, the
    await call sends no request at all and raises the [ConnectionError]
    of line 212 at once. *)
Theorem poll_with_no_time_sends_no_request
    (env : environment) (base_url session_hash : string) (event_id : json)
    (service_name : string) (source_ip : option string)
    (max_poll_time : Z) (w : state) :
  (max_poll_time <= 0)%Z ->
  poll_gradio_sse_status env base_url session_hash event_id service_name
    source_ip max_poll_time w
  = (Raise (ConnectionError
              ("Polling " +++ service_name +++ " stream timed out after "
               +++ str_of_int max_poll_time
               +++ " seconds. No completion received.")),
     State (clock w) (posts_sent w) (gets_sent w) (draws_taken w) (clock w),
     []).
Proof.
  intros Hmax.
  unfold poll_gradio_sse_status, poll_fuel. cbn [poll_loop].
  unfold bind at 1 2 3 4, time_time, set_last_progress_update.
  cbn [clock]. rewrite Z.sub_diag.
  destruct (0 <? max_poll_time)%Z eqn:Hlt; [apply Z.ltb_lt in Hlt; lia|].
  reflexivity.
Qed.

(** No poll is sent when the time allowed is zero. *)
Lemma poll_with_no_time_sends_no_request_witness :
  trace_of (poll_gradio_sse_status Sample.mixed_env "https://b" "hash"
              (JStr "e1") "Translator" None 0 Sample.start)
  = [].
Proof.
  rewrite (poll_with_no_time_sends_no_request Sample.mixed_env "https://b"
             "hash" (JStr "e1") "Translator" None 0 Sample.start);
    [reflexivity|lia].
Defined.

(** X11.  A poll that fails in transport for another reason than a
    timeout ends the await call at once, after that one request and
    with no sleep: with a [GPUQuotaError] that carries the first 150
    characters of the detail when the detail names a resource keyword,
    with a [ConnectionError] that carries its first 100 characters
    otherwise. *)
Theorem poll_fails_on_transport_fault
    (env : environment) (base_url session_hash : string) (event_id : json)
    (service_name : string) (source_ip : option string)
    (max_poll_time : Z) (w : state) (detail : string) :
  (0 < max_poll_time)%Z ->
  outcome (get_replies env (gets_sent w)) = Failed detail ->
  let run := poll_gradio_sse_status env base_url session_hash event_id
               service_name source_ip max_poll_time w in
  let data_url :=
    base_url +++ "/gradio_api/queue/data?session_hash=" +++ session_hash in
  outcome_of run
  = Raise (match classify detail with
           | ResourceExhausted =>
               GPUQuotaError ("Polling " +++ service_name
                              +++ " failed with resource error: "
                              +++ PyStr.take 150 detail)
           | Other =>
               ConnectionError ("Error during polling " +++ service_name
                                +++ ": " +++ PyStr.take 100 detail)
           end)
  /\ trace_of run
     = [Get data_url (bound_address (new_session env source_ip) data_url)].
Proof.
  intros Hmax Hreply. cbv zeta.
  assert (E : exists w',
             poll_gradio_sse_status env base_url session_hash event_id
               service_name source_ip max_poll_time w
             = (Raise (if has_resource_keyword detail
                       then GPUQuotaError
                              ("Polling " +++ service_name
                               +++ " failed with resource error: "
                               +++ PyStr.take 150 detail)
                       else ConnectionError
                              ("Error during polling " +++ service_name
                               +++ ": " +++ PyStr.take 100 detail)),
                w',
                [Get (base_url +++ "/gradio_api/queue/data?session_hash="
                      +++ session_hash)
                   (bound_address (new_session env source_ip)
                      (base_url +++ "/gradio_api/queue/data?session_hash="
                       +++ session_hash))])).
  { unfold poll_gradio_sse_status, poll_fuel. cbn [poll_loop].
    unfold bind at 1 2 3 4, time_time, set_last_progress_update.
    cbn [clock]. rewrite Z.sub_diag.
    destruct (0 <? max_poll_time)%Z eqn:Hlt; [|apply Z.ltb_ge in Hlt; lia].
    unfold bind at 1, poll_cycle, try_except, poll_once.
    unfold bind at 1, s_get. cbn [gets_sent]. rewrite Hreply.
    cbn [raise_reply on_poll_failure].
    destruct (has_resource_keyword detail); eexists; reflexivity. }
  destruct E as [w' ->]. unfold classify.
  destruct (has_resource_keyword detail); split; reflexivity.
Qed.

(** The first poll is refused with HTTP status 429. *)
Lemma poll_fails_on_transport_fault_witness :
  outcome_of (poll_gradio_sse_status Example.refused_poll_env "https://b"
                "hash" (JStr "e1") "Translator" None 300 Sample.start)
  = Raise (GPUQuotaError
             "Polling Translator failed with resource error: 429 Client Error: Too Many Requests for url: https://b").
Proof.
  refine (proj1 (poll_fails_on_transport_fault Example.refused_poll_env
                   "https://b" "hash" (JStr "e1") "Translator" None 300
                   Sample.start
                   "429 Client Error: Too Many Requests for url: https://b"
                   _ _));
    [lia|reflexivity].
Defined.

(** X12.  A poll that times out does not end the await call: the cycle
    prints the warning, sleeps 5 seconds and lets the loop poll again. *)
Theorem poll_timeout_is_retried
    (env : environment) (event_id : json) (service_name : string)
    (s : session) (data_url : string) (w : state) :
  outcome (get_replies env (gets_sent w)) = TimedOut ->
  poll_cycle env event_id service_name s data_url w
  = (Ret Again,
     State (clock w + Z.of_N (took (get_replies env (gets_sent w))) + 5)
           (posts_sent w) (S (gets_sent w)) (draws_taken w)
           (last_progress_update w),
     [Get data_url (bound_address s data_url);
      Print (WarningPollTimedOut service_name);
      Sleep 5]).
Proof.
  intros Hreply.
  unfold poll_cycle, try_except, poll_once.
  unfold bind at 1, s_get. rewrite Hreply. reflexivity.
Qed.

(** The first poll of the sample takes 30 seconds and times out. *)
Lemma poll_timeout_is_retried_witness :
  poll_cycle Example.slow_poll_env (JStr "e1") "Translator" None
    "https://b" Sample.start
  = (Ret Again, State 1035 0 1 0 0,
     [Get "https://b" None;
      Print (WarningPollTimedOut "Translator");
      Sleep 5]).
Proof.
  apply (poll_timeout_is_retried Example.slow_poll_env (JStr "e1")
           "Translator" None "https://b" Sample.start).
  reflexivity.
Defined.

Section PollFacts.

Variable env : environment.
Variables (event_id : json) (service_name : string).

(** Records of other jobs are passed over, whatever they say. *)
Lemma scan_events_other_jobs (processed_events : list json) (w : state) :
  Forall (other_job event_id) processed_events ->
  scan_events event_id service_name processed_events w = (Ret None, w, []).
Proof.
  induction 1 as [|record rest (fields & -> & Hid) _ IH]; [reflexivity|].
  cbn [scan_events]. unfold dict_get at 1. rewrite bind_ret, Hid.
  exact IH.
Qed.

Lemma polls_app (a b : list event) : polls (a ++ b) = polls a + polls b.
Proof. unfold polls. now rewrite filter_app, length_app. Qed.

Lemma not_get_no_polls (tr : list event) : Forall not_get tr -> polls tr = 0.
Proof.
  induction 1 as [|e tr He _ IH]; [reflexivity|].
  unfold polls in *. cbn [filter]. now rewrite He.
Qed.

(** Closes the side conditions of an invariant that holds of every
    state and of every event but a poll. *)
Ltac free_step :=
  try solve [intros; first [exact I | reflexivity | lia]].

Lemma not_get_after_get (found : option json) :
  respects (fun _ _ => True) not_get
    (match found with
     | Some data => ret (Returned data)
     | None => time_sleep 2 ;; ret Again
     end).
Proof.
  destruct found as [data|].
  - apply respects_ret; free_step.
  - apply respects_bind; free_step.
    + apply respects_time_sleep; free_step.
    + intros _. apply respects_ret; free_step.
Qed.

Lemma poll_once_polls (s : session) (data_url : string) (w w' : state)
    (r : result cycle) (tr : list event) :
  poll_once env event_id service_name s data_url w = (r, w', tr) ->
  polls tr = 1.
Proof.
  unfold poll_once. intros H.
  bind_inv H.
  - revert E. intros [= _ _ <-].
    assert (Hrest : Forall not_get t0).
    { refine (proj2 (respects_bind (fun _ _ => True) not_get _ _ _ _ _
                       _ _ _ _ H)); free_step.
      - apply (respects_collect_events env None); free_step.
      - intros processed. apply respects_bind; free_step.
        + apply (respects_scan_events None); free_step.
        + apply not_get_after_get. }
    rewrite polls_app, (not_get_no_polls _ Hrest). reflexivity.
  - revert E. intros [= _ _ <-]. reflexivity.
  - revert E. intros [= _ _ <-]. reflexivity.
Qed.

Lemma on_poll_failure_runs (e : exn) (w w' : state) (r : result cycle)
    (tr : list event) :
  on_poll_failure service_name e w = (r, w', tr) ->
  polls tr = 0
  /\ forall e', r = Raise e' -> poll_failure service_name e'.
Proof.
  intros H. split.
  - apply not_get_no_polls.
    refine (proj2 (respects_on_poll_failure None (fun _ _ => True) not_get
                     _ _ _ _ _ _ _ _ _ _ _ H)); free_step.
  - destruct e;
      try (cbn in H; revert H; intros [= <- _ _]; discriminate).
    unfold on_poll_failure in H.
    destruct (has_resource_keyword detail);
      revert H; intros [= <- _ _]; intros e' [= <-].
    + eexists. reflexivity.
    + exact I.
Qed.

(** One pass of the loop sends one request, and the only errors that
    leave it are those of lines 204 to 207. *)
Lemma poll_cycle_runs (s : session) (data_url : string) (w w' : state)
    (r : result cycle) (tr : list event) :
  poll_cycle env event_id service_name s data_url w = (r, w', tr) ->
  polls tr = 1
  /\ forall e, r = Raise e -> poll_failure service_name e.
Proof.
  unfold poll_cycle. intros H.
  apply try_except_cases in H
    as [(e & w1 & t1 & t2 & E1 & E2 & ->)|[E Hr]].
  - destruct (on_poll_failure_runs _ _ _ _ _ E2) as [Hpolls Hkind].
    rewrite polls_app, (poll_once_polls _ _ _ _ _ _ E1), Hpolls.
    split; [reflexivity|exact Hkind].
  - split; [exact (poll_once_polls _ _ _ _ _ _ E)|].
    intros e ->. now destruct (Hr e).
Qed.

Variable max_poll_time : Z.

Lemma poll_loop_runs (fuel : nat) (s : session) (data_url : string)
    (start_time : Z) (w w' : state) (r : result json) (tr : list event) :
  poll_loop env event_id service_name max_poll_time fuel s data_url
    start_time w = (r, w', tr) ->
  (2 * Z.of_nat (polls tr)
   <= Z.max 0 (max_poll_time - (clock w - start_time) + 1))%Z
  /\ forall e, r = Raise e -> poll_failure service_name e.
Proof.
  revert w w' r tr. induction fuel as [|fuel IH]; intros w w' r tr H.
  - revert H. intros [= <- _ <-]. split; [cbn; lia|discriminate].
  - cbn [poll_loop] in H.
    bind_inv H;
      [|revert E; intros [= E _ _]; discriminate E
       |revert E; intros [= E _ _]; discriminate E].
    revert E. intros [= <- <- <-]. cbn [app].
    destruct (clock w - start_time <? max_poll_time)%Z eqn:Hlt.
    + apply Z.ltb_lt in Hlt.
      bind_inv H.
      * destruct (poll_cycle_runs _ _ _ _ _ _ E) as [Hone _].
        rewrite polls_app, Hone.
        destruct a as [data|].
        -- revert H. intros [= <- _ <-]. split; [cbn; lia|discriminate].
        -- apply poll_cycle_advances in E.
           destruct (IH _ _ _ _ H) as [Hbound Hkind].
           split; [lia|exact Hkind].
      * destruct (poll_cycle_runs _ _ _ _ _ _ E) as [Hone Hkind].
        rewrite Hone. split; [lia|]. intros e' [= <-].
        apply Hkind. reflexivity.
      * destruct (poll_cycle_runs _ _ _ _ _ _ E) as [Hone Hkind].
        rewrite Hone. split; [lia|]. discriminate.
    + revert H. intros [= <- _ <-]. split; [cbn; lia|].
      intros e [= <-]. exact I.
Qed.

Lemma poll_gradio_sse_status_runs (base_url session_hash : string)
    (source_ip : option string) (w w' : state) (r : result json)
    (tr : list event) :
  poll_gradio_sse_status env base_url session_hash event_id service_name
    source_ip max_poll_time w = (r, w', tr) ->
  (2 * Z.of_nat (polls tr) <= Z.max 0 (max_poll_time + 1))%Z
  /\ forall e, r = Raise e -> poll_failure service_name e.
Proof.
  unfold poll_gradio_sse_status. intros H.
  bind_inv H;
    [|revert E; intros [= E _ _]; discriminate E
     |revert E; intros [= E _ _]; discriminate E].
  revert E. intros [= <- <- <-].
  bind_inv H;
    [|revert E; intros [= E _ _]; discriminate E
     |revert E; intros [= E _ _]; discriminate E].
  revert E. intros [= <- <- <-].
  bind_inv H;
    [|revert E; intros [= E _ _]; discriminate E
     |revert E; intros [= E _ _]; discriminate E].
  revert E. intros [= _ <- <-]. cbn [app].
  destruct (poll_loop_runs _ _ _ _ _ _ _ _ H) as [Hbound Hkind].
  split; [|exact Hkind].
  cbn [clock] in Hbound.
  replace (clock w - clock w)%Z with 0%Z in Hbound by lia.
  now rewrite Z.sub_0_r in Hbound.
Qed.

End PollFacts.

(** X13.  Records of other jobs never end the await call, whatever they
    say: a response whose decoded records all carry another event id (or
    none) is passed over, the cycle sleeps 2 seconds and the loop polls
    again. *)
Theorem poll_ignores_records_of_other_jobs
    (env : environment) (event_id : json) (service_name : string)
    (s : session) (data_url : string) (w : state) (text : string) :
  outcome (get_replies env (gets_sent w)) = Replied text ->
  Forall (other_job event_id)
    (spec_decoded env (PyStr.split_lines (PyStr.strip text))) ->
  poll_cycle env event_id service_name s data_url w
  = (Ret Again,
     State (clock w + Z.of_N (took (get_replies env (gets_sent w))) + 2)
           (posts_sent w) (S (gets_sent w)) (draws_taken w)
           (last_progress_update w),
     Get data_url (bound_address s data_url)
     :: map (fun line => Print (WarningCouldNotDecode line))
          (filter (malformed env) (PyStr.split_lines (PyStr.strip text)))
     ++ [Sleep 2]).
Proof.
  intros Hreply Hothers.
  set (w1 := State (clock w + Z.of_N (took (get_replies env (gets_sent w))))
                (posts_sent w) (S (gets_sent w)) (draws_taken w)
                (last_progress_update w)).
  assert (Eget : s_get env s data_url w
                 = (Ret text, w1, [Get data_url (bound_address s data_url)])).
  { unfold s_get. now rewrite Hreply. }
  unfold poll_cycle, try_except, poll_once.
  rewrite (bind_runs_on _ _ _ _ _ _ Eget).
  rewrite (bind_runs_on _ _ _ _ _ _ (collect_events_decodes env _ w1)).
  rewrite (bind_runs_on _ _ _ _ _ _
             (scan_events_other_jobs event_id service_name _ w1 Hothers)).
  subst w1. unfold time_sleep, emit, advance, bind, ret.
  cbn [outcome_of state_of trace_of fst snd app clock posts_sent gets_sent
       draws_taken last_progress_update].
  reflexivity.
Qed.

(** The completion of job [e1] is passed over while job [e2] is awaited. *)
Lemma poll_ignores_records_of_other_jobs_witness :
  outcome_of (poll_cycle Sample.mixed_env (JStr "e2") "Translator" None
                "https://b" Sample.start)
  = Ret Again.
Proof.
  rewrite (poll_ignores_records_of_other_jobs Sample.mixed_env (JStr "e2")
             "Translator" None "https://b" Sample.start
             ("data: " +++ Sample.truncated_text +++ Sample.line_feed
              +++ "data: " +++ Sample.completed_text +++ Sample.line_feed)).
  - reflexivity.
  - reflexivity.
  - vm_compute. constructor; [|constructor].
    eexists. split; reflexivity.
Defined.

(** X14.  The await call sends at most one poll for every 2 seconds of
    the time allowed, rounded up: at most 150 with the 300 seconds of the
    source, and none when no time is allowed. *)
Theorem poll_sends_bounded_number_of_requests
    (env : environment) (base_url session_hash : string) (event_id : json)
    (service_name : string) (source_ip : option string)
    (max_poll_time : Z) (w : state) :
  (2 * Z.of_nat (polls (trace_of (poll_gradio_sse_status env base_url
                                    session_hash event_id service_name
                                    source_ip max_poll_time w)))
   <= Z.max 0 (max_poll_time + 1))%Z.
Proof.
  destruct (poll_gradio_sse_status env base_url session_hash event_id
              service_name source_ip max_poll_time w)
    as [[r w'] tr] eqn:E.
  exact (proj1 (poll_gradio_sse_status_runs env _ _ _ _ _ _ _ _ _ _ E)).
Qed.

(** X15.  The await call always ends, and the only errors that leave it
    are those of transport and of time: a [ConnectionError], or the
    [GPUQuotaError] of line 206 for a failed poll.  No error raised from
    a record of the stream (lines 186, 187 and 194) and no other exception
    of the loop body leaves the call. *)
Theorem poll_raises_only_transport_errors
    (env : environment) (base_url session_hash : string) (event_id : json)
    (service_name : string) (source_ip : option string)
    (max_poll_time : Z) (w : state) :
  match outcome_of (poll_gradio_sse_status env base_url session_hash
                      event_id service_name source_ip max_poll_time w) with
  | Ret _ => True
  | Raise e => poll_failure service_name e
  | OutOfFuel => False
  end.
Proof.
  pose proof (finishes_poll_gradio_sse_status env base_url session_hash
                event_id service_name source_ip max_poll_time w) as Hends.
  destruct (poll_gradio_sse_status env base_url session_hash event_id
              service_name source_ip max_poll_time w)
    as [[r w'] tr] eqn:E.
  cbn [outcome_of fst] in *.
  destruct r as [data|e|]; [exact I| |now destruct Hends].
  exact (proj2 (poll_gradio_sse_status_runs env _ _ _ _ _ _ _ _ _ _ E)
           e eq_refl).
Qed.

(** ** The retry policy as the code runs it *)

Section RetryFacts.

Variable env : environment.
Variables (persian_prompt aspect_ratio_key : string).

(** After a failure of the first attempt the [for] loop is broken or
    left by the [NameError] of line 314: it never goes on. *)
Lemma on_failure_first (ip : option string) (e : exn) (w : state) :
  outcome_of (on_failure ip 0 e w) = Ret Break
  \/ outcome_of (on_failure ip 0 e w) = Raise (NameError "asyncio").
Proof.
  destruct e; first [left; reflexivity | right; reflexivity].
Qed.

Lemma first_pass_never_continues (ip : option string) (w w1 : state)
    (r : result leave) (tr : list event) :
  try_except
    (value <- attempt env persian_prompt aspect_ratio_key ip 0 ;;
     ret (Return value))
    (on_failure ip 0) w
  = (r, w1, tr) ->
  r <> Ret Continue.
Proof.
  intros H.
  apply try_except_cases in H
    as [(e & w2 & t1 & t2 & E1 & E2 & ->)|[E _]].
  - destruct (on_failure_first ip e w2) as [Hr|Hr];
      rewrite E2 in Hr; cbn in Hr; subst r; discriminate.
  - bind_inv E.
    + revert E. intros [= <- _ _]. discriminate.
    + discriminate.
    + discriminate.
Qed.

Lemma retry_loop_first_pass (ip : option string) (later : list Z)
    (w : state) :
  retry_loop env persian_prompt aspect_ratio_key ip (0%Z :: later) w
  = retry_loop env persian_prompt aspect_ratio_key ip [0%Z] w.
Proof.
  cbn [retry_loop]. unfold bind at 1 3.
  destruct (try_except
              (value <- attempt env persian_prompt aspect_ratio_key ip 0 ;;
               ret (Return value))
              (on_failure ip 0) w) as [[[l|e|] w1] t1] eqn:E;
    try reflexivity.
  destruct l; try reflexivity.
  now destruct (first_pass_never_continues _ _ _ _ _ E).
Qed.

(** What the rotation does with an address whose first attempt fails
    with another error than a [GPUQuotaError]. *)
Lemma rotation_loop_escapes_on_failure (ip : option string)
    (remaining tried : list (option string)) (w w1 : state) (e : exn)
    (tr1 : list event) :
  attempt env persian_prompt aspect_ratio_key ip 0 w = (Raise e, w1, tr1) ->
  (forall message, e <> GPUQuotaError message) ->
  rotation_loop env persian_prompt aspect_ratio_key (ip :: remaining)
    tried w
  = (Raise (NameError "asyncio"), w1,
     Print (InfoAttemptingWith ip (length remaining))
     :: tr1 ++ [Print (ErrorGeneral ip 1 e)]).
Proof.
  intros H Hne. cbn [rotation_loop].
  unfold bind at 1. rewrite print_runs.
  change (range max_retries_per_ip) with [0%Z; 1%Z].
  unfold bind at 1.
  rewrite (retry_loop_escapes_on_failure env persian_prompt
             aspect_ratio_key ip [1%Z] w w1 e tr1 H Hne).
  reflexivity.
Qed.

(** What the rotation does with an address whose first attempt
    succeeds. *)
Lemma rotation_loop_returns_on_success (ip : option string)
    (remaining tried : list (option string)) (w w1 : state) (value : json)
    (tr1 : list event) :
  attempt env persian_prompt aspect_ratio_key ip 0 w = (Ret value, w1, tr1) ->
  rotation_loop env persian_prompt aspect_ratio_key (ip :: remaining)
    tried w
  = (Ret value, w1,
     Print (InfoAttemptingWith ip (length remaining)) :: tr1).
Proof.
  intros H. cbn [rotation_loop].
  unfold bind at 1. rewrite print_runs.
  change (range max_retries_per_ip) with [0%Z; 1%Z].
  cbn [retry_loop].
  unfold bind at 1 2, try_except. unfold bind at 1. rewrite H.
  unfold ret. cbn [app]. rewrite !app_nil_r. reflexivity.
Qed.

End RetryFacts.

(** X16.  The second pass of the [for] loop over an address is never
    run: the loop over the two retry counts of the source behaves as the
    loop over the first one alone.  A first attempt either returns, or
    breaks the loop with a [GPUQuotaError], or leaves it with the
    [NameError] of line 314. *)
Theorem second_attempt_is_never_made
    (env : environment) (persian_prompt aspect_ratio_key : string)
    (ip : option string) (w : state) :
  retry_loop env persian_prompt aspect_ratio_key ip
    (range max_retries_per_ip) w
  = retry_loop env persian_prompt aspect_ratio_key ip [0%Z] w
  /\ outcome_of (retry_loop env persian_prompt aspect_ratio_key ip
                   (range max_retries_per_ip) w)
     <> Ret Continue.
Proof.
  change (range max_retries_per_ip) with [0%Z; 1%Z].
  rewrite retry_loop_first_pass. split; [reflexivity|].
  cbn [retry_loop]. unfold bind at 1.
  destruct (try_except
              (value <- attempt env persian_prompt aspect_ratio_key ip 0 ;;
               ret (Return value))
              (on_failure ip 0) w) as [[[l|e|] w1] t1] eqn:E;
    try (intros H; discriminate H).
  destruct l; try (intros H; discriminate H).
  now destruct (first_pass_never_continues _ _ _ _ _ _ _ _ E).
Qed.

(** X17.  When the first attempt on the first address succeeds, the run
    returns its result at once: no other address is taken and nothing is
    done after the attempt. *)
Theorem first_success_ends_the_run
    (env : environment) (persian_prompt aspect_ratio_key : string)
    (first : string) (others : list string) (w w1 : state) (value : json)
    (tr1 : list event) :
  IPV6_ADDRESSES env = first :: others ->
  attempt env persian_prompt aspect_ratio_key (Some first) 0 w
  = (Ret value, w1, tr1) ->
  start_full_process_with_ipv6_rotation env persian_prompt
    aspect_ratio_key w
  = (Ret value, w1,
     Print (InfoAttemptingWith (Some first) (length others)) :: tr1).
Proof.
  intros Hlist H.
  unfold start_full_process_with_ipv6_rotation. rewrite Hlist.
  cbn [map]. rewrite bind_ret.
  rewrite (rotation_loop_returns_on_success env persian_prompt
             aspect_ratio_key (Some first) (map Some others) [] w w1 value
             tr1 H).
  now rewrite length_map.
Qed.

(** The sample run whose first attempt brings a rendered file. *)
Lemma first_success_ends_the_run_witness :
  outcome_of (start_full_process_with_ipv6_rotation Example.success_env
                "gorbe" "9:16" Sample.start)
  = Ret (JObj [("success", JBool true);
               ("imageUrl",
                JStr "https://black-forest-labs-flux-1-dev.hf.space/file=out.png");
               ("message", JStr SUCCESS_MESSAGE)]).
Proof.
  erewrite (first_success_ends_the_run Example.success_env "gorbe" "9:16"
              "2001:db8::1" ["2001:db8::2"] Sample.start).
  - reflexivity.
  - reflexivity.
  - vm_compute. reflexivity.
Defined.

(** ** How a run ends *)

Section OutcomeFacts.

Variable env : environment.
Variables (persian_prompt aspect_ratio_key : string).

Lemma bind_returned {A B} (m : M A) (f : A -> M B) (w w' : state) (b : B)
    (tr : list event) :
  bind m f w = (Ret b, w', tr) ->
  exists a w1 t1 t2,
    m w = (Ret a, w1, t1) /\ f a w1 = (Ret b, w', t2) /\ tr = t1 ++ t2.
Proof.
  intros H. apply bind_cases in H as [H|[(e & _ & Hr)|(_ & Hr)]];
    [exact H|discriminate Hr|discriminate Hr].
Qed.

(** Takes a [bind] that returned apart; the cases where its first part
    did not return contradict the result [Hr]. *)
Ltac returned H Hr :=
  bind_inv H; [|subst; discriminate Hr|subst; discriminate Hr].

Lemma final_image_url_of_absolute (data : json) (w w' : state)
    (r : result (option string)) (tr : list event) (url : string) :
  final_image_url_of data w = (r, w', tr) ->
  r = Ret (Some url) ->
  PyStr.startswith url "http" = true.
Proof.
  unfold final_image_url_of. intros H Hr.
  destruct (Py.truthy data);
    [|revert H; intros [= <- _ _]; discriminate Hr].
  returned H Hr.
  destruct (Py.truthy a);
    [|revert H; intros [= <- _ _]; discriminate Hr].
  destruct a; try (revert H; intros [= <- _ _]; discriminate Hr).
  returned H Hr.
  destruct (Py.truthy a);
    [|revert H; intros [= <- _ _]; discriminate Hr].
  destruct a; try (revert H; intros [= <- _ _]; discriminate Hr).
  destruct (PyStr.startswith s "http") eqn:Hs;
    revert H; intros [= <- _ _]; injection Hr as <-.
  - exact Hs.
  - reflexivity.
Qed.

Lemma create_image_returns (ip : option string) (retry_count : Z)
    (prompt_for_image : json) (w w' : state) (r : result json)
    (tr : list event) (v : json) :
  create_image env aspect_ratio_key ip retry_count prompt_for_image w
  = (r, w', tr) ->
  r = Ret v ->
  absolute_success v.
Proof.
  unfold create_image. intros H Hr.
  returned H Hr. returned H Hr. returned H Hr. returned H Hr.
  returned H Hr. returned H Hr.
  destruct a4 as [url|]; [|revert H; intros [= <- _ _]; discriminate Hr].
  destruct (PyStr.nonempty url);
    [|revert H; intros [= <- _ _]; discriminate Hr].
  returned H Hr. revert H. intros [= <- _ _]. injection Hr as <-.
  exists url. split; [reflexivity|].
  eapply final_image_url_of_absolute; [eassumption|reflexivity].
Qed.

Lemma attempt_returns (ip : option string) (retry_count : Z)
    (w w' : state) (r : result json) (tr : list event) (v : json) :
  attempt env persian_prompt aspect_ratio_key ip retry_count w
  = (r, w', tr) ->
  r = Ret v ->
  absolute_success v.
Proof.
  unfold attempt. intros H Hr. returned H Hr.
  eapply create_image_returns; eassumption.
Qed.

(** The [except] clauses of an attempt return nothing, and the one
    exception that leaves them is the [NameError] of line 314. *)
Lemma on_failure_outcomes (ip : option string) (retry_count : Z)
    (e : exn) (w : state) :
  match outcome_of (on_failure ip retry_count e w) with
  | Ret (Return _) => False
  | Ret _ => True
  | Raise e' => e' = NameError "asyncio"
  | OutOfFuel => False
  end.
Proof.
  unfold on_failure.
  destruct e; try exact I;
    destruct (retry_count <? max_retries_per_ip - 1)%Z;
    first [exact I | reflexivity].
Qed.

Lemma retry_loop_outcomes (ip : option string) (retry_counts : list Z)
    (w w' : state) (r : result leave) (tr : list event) :
  retry_loop env persian_prompt aspect_ratio_key ip retry_counts w
  = (r, w', tr) ->
  match r with
  | Ret (Return v) => absolute_success v
  | Ret _ => True
  | Raise e => e = NameError "asyncio"
  | OutOfFuel => True
  end.
Proof.
  revert w w' r tr.
  induction retry_counts as [|retry_count later IH]; intros w w' r tr H.
  - revert H. intros [= <- _ _]. exact I.
  - cbn [retry_loop] in H. bind_inv H.
    + assert (Hfirst : match a with
                       | Return v => absolute_success v
                       | _ => True
                       end).
      { apply try_except_cases in E
          as [(e & w2 & t1 & t2 & E1 & E2 & ->)|[E _]].
        - pose proof (on_failure_outcomes ip retry_count e w2) as Ho.
          rewrite E2 in Ho. cbn [outcome_of fst] in Ho.
          destruct a; [destruct Ho|exact I|exact I].
        - apply bind_returned in E as (v & w2 & t1 & t2 & E1 & E2 & _).
          revert E2. intros [= <- _ _].
          eapply attempt_returns; [eassumption|reflexivity]. }
      destruct a as [v| |].
      * revert H. intros [= <- _ _]. exact Hfirst.
      * revert H. intros [= <- _ _]. exact I.
      * exact (IH _ _ _ _ H).
    + apply try_except_cases in E
        as [(e0 & w2 & t1 & t2 & E1 & E2 & ->)|[E Hr]].
      * pose proof (on_failure_outcomes ip retry_count e0 w2) as Ho.
        rewrite E2 in Ho. exact Ho.
      * now destruct (Hr e).
    + exact I.
Qed.

Lemma rotation_loop_outcomes (available tried : list (option string))
    (w w' : state) (r : result json) (tr : list event) :
  rotation_loop env persian_prompt aspect_ratio_key available tried w
  = (r, w', tr) ->
  match r with
  | Ret v => absolute_success v \/ v = failure_record
  | Raise e => e = NameError "asyncio"
  | OutOfFuel => True
  end.
Proof.
  revert tried w w' r tr.
  induction available as [|ip remaining IH]; intros tried w w' r tr H.
  - revert H. intros [= <- _ _]. right. reflexivity.
  - cbn [rotation_loop] in H.
    bind_inv H;
      [|revert E; intros [= E _ _]; discriminate E
       |revert E; intros [= E _ _]; discriminate E].
    clear E. bind_inv H.
    + pose proof (retry_loop_outcomes _ _ _ _ _ _ E) as Ho.
      destruct a0 as [v| |].
      * revert H. intros [= <- _ _]. left. exact Ho.
      * exact (IH _ _ _ _ _ H).
      * exact (IH _ _ _ _ _ H).
    + exact (retry_loop_outcomes _ _ _ _ _ _ E).
    + exact I.
Qed.

Lemma start_full_process_with_ipv6_rotation_outcomes (w : state) :
  run_outcome
    (outcome_of (start_full_process_with_ipv6_rotation env persian_prompt
                   aspect_ratio_key w)).
Proof.
  pose proof (finishes_start_full_process_with_ipv6_rotation env
                persian_prompt aspect_ratio_key w) as Hends.
  destruct (start_full_process_with_ipv6_rotation env persian_prompt
              aspect_ratio_key w) as [[r w'] tr] eqn:E.
  cbn [outcome_of fst] in *.
  unfold start_full_process_with_ipv6_rotation in E.
  assert (Hloop : exists available w0 w1 t1,
             rotation_loop env persian_prompt aspect_ratio_key available []
               w0 = (r, w1, t1)).
  { destruct (map Some (IPV6_ADDRESSES env)) as [|ip ips].
    - assert (Hwarn : (print WarningNoAddresses ;; ret [@None string]) w
                      = (Ret [None], w, [Print WarningNoAddresses]))
        by reflexivity.
      rewrite (bind_runs_on _ _ _ _ _ _ Hwarn) in E.
      destruct (rotation_loop env persian_prompt aspect_ratio_key [None] []
                  w) as [[r1 w1] t1] eqn:Hloop.
      revert E. intros [= <- _ _]. eauto.
    - rewrite bind_ret in E. eauto. }
  destruct Hloop as (available & w0 & w1 & t1 & Hloop).
  apply rotation_loop_outcomes in Hloop.
  destruct r; [exact Hloop|exact Hloop|now destruct Hends].
Qed.

End OutcomeFacts.

(** X18.  A run always ends, and in one of three ways: it returns the
    success record, whose image URL always starts with [http] (a relative
    URL of the generator is prefixed with its base URL), or it returns the
    failure record, or it ends with the [NameError] of line 314.  No
    exception of a submit or of an await call leaves the run. *)
Theorem run_ends_in_one_of_three_ways
    (env : environment) (persian_prompt aspect_ratio_key : string)
    (w : state) :
  run_outcome
    (outcome_of (start_full_process_with_ipv6_rotation env persian_prompt
                   aspect_ratio_key w)).
Proof.
  apply start_full_process_with_ipv6_rotation_outcomes.
Qed.

(** X19.  The endpoint never raises and always answers with a
    [JSONResponse]: with status 200 and the success record of the run, or
    with status 500 and the failure message of the run under the key
    [message], or, when the run ended with an exception, with status 500
    and the internal-error message of line 345, and that exception is
    then the [NameError] of line 314. *)
Theorem endpoint_always_answers
    (env : environment) (request : GenerateImageRequest) (w : state) :
  exists reply,
    outcome_of (generate_image_endpoint env request w) = Ret reply
    /\ endpoint_answer reply.
Proof.
  pose proof (start_full_process_with_ipv6_rotation_outcomes env
                (prompt request) (aspectRatioKey request) w) as Hrun.
  unfold generate_image_endpoint.
  destruct (start_full_process_with_ipv6_rotation env (prompt request)
              (aspectRatioKey request) w) as [[r w1] t1] eqn:E.
  cbn [outcome_of fst] in Hrun.
  destruct r as [v|e|]; [| |destruct Hrun].
  - unfold try_except. rewrite (bind_runs_on _ _ _ _ _ _ E).
    destruct Hrun as [(url & -> & Hurl)| ->].
    + exists (JSONResponse 200 (success_record url)).
      split; [reflexivity|]. left. split; [reflexivity|].
      exists url. split; [reflexivity|exact Hurl].
    + exists (JSONResponse 500 (JObj [("message", JStr FAILURE_MESSAGE)])).
      split; [reflexivity|]. right. split; reflexivity.
  - rewrite (try_except_handles _ _ _ _ _ _ (bind_stops _ _ _ _ _ _ E)).
    exists (JSONResponseMessage 500 INTERNAL_ERROR_PREFIX e).
    split; [reflexivity|]. repeat split. exact Hrun.
Qed.

(** X20.  When the first attempt on the first address fails with any
    error but a [GPUQuotaError], the run is left by the [NameError] of line
    314 and no other address is tried; the [except] clause of the endpoint
    prints that error and answers with status 500 and the internal-error
    message built from it. *)
Theorem endpoint_answers_500_after_a_general_failure
    (env : environment) (request : GenerateImageRequest)
    (first : string) (others : list string) (w w1 : state) (e : exn)
    (tr1 : list event) :
  IPV6_ADDRESSES env = first :: others ->
  attempt env (prompt request) (aspectRatioKey request) (Some first) 0 w
  = (Raise e, w1, tr1) ->
  (forall message, e <> GPUQuotaError message) ->
  generate_image_endpoint env request w
  = (Ret (JSONResponseMessage 500 INTERNAL_ERROR_PREFIX
            (NameError "asyncio")),
     w1,
     Print (InfoAttemptingWith (Some first) (length others))
     :: tr1
     ++ [Print (ErrorGeneral (Some first) 1 e);
         Print (CriticalErrorInEndpoint (NameError "asyncio"))]).
Proof.
  intros Hlist H Hne.
  assert (Hrun : start_full_process_with_ipv6_rotation env (prompt request)
                   (aspectRatioKey request) w
                 = (Raise (NameError "asyncio"), w1,
                    Print (InfoAttemptingWith (Some first) (length others))
                    :: tr1 ++ [Print (ErrorGeneral (Some first) 1 e)])).
  { unfold start_full_process_with_ipv6_rotation. rewrite Hlist.
    cbn [map]. rewrite bind_ret.
    rewrite (rotation_loop_escapes_on_failure env (prompt request)
               (aspectRatioKey request) (Some first) (map Some others) []
               w w1 e tr1 H Hne).
    now rewrite length_map. }
  unfold generate_image_endpoint.
  rewrite (try_except_handles _ _ _ _ _ _ (bind_stops _ _ _ _ _ _ Hrun)).
  unfold bind, print, emit, ret.
  cbn [outcome_of state_of trace_of fst snd app].
  now rewrite <- app_assoc.
Qed.

(** The submission of the sample fails with a connection reset. *)
Lemma endpoint_answers_500_after_a_general_failure_witness :
  outcome_of (generate_image_endpoint Sample.reset_env
                (Request "gorbe" "9:16") Sample.start)
  = Ret (JSONResponseMessage 500 INTERNAL_ERROR_PREFIX
           (NameError "asyncio")).
Proof.
  erewrite (endpoint_answers_500_after_a_general_failure
              Sample.reset_env (Request "gorbe" "9:16") "2001:db8::1" []
              Sample.start).
  - reflexivity.
  - reflexivity.
  - vm_compute. reflexivity.
  - intros message H. discriminate H.
Defined.

(** ** A run on a service that refuses every submission *)

Section RefusedFacts.

Variable env : environment.
Variables (persian_prompt aspect_ratio_key : string).

Hypothesis refused : every_post_refused env.

Lemma adds_app (a b : list event) (ta tb : list (option string))
    (sa sb pa pb : nat) :
  adds a ta sa pa -> adds b tb sb pb ->
  adds (a ++ b) (ta ++ tb) (sa + sb) (pa + pb).
Proof.
  intros (<- & <- & <-) (<- & <- & <-).
  unfold adds.
  now rewrite addresses_taken_app, submissions_app, length_app, polls_app.
Qed.

Lemma call_gradio_api_with_ipv6_refused
    (base_url : string) (fn_index : Z) (data_payload : list json)
    (session_hash : string) (trigger_id : option Z)
    (source_ip : option string) (w : state) :
  exists message w1 tr,
    call_gradio_api_with_ipv6 env base_url fn_index data_payload
      session_hash trigger_id source_ip w
    = (Raise (GPUQuotaError message), w1, tr)
    /\ adds tr [] 1 0.
Proof.
  destruct (refused (posts_sent w)) as (detail & Hreply & Hkw).
  unfold call_gradio_api_with_ipv6.
  destruct source_ip as [ip|]; [destruct (mounts_adapter env (Some ip))|];
    unfold bind at 1; rewrite print_runs;
    unfold try_except, bind at 1, s_post; rewrite Hreply;
    cbn [raise_reply]; rewrite Hkw;
    eexists; eexists; eexists; (split; [reflexivity|]);
    repeat split.
Qed.

Lemma attempt_refused (ip : option string) (retry_count : Z) (w : state) :
  exists message w1 tr,
    attempt env persian_prompt aspect_ratio_key ip retry_count w
    = (Raise (GPUQuotaError message), w1, tr)
    /\ adds tr [] 1 0.
Proof.
  unfold attempt, translate_prompt.
  set (rest := fun translator_event_id : json => _).
  set (after := fun prompt_for_image : json => _).
  unfold generate_session_hash.
  pose proof (random_choices_runs env SESSION_HASH_ALPHABET 26 w) as Hhash.
  set (w0 := State (clock w) (posts_sent w) (gets_sent w)
               (draws_taken w + 26) (last_progress_update w)) in Hhash.
  destruct (call_gradio_api_with_ipv6_refused TRANSLATOR_API_BASE_URL
              TRANSLATOR_FN_INDEX
              (JStr persian_prompt :: TRANSLATOR_OTHER_PARAMS)
              (choices_at (random_draws env) SESSION_HASH_ALPHABET 26
                 (draws_taken w))
              None ip w0) as (message & w1 & tr & Hcall & Hadds).
  exists message, w1, (Print (InfoTranslating (retry_count + 1) ip) :: tr).
  split.
  - apply bind_stops.
    rewrite (bind_runs_on _ _ _ _ _ _
               (print_runs (InfoTranslating (retry_count + 1) ip) w)).
    rewrite (bind_runs_on _ _ _ _ _ _ Hhash).
    rewrite (bind_stops _ _ _ _ _ _ Hcall).
    reflexivity.
  - change (Print (InfoTranslating (retry_count + 1) ip) :: tr)
      with ([Print (InfoTranslating (retry_count + 1) ip)] ++ tr).
    apply (adds_app _ _ [] [] 0 1 0 0); [repeat split|exact Hadds].
Qed.

Lemma rotation_loop_refused (available tried : list (option string))
    (w : state) :
  exists w' tr,
    rotation_loop env persian_prompt aspect_ratio_key available tried w
    = (Ret failure_record, w', tr)
    /\ adds tr available (length available) 0.
Proof.
  revert tried w.
  induction available as [|ip remaining IH]; intros tried w.
  - eexists. eexists. split; [reflexivity|repeat split].
  - destruct (attempt_refused ip 0 w) as (message & w1 & tr1 & H & Hadds).
    destruct (IH (tried ++ [ip]) w1) as (w' & tr & Hrest & Haddsrest).
    pose proof (retry_loop_breaks_on_quota env persian_prompt
                  aspect_ratio_key ip 0 [1%Z] w w1 message tr1 H) as Hloop.
    exists w'.
    exists ([Print (InfoAttemptingWith ip (length remaining))]
            ++ (tr1 ++ [Print (QuotaErrorWithIp ip message)]) ++ tr).
    split.
    + cbn [rotation_loop]. unfold bind at 1. rewrite print_runs.
      change (range max_retries_per_ip) with [0%Z; 1%Z].
      unfold bind at 1. rewrite Hloop, Hrest. reflexivity.
    + destruct Hadds as (Ha1 & Hs1 & Hp1).
      destruct Haddsrest as (Ha2 & Hs2 & Hp2).
      unfold adds.
      rewrite !addresses_taken_app, !submissions_app, !length_app,
        !polls_app, Ha1, Ha2, Hs1, Hs2, Hp1, Hp2.
      repeat split.
Qed.

End RefusedFacts.

(** X21.  When the service refuses every submission with a resource
    error, the run takes every entry of its list once and in order,
    makes exactly one submission on each, never polls, and returns the
    failure record. *)
Theorem refused_run_tries_every_address_once
    (env : environment) (persian_prompt aspect_ratio_key : string)
    (w : state) :
  every_post_refused env ->
  let run := start_full_process_with_ipv6_rotation env persian_prompt
               aspect_ratio_key w in
  outcome_of run = Ret failure_record
  /\ addresses_taken (trace_of run) = entries_of_run env
  /\ length (submissions (trace_of run)) = length (entries_of_run env)
  /\ polls (trace_of run) = 0.
Proof.
  intros Hrefused. cbv zeta.
  unfold start_full_process_with_ipv6_rotation, entries_of_run.
  destruct (IPV6_ADDRESSES env) as [|first others].
  - destruct (rotation_loop_refused env persian_prompt aspect_ratio_key
                Hrefused [None] [] w) as (w' & tr & Hloop & Ht & Hs & Hp).
    cbn [map].
    assert (Hwarn : (print WarningNoAddresses ;; ret [@None string]) w
                    = (Ret [None], w, [Print WarningNoAddresses]))
      by reflexivity.
    rewrite (bind_runs_on _ _ _ _ _ _ Hwarn), Hloop.
    cbn [outcome_of state_of trace_of fst snd].
    rewrite addresses_taken_app, submissions_app, length_app, polls_app,
      Ht, Hs, Hp.
    repeat split.
  - destruct (rotation_loop_refused env persian_prompt aspect_ratio_key
                Hrefused (Some first :: map Some others) [] w)
      as (w' & tr & Hloop & Ht & Hs & Hp).
    cbn [map]. rewrite bind_ret, Hloop.
    cbn [outcome_of state_of trace_of fst snd].
    rewrite Ht, Hs, Hp. repeat split.
Qed.

(** Both addresses of the sample are refused with HTTP status 429. *)
Lemma refused_run_tries_every_address_once_witness :
  addresses_taken
    (trace_of (start_full_process_with_ipv6_rotation
                 Example.rate_limited_env "gorbe" "9:16" Sample.start))
  = [Some "2001:db8::1"; Some "2001:db8::2"].
Proof.
  refine (proj1 (proj2 (refused_run_tries_every_address_once
                          Example.rate_limited_env "gorbe" "9:16"
                          Sample.start _))).
  intros k.
  exists "429 Client Error: Too Many Requests for url: https://b".
  split; reflexivity.
Defined.

(** ** From the translation to the render, further *)

(** X22.  The translation step returns no empty prompt: whatever the
    translator answered, a prompt that the step returns is truthy, so an
    empty translation never reaches the image generator. *)
Theorem translation_is_never_empty
    (env : environment) (persian_prompt : string) (ip : option string)
    (retry_count : Z) (w : state) (v : json) :
  outcome_of (translate_prompt env persian_prompt ip retry_count w) = Ret v ->
  Py.truthy v = true.
Proof.
  destruct (translate_prompt env persian_prompt ip retry_count w)
    as [[r w'] tr] eqn:E.
  cbn [outcome_of fst]. intros Hr.
  exact (translate_prompt_returns env _ _ _ _ _ _ _ _ E Hr).
Qed.

(** The translation of the sample run. *)
Lemma translation_is_never_empty_witness :
  Py.truthy (JStr "a cat") = true.
Proof.
  apply (translation_is_never_empty Example.success_env "gorbe"
           (Some "2001:db8::1") 0 Sample.start (JStr "a cat")).
  vm_compute. reflexivity.
Defined.

(** X23.  When the translation step returns a prompt, the attempt makes
    exactly two submissions: the translate submission, and the render
    submission whose payload carries that very prompt as its first
    element, with the size of the aspect ratio key, a seed from the next
    random draw and a token of its own. *)
Theorem translation_feeds_the_render
    (env : environment) (persian_prompt aspect_ratio_key : string)
    (ip : option string) (retry_count : Z) (w w1 : state) (v : json)
    (t1 : list event) :
  translate_prompt env persian_prompt ip retry_count w = (Ret v, w1, t1) ->
  submissions
    (trace_of (attempt env persian_prompt aspect_ratio_key ip retry_count w))
  = [translate_submission env persian_prompt (draws_taken w);
     (join_url_of IMAGE_GENERATOR_API_BASE_URL,
      api_payload_of
        [v;
         JInt (seed_at env (draws_taken w + 26));
         JBool DEFAULT_RANDOMIZE_SEED;
         JInt (width (dimensions_for aspect_ratio_key));
         JInt (height (dimensions_for aspect_ratio_key));
         DEFAULT_GUIDANCE_SCALE;
         JInt DEFAULT_INFERENCE_STEPS]
        IMAGE_GENERATOR_FN_INDEX
        (session_hash_at env (S (draws_taken w + 26)))
        (Some IMAGE_GENERATOR_TRIGGER_ID))].
Proof.
  intros H.
  exact (attempt_after_translation env persian_prompt aspect_ratio_key
           ip retry_count w w1 v t1 H).
Qed.

(** The two submissions of the sample run that succeeds. *)
Lemma translation_feeds_the_render_witness :
  length (submissions
            (trace_of (attempt Example.success_env "gorbe" "9:16"
                         (Some "2001:db8::1") 0 Sample.start)))
  = 2.
Proof.
  erewrite (translation_feeds_the_render Example.success_env "gorbe" "9:16"
              (Some "2001:db8::1") 0 Sample.start).
  - reflexivity.
  - vm_compute. reflexivity.
Defined.

(** ** The classifier *)

Lemma append_assoc (a b c : string) :
  ((a ++ b) ++ c)%string = (a ++ b ++ c)%string.
Proof. induction a as [|x a IH]; simpl; [reflexivity|now rewrite IH]. Qed.

(** X24.  The classifier is monotone under embedding: a text that names
    a resource keyword still does when any text is put before and after
    it, as the submit and the poller do when they wrap a detail into a
    message. *)
Theorem keyword_survives_embedding (before text after : string) :
  has_resource_keyword text = true ->
  has_resource_keyword (before ++ text ++ after)%string = true.
Proof.
  intros H. apply has_resource_keyword_iff in H
    as (kw & x & found & y & Hkw & -> & Hsame).
  apply has_resource_keyword_iff.
  exists kw, (before ++ x)%string, found, (y ++ after)%string.
  split; [exact Hkw|]. split; [|exact Hsame].
  now rewrite !append_assoc.
Qed.

(** The message the submit builds from a refusal is still classified as
    a resource error. *)
Lemma keyword_survives_embedding_witness :
  has_resource_keyword
    ("Server (GPU) resource limit encountered: " ++ "Too Many Requests"
     ++ ".")%string
  = true.
Proof.
  apply (keyword_survives_embedding
           "Server (GPU) resource limit encountered: " "Too Many Requests"
           ".").
  reflexivity.
Defined.

(** ** Failures that do not end the await call, and recovery *)

Lemma scan_events_failed_completion (event_id : json)
    (service_name : string) (record : json) (rest : list json)
    (error_msg : string) (w : state) :
  failed_completion event_id record error_msg ->
  scan_events event_id service_name (record :: rest) w
  = (Raise (completion_error service_name error_msg), w, []).
Proof.
  intros (fields & id & out_fields & -> & Hid & Heq & Hmsg & Hsuccess
          & Hout & Herr).
  cbn [scan_events]. unfold completed, completion_error, classify.
  unfold bind, dict_get, ret, raise. rewrite Hid, Heq, Hmsg.
  change (Py.eqb (JStr "process_completed") (JStr "process_completed"))
    with true.
  unfold falsy_entry in Hsuccess.
  destruct (dict_lookup fields "success") as [success|];
    cbv beta iota; cbn [Py.truthy]; rewrite ?Hsuccess;
    cbv beta iota; rewrite ?Hsuccess; rewrite Hout;
    cbv beta iota; rewrite Herr;
    destruct (has_resource_keyword error_msg); reflexivity.
Qed.

(** X25.  A failed completion of the awaited job does not end the await
    call: the error of lines 186 and 187 is raised inside the [try] block
    and taken by the clause of line 208, so the cycle prints it as
    unhandled, sleeps 5 seconds and lets the loop poll again. *)
Theorem failed_completion_does_not_end_polling
    (env : environment) (event_id : json) (service_name : string)
    (s : session) (data_url : string) (w : state) (text : string)
    (record : json) (others : list json) (error_msg : string) :
  outcome (get_replies env (gets_sent w)) = Replied text ->
  spec_decoded env (PyStr.split_lines (PyStr.strip text))
  = record :: others ->
  failed_completion event_id record error_msg ->
  poll_cycle env event_id service_name s data_url w
  = (Ret Again,
     State (clock w + Z.of_N (took (get_replies env (gets_sent w))) + 5)
           (posts_sent w) (S (gets_sent w)) (draws_taken w)
           (last_progress_update w),
     Get data_url (bound_address s data_url)
     :: map (fun line => Print (WarningCouldNotDecode line))
          (filter (malformed env) (PyStr.split_lines (PyStr.strip text)))
     ++ [Print (ErrorUnhandledPolling service_name
                  (completion_error service_name error_msg));
         Sleep 5]).
Proof.
  intros Hreply Hdecoded Hrecord.
  set (w1 := State (clock w + Z.of_N (took (get_replies env (gets_sent w))))
                (posts_sent w) (S (gets_sent w)) (draws_taken w)
                (last_progress_update w)).
  assert (Eget : s_get env s data_url w
                 = (Ret text, w1, [Get data_url (bound_address s data_url)])).
  { unfold s_get. now rewrite Hreply. }
  assert (Eonce : poll_once env event_id service_name s data_url w
                  = (Raise (completion_error service_name error_msg), w1,
                     Get data_url (bound_address s data_url)
                     :: map (fun line => Print (WarningCouldNotDecode line))
                          (filter (malformed env)
                             (PyStr.split_lines (PyStr.strip text))))).
  { unfold poll_once.
    rewrite (bind_runs_on _ _ _ _ _ _ Eget).
    rewrite (bind_runs_on _ _ _ _ _ _ (collect_events_decodes env _ w1)).
    rewrite Hdecoded.
    rewrite (bind_stops _ _ _ _ _ _
               (scan_events_failed_completion _ service_name _ _ _ w1
                  Hrecord)).
    cbn [outcome_of state_of trace_of fst snd app].
    now rewrite app_nil_r. }
  unfold poll_cycle. rewrite (try_except_handles _ _ _ _ _ _ Eonce).
  subst w1. unfold completion_error.
  destruct (classify error_msg);
    cbn [on_poll_failure]; unfold time_sleep, emit, advance, bind, ret, print;
    cbn [outcome_of state_of trace_of fst snd app clock posts_sent gets_sent
         draws_taken last_progress_update];
    reflexivity.
Qed.

(** The sample poll brings a failed completion of the awaited job. *)
Lemma failed_completion_does_not_end_polling_witness :
  outcome_of (poll_cycle Example.failed_env (JStr "e1") "ImageGenerator"
                None "https://b" Sample.start)
  = Ret Again.
Proof.
  erewrite (failed_completion_does_not_end_polling Example.failed_env
              (JStr "e1") "ImageGenerator" None "https://b" Sample.start
              ("data: " +++ Example.failed_text) Example.failed_record []
              "NSFW content detected").
  - reflexivity.
  - reflexivity.
  - vm_compute. reflexivity.
  - exists [("event_id", JStr "e1");
            ("msg", JStr "process_completed");
            ("success", JBool false);
            ("output", JObj [("error", JStr "NSFW content detected")])],
      (JStr "e1"), [("error", JStr "NSFW content detected")].
    repeat split.
Defined.

(** What the rotation does with an address whose first attempt raises
    a [GPUQuotaError]. *)
Lemma rotation_loop_moves_on_after_quota
    (env : environment) (persian_prompt aspect_ratio_key : string)
    (ip : option string) (remaining tried : list (option string))
    (w w1 : state) (message : string) (tr1 : list event) :
  attempt env persian_prompt aspect_ratio_key ip 0 w
  = (Raise (GPUQuotaError message), w1, tr1) ->
  rotation_loop env persian_prompt aspect_ratio_key (ip :: remaining)
    tried w
  = let '(r, w2, tr2) :=
      rotation_loop env persian_prompt aspect_ratio_key remaining
        (tried ++ [ip]) w1 in
    (r, w2,
     Print (InfoAttemptingWith ip (length remaining))
     :: (tr1 ++ [Print (QuotaErrorWithIp ip message)]) ++ tr2).
Proof.
  intros H. cbn [rotation_loop].
  unfold bind at 1. rewrite print_runs.
  change (range max_retries_per_ip) with [0%Z; 1%Z].
  unfold bind at 1.
  rewrite (retry_loop_breaks_on_quota env persian_prompt aspect_ratio_key
             ip 0 [1%Z] w w1 message tr1 H).
  destruct (rotation_loop env persian_prompt aspect_ratio_key remaining
              (tried ++ [ip]) w1) as [[r w2] tr2].
  reflexivity.
Qed.

(** X26.  A run recovers on the next address: when the first attempt on
    the first address raises a [GPUQuotaError] and the first attempt on
    the second address succeeds, the run returns the result of that
    attempt, having taken these two addresses and no other. *)
Theorem run_recovers_on_the_next_address
    (env : environment) (persian_prompt aspect_ratio_key : string)
    (first second : string) (others : list string) (w w1 w2 : state)
    (message : string) (value : json) (tr1 tr2 : list event) :
  IPV6_ADDRESSES env = first :: second :: others ->
  attempt env persian_prompt aspect_ratio_key (Some first) 0 w
  = (Raise (GPUQuotaError message), w1, tr1) ->
  attempt env persian_prompt aspect_ratio_key (Some second) 0 w1
  = (Ret value, w2, tr2) ->
  start_full_process_with_ipv6_rotation env persian_prompt
    aspect_ratio_key w
  = (Ret value, w2,
     Print (InfoAttemptingWith (Some first) (S (length others)))
     :: (tr1 ++ [Print (QuotaErrorWithIp (Some first) message)])
     ++ Print (InfoAttemptingWith (Some second) (length others)) :: tr2).
Proof.
  intros Hlist H1 H2.
  unfold start_full_process_with_ipv6_rotation. rewrite Hlist.
  cbn [map]. rewrite bind_ret.
  rewrite (rotation_loop_moves_on_after_quota env persian_prompt
             aspect_ratio_key (Some first) (Some second :: map Some others)
             [] w w1 message tr1 H1).
  rewrite (rotation_loop_returns_on_success env persian_prompt
             aspect_ratio_key (Some second) (map Some others)
             ([] ++ [Some first]) w1 w2 value tr2 H2).
  cbn [length]. now rewrite !length_map.
Qed.

(** The sample run whose first submission is refused for quota. *)
Lemma run_recovers_on_the_next_address_witness :
  outcome_of (start_full_process_with_ipv6_rotation Example.recover_env
                "gorbe" "9:16" Sample.start)
  = Ret (success_record
           "https://black-forest-labs-flux-1-dev.hf.space/file=out.png").
Proof.
  erewrite (run_recovers_on_the_next_address Example.recover_env "gorbe"
              "9:16" "2001:db8::1" "2001:db8::2" [] Sample.start).
  - reflexivity.
  - reflexivity.
  - vm_compute. reflexivity.
  - vm_compute. reflexivity.
Defined.

(** X27.  When the service refuses every submission with a resource
    error, the endpoint answers with status 500 and the failure message
    of the run under the key [message]. *)
Theorem endpoint_answers_500_when_every_submission_is_refused
    (env : environment) (request : GenerateImageRequest) (w : state) :
  every_post_refused env ->
  outcome_of (generate_image_endpoint env request w)
  = Ret (JSONResponse 500 (JObj [("message", JStr FAILURE_MESSAGE)])).
Proof.
  intros Hrefused.
  unfold generate_image_endpoint, try_except,
    start_full_process_with_ipv6_rotation.
  destruct (map Some (IPV6_ADDRESSES env)) as [|ip ips].
  - destruct (rotation_loop_refused env (prompt request)
                (aspectRatioKey request) Hrefused [None] [] w)
      as (w' & tr & Hloop & _).
    assert (Hwarn : (print WarningNoAddresses ;; ret [@None string]) w
                    = (Ret [None], w, [Print WarningNoAddresses]))
      by reflexivity.
    rewrite (bind_runs_on _ _ _ _ _ _
               (eq_trans (bind_runs_on _ _ _ _ _ _ Hwarn)
                  (f_equal (fun x => (outcome_of x, state_of x,
                                      [Print WarningNoAddresses]
                                      ++ trace_of x)) Hloop))).
    reflexivity.
  - destruct (rotation_loop_refused env (prompt request)
                (aspectRatioKey request) Hrefused (ip :: ips) [] w)
      as (w' & tr & Hloop & _).
    rewrite (bind_runs_on _ _ _ _ _ _
               (eq_trans (bind_ret _ _ _) Hloop)).
    reflexivity.
Qed.

(** Both addresses of the sample are refused with HTTP status 429. *)
Lemma endpoint_answers_500_when_every_submission_is_refused_witness :
  outcome_of (generate_image_endpoint Example.rate_limited_env
                (Request "gorbe" "9:16") Sample.start)
  = Ret (JSONResponse 500 (JObj [("message", JStr FAILURE_MESSAGE)])).
Proof.
  apply (endpoint_answers_500_when_every_submission_is_refused
           Example.rate_limited_env (Request "gorbe" "9:16") Sample.start).
  intros k.
  exists "429 Client Error: Too Many Requests for url: https://b".
  split; reflexivity.
Defined.
